(** * GraviTrax Connect: the Bridge protocol stack

    A shallow embedding of [gravitraxconnect/gravitrax_bridge.py]: the
    checksum functions, the notification handler (hex dump, regular
    expression scan, duplicate window, decoding, callback dispatch), the
    sender ([send_bytes], [send_signal], [send_periodic]) and the session
    operations ([connect], [__disconnect_callback], [__reconnect]).

    Conventions.
    - A Python [int] is a [Z]; [%] with a positive modulus is [Z.modulo].
    - A [bytes]/[bytearray] value is a [list Z] whose elements satisfy
      [is_byte]; a [str] is a [list ascii].
    - Everything the library obtains from outside (the radio transport,
      [random.randrange], user callbacks, the expiry of a [wait_for]
      deadline) is an explicit oracle argument.
    - A Python exception is a value of [exn]; a function that may raise
      returns a [result]. *)

From Stdlib Require Import String.
From Stdlib Require Import ZArith QArith List Ascii Bool Lia.
Import ListNotations.
Local Open Scope Z_scope.

(* ================================================================= *)
(** ** Exceptions and results *)

(** The exception classes the library names in its [except] clauses,
    and one constructor for every other class. *)
Inductive exn : Type :=
| TypeError
| AttributeError
| ValueError
| TimeoutError
| CancelledError
| BleakError
| BleakDeviceNotFoundError          (* a subclass of BleakError *)
| OtherError (name : String.string).

(** [isinstance(e, BleakError)]. *)
Definition is_BleakError (e : exn) : bool :=
  match e with
  | BleakError | BleakDeviceNotFoundError => true
  | _ => false
  end.

Definition is_TypeError (e : exn) : bool :=
  match e with TypeError => true | _ => false end.

Inductive result (A : Type) : Type :=
| Ok (a : A)
| Raise (e : exn).
Arguments Ok {A} a.
Arguments Raise {A} e.

(* ================================================================= *)
(** ** Signal codec *)

Module Codec.

Definition is_byte (x : Z) : Prop := 0 <= x < 256.

Definition is_byteb (x : Z) : bool := (0 <=? x) && (x <? 256).

(** [data[i]] for an index already known to be in range. *)
Definition item (data : list Z) (i : nat) : Z := nth i data 0.

(** [calc_checksum(data, for_received)]; [None] is Python's [None]. *)
Definition calc_checksum (data : list Z) (for_received : bool) : option Z :=
  if negb (Nat.eqb (length data) 7) then None
  else
    let checksum :=
      (item data 0 + item data 1 + item data 2 + item data 3 + item data 4) mod 256 in
    let checksum :=
      if for_received then (checksum + item data 6 - 1) mod 256 else checksum in
    Some checksum.

(** [add_checksum(data, for_received)]: [None] for a length other than
    seven; otherwise [bytes([...])], which raises ValueError unless every
    element is in range(256), and TypeError on an element that is
    [None]. *)
Definition add_checksum (data : list Z) (for_received : bool)
  : result (option (list Z)) :=
  if negb (Nat.eqb (length data) 7) then Ok None
  else
    match calc_checksum data for_received with
    | Some c =>
        let out := [item data 0; item data 1; item data 2; item data 3; item data 4;
                    c; item data 6] in
        if forallb is_byteb out then Ok (Some out) else Raise ValueError
    | None => Raise TypeError
    end.

End Codec.

(* ================================================================= *)
(** ** The Bridge object, its callbacks and the observable events *)

(** A Python [str] that the library inspects character by character. *)
Definition str : Type := list ascii.

Definition str_eq_dec : forall s t : str, {s = t} + {s <> t} :=
  list_eq_dec ascii_dec.

(** Keyword arguments of a notification callback; [None] is Python's
    [None]. *)
Record noti_args : Type := {
  Header : option Z;
  Stone : option Z;
  Status : option Z;
  Reserved : option Z;
  Id : option Z;
  Checksum : option Z;
  Color : option Z;
  Data : list Z
}.

(** A user callback is known by what a call does: it returns ([None]) or
    raises.  Callbacks are taken not to touch the Bridge's private
    fields. *)
Definition noti_callable : Type := noti_args -> option exn.

(** [dc_callback(bridge, user_disconnected=..., by_timeout=...)]. *)
Definition dc_callable : Type := bool -> bool -> option exn.

Record BLEDevice : Type := {
  dev_name : String.string;
  dev_address : String.string
}.

(** A [BleakClient]: the device it was made for, and whether its link is
    up ([client.is_connected]). *)
Record BleakClient : Type := {
  cl_device : BLEDevice;
  cl_is_connected : bool
}.

Inductive level : Type := DEBUG | INFO | WARNING | ERROR.

(** What a run does to the outside world, in order. *)
Inductive event : Type :=
| EvLog (lv : level) (text : String.string)
| EvNotiCallback (args : noti_args)
| EvDcCallback (user_disconnected by_timeout : bool)
| EvSendBytes (data : list Z)
| EvWrite (uuid : String.string) (data : list Z)
| EvSleep (seconds : Q)
| EvScan (by_name : bool) (name_or_addr : String.string) (timeout : Q)
| EvNewClient (d : BLEDevice)
| EvClientConnect (d : BLEDevice) (timeout : Q)
| EvAcquireMtu
| EvReadChar (uuid : String.string)
| EvStartNotify (uuid : String.string)
| EvCreateTaskReconnect (address : String.string).

(** The fields of [Bridge.__init__], in its order. *)
Record Bridge : Type := {
  client : option BleakClient;
  name : option String.string;
  firmware : option Z;
  hardware : option Z;
  bridge_id : Z;
  dc_callback : option dc_callable;
  try_reconnect : bool;
  restart_notifications : bool;
  noti_callback : option noti_callable;
  address : option String.string;
  next_send_id : Z;
  user_disconnected : bool;
  last_notifications : list str
}.

(** [Bridge()]. *)
Definition Bridge_init : Bridge := {|
  client := None;
  name := None;
  firmware := None;
  hardware := None;
  bridge_id := 0;
  dc_callback := None;
  try_reconnect := false;
  restart_notifications := true;
  noti_callback := None;
  address := None;
  next_send_id := 0;
  user_disconnected := false;
  last_notifications := []
|}.

Definition set_client (v : option BleakClient) (b : Bridge) : Bridge :=
  {| client := v; name := name b; firmware := firmware b; hardware := hardware b;
     bridge_id := bridge_id b; dc_callback := dc_callback b;
     try_reconnect := try_reconnect b;
     restart_notifications := restart_notifications b;
     noti_callback := noti_callback b; address := address b;
     next_send_id := next_send_id b; user_disconnected := user_disconnected b;
     last_notifications := last_notifications b |}.

Definition set_name (v : option String.string) (b : Bridge) : Bridge :=
  {| client := client b; name := v; firmware := firmware b; hardware := hardware b;
     bridge_id := bridge_id b; dc_callback := dc_callback b;
     try_reconnect := try_reconnect b;
     restart_notifications := restart_notifications b;
     noti_callback := noti_callback b; address := address b;
     next_send_id := next_send_id b; user_disconnected := user_disconnected b;
     last_notifications := last_notifications b |}.

Definition set_versions (fw hw : option Z) (b : Bridge) : Bridge :=
  {| client := client b; name := name b; firmware := fw; hardware := hw;
     bridge_id := bridge_id b; dc_callback := dc_callback b;
     try_reconnect := try_reconnect b;
     restart_notifications := restart_notifications b;
     noti_callback := noti_callback b; address := address b;
     next_send_id := next_send_id b; user_disconnected := user_disconnected b;
     last_notifications := last_notifications b |}.

Definition set_dc_callback (v : option dc_callable) (b : Bridge) : Bridge :=
  {| client := client b; name := name b; firmware := firmware b; hardware := hardware b;
     bridge_id := bridge_id b; dc_callback := v;
     try_reconnect := try_reconnect b;
     restart_notifications := restart_notifications b;
     noti_callback := noti_callback b; address := address b;
     next_send_id := next_send_id b; user_disconnected := user_disconnected b;
     last_notifications := last_notifications b |}.

Definition set_reconnect_flags (tr rn : bool) (b : Bridge) : Bridge :=
  {| client := client b; name := name b; firmware := firmware b; hardware := hardware b;
     bridge_id := bridge_id b; dc_callback := dc_callback b;
     try_reconnect := tr;
     restart_notifications := rn;
     noti_callback := noti_callback b; address := address b;
     next_send_id := next_send_id b; user_disconnected := user_disconnected b;
     last_notifications := last_notifications b |}.

Definition set_noti_callback (v : option noti_callable) (b : Bridge) : Bridge :=
  {| client := client b; name := name b; firmware := firmware b; hardware := hardware b;
     bridge_id := bridge_id b; dc_callback := dc_callback b;
     try_reconnect := try_reconnect b;
     restart_notifications := restart_notifications b;
     noti_callback := v; address := address b;
     next_send_id := next_send_id b; user_disconnected := user_disconnected b;
     last_notifications := last_notifications b |}.

Definition set_address (v : option String.string) (b : Bridge) : Bridge :=
  {| client := client b; name := name b; firmware := firmware b; hardware := hardware b;
     bridge_id := bridge_id b; dc_callback := dc_callback b;
     try_reconnect := try_reconnect b;
     restart_notifications := restart_notifications b;
     noti_callback := noti_callback b; address := v;
     next_send_id := next_send_id b; user_disconnected := user_disconnected b;
     last_notifications := last_notifications b |}.

Definition set_next_send_id (v : Z) (b : Bridge) : Bridge :=
  {| client := client b; name := name b; firmware := firmware b; hardware := hardware b;
     bridge_id := bridge_id b; dc_callback := dc_callback b;
     try_reconnect := try_reconnect b;
     restart_notifications := restart_notifications b;
     noti_callback := noti_callback b; address := address b;
     next_send_id := v; user_disconnected := user_disconnected b;
     last_notifications := last_notifications b |}.

Definition set_user_disconnected (v : bool) (b : Bridge) : Bridge :=
  {| client := client b; name := name b; firmware := firmware b; hardware := hardware b;
     bridge_id := bridge_id b; dc_callback := dc_callback b;
     try_reconnect := try_reconnect b;
     restart_notifications := restart_notifications b;
     noti_callback := noti_callback b; address := address b;
     next_send_id := next_send_id b; user_disconnected := v;
     last_notifications := last_notifications b |}.

Definition set_last_notifications (v : list str) (b : Bridge) : Bridge :=
  {| client := client b; name := name b; firmware := firmware b; hardware := hardware b;
     bridge_id := bridge_id b; dc_callback := dc_callback b;
     try_reconnect := try_reconnect b;
     restart_notifications := restart_notifications b;
     noti_callback := noti_callback b; address := address b;
     next_send_id := next_send_id b; user_disconnected := user_disconnected b;
     last_notifications := v |}.

(* ================================================================= *)
(** ** Inbound path: [Bridge.__notification_handler] *)

Module Handler.
Import Codec.

Definition hex_chars : str :=
  ["0"; "1"; "2"; "3"; "4"; "5"; "6"; "7"; "8"; "9";
   "a"; "b"; "c"; "d"; "e"; "f"]%char.

Definition hex_digit (n : Z) : ascii := nth (Z.to_nat n) hex_chars "0"%char.

(** ["{:02x}".format(x)] for an element [x] of a [bytearray]. *)
Definition format_02x (x : Z) : str := [hex_digit (x / 16); hex_digit (x mod 16)].

(** [sep.join(parts)]. *)
Fixpoint join (sep : str) (parts : list str) : str :=
  match parts with
  | [] => []
  | p :: rest =>
      match rest with
      | [] => p
      | _ :: _ => p ++ sep ++ join sep rest
      end
  end.

(** [" ".join("{:02x}".format(x) for x in data)]. *)
Definition hex_message (data : list Z) : str :=
  join [" "%char] (map format_02x data).

Definition code (c : ascii) : nat := nat_of_ascii c.

(** [\s] of a [str] pattern, on the code points below 256: tab, line
    feed, vertical tab, form feed, carriage return, the four separators
    0x1c-0x1f, the space, next line (0x85) and the no-break space
    (0xa0). *)
Definition is_space (c : ascii) : bool :=
  ((9 <=? code c) && (code c <=? 13) || (28 <=? code c) && (code c <=? 32)
   || (code c =? 133) || (code c =? 160))%nat.

(** [[0-9a-fA-F]]. *)
Definition is_hex (c : ascii) : bool :=
  ((48 <=? code c) && (code c <=? 57)
   || (97 <=? code c) && (code c <=? 102)
   || (65 <=? code c) && (code c <=? 70))%nat.

(** [(\s[0-9a-fA-F]{2}){n}] at the start of [s]: the text matched and the
    rest, or [None]. *)
Fixpoint match_groups (n : nat) (s : str) : option (str * str) :=
  match n with
  | O => Some ([], s)
  | S n' =>
      match s with
      | w :: h1 :: h2 :: rest =>
          if is_space w && is_hex h1 && is_hex h2 then
            match match_groups n' rest with
            | Some (m, r) => Some (w :: h1 :: h2 :: m, r)
            | None => None
            end
          else None
      | _ => None
      end
  end.

(** [13(\s[0-9a-fA-F]{2}){6}] at the start of [s]: [match.group()]. *)
Definition re_match (s : str) : option str :=
  match s with
  | c1 :: c2 :: rest =>
      if Ascii.eqb c1 "1" && Ascii.eqb c2 "3" then
        match match_groups 6 rest with
        | Some (m, _) => Some (c1 :: c2 :: m)
        | None => None
        end
      else None
  | _ => None
  end.

(** [re.finditer]: leftmost matches, the search resuming where the last
    match ended.  [skip] characters still belong to the last match. *)
Fixpoint finditer_from (skip : nat) (s : str) : list str :=
  match s with
  | [] => []
  | _ :: t =>
      match skip with
      | S k => finditer_from k t
      | O =>
          match re_match s with
          | Some m => m :: finditer_from (length m - 1) t
          | None => finditer_from 0 t
          end
      end
  end.

Definition finditer (s : str) : list str := finditer_from 0 s.

(** Value of one hexadecimal digit. *)
Definition hex_value (c : ascii) : option Z :=
  if ((48 <=? code c) && (code c <=? 57))%nat then Some (Z.of_nat (code c) - 48)
  else if ((97 <=? code c) && (code c <=? 102))%nat then Some (Z.of_nat (code c) - 87)
  else if ((65 <=? code c) && (code c <=? 70))%nat then Some (Z.of_nat (code c) - 55)
  else None.

(** [int(s, base=16)] on a non-empty run of hexadecimal digits, which is
    all the handler passes; [None] stands for any other text. *)
Fixpoint int16_acc (acc : Z) (s : str) : option Z :=
  match s with
  | [] => Some acc
  | c :: t =>
      match hex_value c with
      | Some d => int16_acc (16 * acc + d) t
      | None => None
      end
  end.

Definition int16 (s : str) : option Z :=
  match s with
  | [] => None
  | _ :: _ => int16_acc 0 s
  end.

(** [s[a:b]] for [0 <= a <= b]. *)
Definition slice (s : str) (a b : nat) : str := firstn (b - a) (skipn a s).

(** The list [signal] built from [recv_signal]: header, stone type,
    status, reserved, message id, checksum, colour. *)
Definition decode (recv_signal : str) : option (list Z) :=
  match int16 (slice recv_signal 0 2), int16 (slice recv_signal 3 5),
        int16 (slice recv_signal 6 8), int16 (slice recv_signal 9 11),
        int16 (slice recv_signal 12 14), int16 (slice recv_signal 15 17),
        int16 (slice recv_signal 18 20) with
  | Some a, Some b, Some c, Some d, Some e, Some f, Some g =>
      Some [a; b; c; d; e; f; g]
  | _, _, _, _, _, _, _ => None
  end.

(** [while len(w) > 12: w.pop(0)]. *)
Fixpoint pop_while_over_12 (w : list str) : list str :=
  match w with
  | [] => []
  | _ :: t => if (12 <? length w)%nat then pop_while_over_12 t else w
  end.

(** The duplicate window, first lines of the loop body: [None] when
    [recv_signal] is already held ([continue]), else the window after
    the append and the eviction. *)
Definition accept (window : list str) (recv_signal : str) : option (list str) :=
  if in_dec str_eq_dec recv_signal window then None
  else Some (pop_while_over_12 (window ++ [recv_signal])).

(** Calling [self.noti_callback(...)]: the event of the call and what it
    does.  Calling [None] raises TypeError and reaches no callback. *)
Definition call_noti (cb : option noti_callable) (args : noti_args)
  : option exn * list event :=
  match cb with
  | Some f => (f args, [EvNotiCallback args])
  | None => (Some TypeError, [])
  end.

Definition unstructured (data : list Z) : noti_args :=
  {| Header := None; Stone := None; Status := None; Reserved := None;
     Id := None; Checksum := None; Color := None; Data := data |}.

Definition structured (signal : list Z) (data : list Z) : noti_args :=
  {| Header := Some (item signal 0); Stone := Some (item signal 1);
     Status := Some (item signal 2); Reserved := Some (item signal 3);
     Id := Some (item signal 4); Checksum := Some (item signal 5);
     Color := Some (item signal 6); Data := data |}.

Definition msg_checksum : String.string :=
  "Incoming Notification was discarded because the Checksum was incorrect"%string.

Definition msg_noti_failed : String.string :=
  "Failed to call notification callback"%string.

(** [signal[5] != calc_checksum(signal, for_received=True)]. *)
Definition checksum_differs (signal : list Z) : bool :=
  match calc_checksum signal true with
  | Some c => negb (item signal 5 =? c)
  | None => true
  end.

(** The [for recv_signal in recv_signals] loop.  The callback is
    [self.noti_callback], read again at every call. *)
Fixpoint signal_loop (cb : option noti_callable) (data : list Z)
    (recv_signals : list str) (window : list str)
  : result unit * list str * list event :=
  match recv_signals with
  | [] => (Ok tt, window, [])
  | recv_signal :: rest =>
      match accept window recv_signal with
      | None => signal_loop cb data rest window
      | Some window' =>
          match decode recv_signal with
          | None => (Raise ValueError, window', [])
          | Some signal =>
              let log :=
                if checksum_differs signal
                then [EvLog DEBUG msg_checksum] else [] in
              let args := structured signal data in
              match call_noti cb args with
              | (None, call) =>
                  let '(r, w, evs) := signal_loop cb data rest window' in
                  (r, w, log ++ call ++ evs)
              | (Some e, call) =>
                  if is_TypeError e then
                    let '(r, w, evs) := signal_loop cb data rest window' in
                    (r, w, log ++ call ++ EvLog ERROR msg_noti_failed :: evs)
                  else (Raise e, window', log ++ call)
              end
          end
      end
  end.

(** [Bridge.__notification_handler(characteristic, data)].  The lock
    [__noti_lock] is taken before the loop and released in [finally]. *)
Definition __notification_handler (self : Bridge) (data : list Z)
  : result unit * Bridge * list event :=
  let message := hex_message data in
  let recv_signals := finditer message in
  if (length recv_signals =? 0)%nat then
    let args := unstructured data in
    match call_noti (noti_callback self) args with
    | (None, call) => (Ok tt, self, call)
    | (Some e, call) => (Raise e, self, call)
    end
  else
    let '(r, w, evs) :=
      signal_loop (noti_callback self) data recv_signals (last_notifications self) in
    (r, set_last_notifications w self, evs).

(** The dump behind the first byte: every further byte with its
    separator in front. *)
Definition spaced (data : list Z) : str :=
  flat_map (fun b => " "%char :: format_02x b) data.

(** The callbacks of a trace, in order. *)
Definition noti_calls (evs : list event) : list noti_args :=
  flat_map (fun ev => match ev with EvNotiCallback a => [a] | _ => [] end) evs.

End Handler.

(* ================================================================= *)
(** ** Outbound path: [send_bytes], [send_signal], [send_periodic] *)

Module Sender.
Import Codec.

(** The outside world of a sender: the n-th draw of
    [random.randrange(0, 255)] and what the n-th call of
    [client.write_gatt_char] does (returns, or raises). *)
Record env : Type := {
  randrange_0_255 : nat -> Z;
  write_gatt_char : nat -> option exn
}.

(** The state a sender runs in: the Bridge, the [asyncio.Event] objects
    created so far (their flags, by creation index), how often the two
    oracles were consulted, and the events so far, latest last. *)
Record world : Type := {
  self : Bridge;
  error_events : list bool;
  rand_calls : nat;
  write_calls : nat;
  trace : list event
}.

Definition with_self (b : Bridge) (w : world) : world :=
  {| self := b; error_events := error_events w; rand_calls := rand_calls w;
     write_calls := write_calls w; trace := trace w |}.

Definition with_error_events (l : list bool) (w : world) : world :=
  {| self := self w; error_events := l; rand_calls := rand_calls w;
     write_calls := write_calls w; trace := trace w |}.

Definition with_rand_calls (n : nat) (w : world) : world :=
  {| self := self w; error_events := error_events w; rand_calls := n;
     write_calls := write_calls w; trace := trace w |}.

Definition with_write_calls (n : nat) (w : world) : world :=
  {| self := self w; error_events := error_events w; rand_calls := rand_calls w;
     write_calls := n; trace := trace w |}.

Definition with_trace (t : list event) (w : world) : world :=
  {| self := self w; error_events := error_events w; rand_calls := rand_calls w;
     write_calls := write_calls w; trace := t |}.

(** A computation that reads and changes the world and returns or
    raises; the world is kept when it raises. *)
Definition M (A : Type) : Type := world -> result A * world.

Definition ret {A} (a : A) : M A := fun w => (Ok a, w).

Definition bind {A B} (m : M A) (k : A -> M B) : M B :=
  fun w =>
    match m w with
    | (Ok a, w') => k a w'
    | (Raise e, w') => (Raise e, w')
    end.

Definition raise {A} (e : exn) : M A := fun w => (Raise e, w).

(** [try: m  except <the classes handler accepts>: ...]. *)
Definition try_except {A} (m : M A) (handler : exn -> option (M A)) : M A :=
  fun w =>
    match m w with
    | (Ok a, w') => (Ok a, w')
    | (Raise e, w') =>
        match handler e with
        | Some h => h w'
        | None => (Raise e, w')
        end
    end.

Declare Scope sender_scope.
Delimit Scope sender_scope with sender.
Notation "x <- m ;; k" := (bind m (fun x => k))
  (at level 61, m at next level, right associativity) : sender_scope.
Notation "m ;; k" := (bind m (fun _ => k))
  (at level 61, right associativity) : sender_scope.
Local Open Scope sender_scope.

Definition emit (ev : event) : M unit :=
  fun w => (Ok tt, with_trace (trace w ++ [ev]) w).

Definition log_print (lv : level) (text : String.string) : M unit :=
  emit (EvLog lv text).

Definition get_next_send_id : M Z := fun w => (Ok (next_send_id (self w)), w).

Definition put_next_send_id (v : Z) : M unit :=
  fun w => (Ok tt, with_self (set_next_send_id v (self w)) w).

Section WithEnv.
Variable e : env.

(** [random.randrange(0, 255)]. *)
Definition random_randrange : M Z :=
  fun w => (Ok (randrange_0_255 e (rand_calls w)),
            with_rand_calls (S (rand_calls w)) w).

(** [await self.client.write_gatt_char(uuid, data)]; without a client
    the attribute lookup on [None] raises AttributeError. *)
Definition client_write_gatt_char (uuid : String.string) (data : list Z) : M unit :=
  fun w =>
    match client (self w) with
    | None => (Raise AttributeError, w)
    | Some _ =>
        let w' := with_write_calls (S (write_calls w))
                    (with_trace (trace w ++ [EvWrite uuid data]) w) in
        match write_gatt_char e (write_calls w) with
        | None => (Ok tt, w')
        | Some exc => (Raise exc, w')
        end
    end.

Definition asyncio_sleep (seconds : Q) : M unit := emit (EvSleep seconds).

(** [asyncio.Event()], [Event.set()], [Event.is_set()]. *)
Definition Event_new : M nat :=
  fun w => (Ok (length (error_events w)),
            with_error_events (error_events w ++ [false]) w).

Fixpoint set_flag (l : list bool) (i : nat) : list bool :=
  match l, i with
  | [], _ => []
  | _ :: t, O => true :: t
  | b :: t, S j => b :: set_flag t j
  end.

Definition Event_set (ev : nat) : M unit :=
  fun w => (Ok tt, with_error_events (set_flag (error_events w) ev) w).

Definition Event_is_set (ev : nat) : M bool :=
  fun w => (Ok (nth ev (error_events w) false), w).

(** [if isinstance(error_event, asyncio.Event): error_event.set()]. *)
Definition set_if_event (error_event : option nat) : M unit :=
  match error_event with
  | Some ev => Event_set ev
  | None => ret tt
  end.

(** [bytes([...])]: ValueError unless every element is in range(256). *)
Definition bytes_of (l : list Z) : M (list Z) :=
  if forallb is_byteb l then ret l else raise ValueError.

Definition UUID_WRITE : String.string := "0000ff02-0000-1000-8000-00805f9b34fb"%string.
Definition MSG_DEFAULT_HEADER : Z := 19.
Definition STONE_BRIDGE : Z := 6.

Definition msg_send_error : String.string := "Error sending Data:"%string.

(** The [for _ in range(resends)] loop of [send_bytes], [n] rounds to
    go. *)
Fixpoint write_loop (uuid : String.string) (data : list Z) (resend_gap : Q)
    (n : nat) : M unit :=
  match n with
  | O => ret tt
  | S k =>
      client_write_gatt_char uuid data ;;
      asyncio_sleep resend_gap ;;
      write_loop uuid data resend_gap k
  end.

(** [Bridge.send_bytes(data, resends, resend_gap, uuid, error_event)].
    The call itself is recorded as [EvSendBytes data]. *)
Definition send_bytes_except (error_event : option nat) (exc : exn)
  : option (M unit) :=
  if is_TypeError exc || is_BleakError exc then
    (* except (TypeError, BleakError) *)
    Some (set_if_event error_event ;; log_print ERROR msg_send_error)
  else
    match exc with
    | AttributeError =>
        Some (set_if_event error_event ;; log_print ERROR msg_send_error)
    | _ => None
    end.

Definition send_bytes (data : list Z) (resends : Z) (resend_gap : Q)
    (uuid : String.string) (error_event : option nat) : M unit :=
  emit (EvSendBytes data) ;;
  try_except (write_loop uuid data resend_gap (Z.to_nat resends))
    (send_bytes_except error_event).

(** The arguments of [send_signal], under the names of its parameters. *)
Record signal_args : Type := {
  status : Z;
  color_channel : Z;
  resends : Z;
  resend_gap : Q;
  random_id : bool;
  uuid : String.string;
  header : Z;
  stone : Z;
  error_event : option nat
}.

(** [send_signal(status, color_channel)] with every default. *)
Definition signal_defaults (status color_channel : Z) : signal_args :=
  {| status := status; color_channel := color_channel; resends := 12;
     resend_gap := 0%Q; random_id := false; uuid := UUID_WRITE;
     header := MSG_DEFAULT_HEADER; stone := STONE_BRIDGE; error_event := None |}.

(** [send_signal] up to its call of [send_bytes]: the reserved byte, the
    message id taken and the counter advanced between
    [__send_lock.acquire()] and [__send_lock.release()], the checksum,
    and the frame.  Nothing in here suspends: the lock is free whenever
    a coroutine reaches it. *)
Definition send_signal_frame (a : signal_args) : M (list Z) :=
  reserved <- random_randrange ;;
  message_id <- (if random_id a then random_randrange else get_next_send_id) ;;
  next <- get_next_send_id ;;
  put_next_send_id ((next + 1) mod 256) ;;
  let checksum := (header a + stone a + status a + reserved + message_id) mod 256 in
  bytes_of [header a; stone a; status a; reserved; message_id; checksum;
            color_channel a].

(** [Bridge.send_signal(...)]. *)
Definition send_signal (a : signal_args) : M unit :=
  data <- send_signal_frame a ;;
  send_bytes data (resends a) (resend_gap a) (uuid a) (error_event a).

(** The [for i in range(count)] loop of [send_periodic], at iteration
    [i] with [n] iterations to go; [return] ends it. *)
Fixpoint periodic_loop (status color_channel : Z) (gap : Q) (resends : Z)
    (resend_gap : Q) (stone : Z) (stop_on_failure : bool) (error_event : nat)
    (i n : nat) : M unit :=
  match n with
  | O => ret tt
  | S k =>
      failed <- Event_is_set error_event ;;
      if stop_on_failure && failed then ret tt
      else
        (if Qlt_le_dec 0 gap then
           if (0 <? i)%nat then asyncio_sleep gap else ret tt
         else ret tt) ;;
        send_signal
          {| status := status; color_channel := color_channel;
             resends := resends; resend_gap := resend_gap; random_id := false;
             uuid := UUID_WRITE; header := MSG_DEFAULT_HEADER; stone := stone;
             error_event := Some error_event |} ;;
        periodic_loop status color_channel gap resends resend_gap stone
          stop_on_failure error_event (S i) k
  end.

(** [Bridge.send_periodic(status, color_channel, count, gap, resends,
    resend_gap, stone, stop_on_failure)]. *)
Definition send_periodic (status color_channel count : Z) (gap : Q)
    (resends : Z) (resend_gap : Q) (stone : Z) (stop_on_failure : bool) : M unit :=
  error_event <- Event_new ;;
  periodic_loop status color_channel gap resends resend_gap stone
    stop_on_failure error_event 0 (Z.to_nat count).

Definition STATUS_UNLOCK : Z := 200.
Definition STATUS_LOCK : Z := 201.
Definition COLOR_RED : Z := 1.

Definition msg_bridge_mode_on : String.string := "Bridge Mode enabled"%string.
Definition msg_bridge_mode_off : String.string := "Bridge Mode disabled"%string.

(** [Bridge.start_bridge_mode()] and [Bridge.stop_bridge_mode()]. *)
Definition start_bridge_mode : M unit :=
  send_signal (signal_defaults STATUS_LOCK COLOR_RED) ;;
  log_print INFO msg_bridge_mode_on.

Definition stop_bridge_mode : M unit :=
  send_signal (signal_defaults STATUS_UNLOCK COLOR_RED) ;;
  log_print INFO msg_bridge_mode_off.

(** *** Concurrent senders

    Under asyncio a coroutine runs undisturbed from one suspension point
    to the next.  [send_signal] suspends only inside [send_bytes], at
    each [await] of a write and of a sleep; its first stretch, from the
    entry to the first write, holds the whole of [send_signal_frame]. *)
Inductive coroutine : Type :=
| Start (a : signal_args)
| AtWrite (a : signal_args) (data : list Z) (n : nat)
| AtSleep (a : signal_args) (data : list Z) (n : nat)
| Finished (r : result unit).

(** The loop of [send_bytes] with [n] rounds to go. *)
Definition rounds (a : signal_args) (data : list Z) (n : nat) : coroutine :=
  match n with
  | O => Finished (Ok tt)
  | S _ => AtWrite a data n
  end.

(** Run a coroutine up to its next suspension point. *)
Definition resume (c : coroutine) (w : world) : coroutine * world :=
  match c with
  | Start a =>
      match (data <- send_signal_frame a ;; emit (EvSendBytes data) ;; ret data) w with
      | (Ok data, w') => (rounds a data (Z.to_nat (resends a)), w')
      | (Raise x, w') => (Finished (Raise x), w')
      end
  | AtWrite a data n =>
      match client_write_gatt_char (uuid a) data w with
      | (Ok _, w') => (AtSleep a data (Nat.pred n), w')
      | (Raise x, w') =>
          match send_bytes_except (error_event a) x with
          | Some h => let '(r, w'') := h w' in (Finished r, w'')
          | None => (Finished (Raise x), w')
          end
      end
  | AtSleep a data n =>
      match asyncio_sleep (resend_gap a) w with
      | (_, w') => (rounds a data n, w')
      end
  | Finished r => (Finished r, w)
  end.

(** [pool[t] = c], nothing out of range. *)
Fixpoint update (pool : list coroutine) (t : nat) (c : coroutine) : list coroutine :=
  match pool, t with
  | [], _ => []
  | _ :: rest, O => c :: rest
  | c0 :: rest, S t' => c0 :: update rest t' c
  end.

(** The event loop resumes the coroutines in the order [sched] names
    them. *)
Fixpoint run_schedule (sched : list nat) (pool : list coroutine) (w : world)
  : list coroutine * world :=
  match sched with
  | [] => (pool, w)
  | t :: rest =>
      match nth_error pool t with
      | Some c =>
          let '(c', w') := resume c w in
          run_schedule rest (update pool t c') w'
      | None => run_schedule rest pool w
      end
  end.

(** One coroutine resumed [fuel] times in a row. *)
Fixpoint run_alone (fuel : nat) (c : coroutine) (w : world) : coroutine * world :=
  match fuel with
  | O => (c, w)
  | S k => let '(c', w') := resume c w in run_alone k c' w'
  end.

End WithEnv.

Definition started (c : coroutine) : bool :=
  match c with Start _ => false | _ => true end.

Definition count_started (pool : list coroutine) : nat :=
  length (filter started pool).

(** A coroutine not yet started is a non-random call with arguments
    [bytes([...])] accepts. *)
Definition plain_call (c : coroutine) : Prop :=
  match c with
  | Start a =>
      (is_byte (header a) /\ is_byte (stone a) /\ is_byte (status a)
       /\ is_byte (color_channel a))
      /\ random_id a = false
  | _ => True
  end.

(** The frames handed to [send_bytes] in a trace, in order, and their
    message ids. *)
Definition sent_frames (evs : list event) : list (list Z) :=
  flat_map (fun ev => match ev with EvSendBytes d => [d] | _ => [] end) evs.

Definition sent_ids (evs : list event) : list Z :=
  map (fun d => item d 4) (sent_frames evs).

Definition frames_of (w : world) : list (list Z) := sent_frames (trace w).

(** The events of [n] full rounds of the write loop. *)
Definition rounds_trace (uuid : String.string) (data : list Z) (gap : Q)
    (n : nat) : list event :=
  concat (repeat [EvWrite uuid data; EvSleep gap] n).

(** The exceptions the [except] clauses of [send_bytes] take. *)
Definition caught_by_send_bytes (exc : exn) : bool :=
  is_TypeError exc || is_BleakError exc
  || match exc with AttributeError => true | _ => false end.

(** The writes that reached the transport in a trace. *)
Definition writes_of (evs : list event) : list (list Z) :=
  flat_map (fun ev => match ev with EvWrite _ d => [d] | _ => [] end) evs.

(** [m] never changes the part [proj] of the world. *)
Definition preserves {X A} (proj : world -> X) (m : M A) : Prop :=
  forall w, proj (snd (m w)) = proj w.

(** The arguments [bytes([...])] accepts, and the range of
    [random.randrange(0, 255)]. *)
Definition valid_args (a : signal_args) : Prop :=
  is_byte (header a) /\ is_byte (stone a) /\ is_byte (status a)
  /\ is_byte (color_channel a).

Definition randrange_ok (e : env) : Prop :=
  forall n, 0 <= randrange_0_255 e n < 255.

(** The message id [send_signal] puts into its frame. *)
Definition message_id_of (e : env) (a : signal_args) (w : world) : Z :=
  if random_id a then randrange_0_255 e (S (rand_calls w))
  else next_send_id (self w).

Definition frame_of (e : env) (a : signal_args) (w : world) : list Z :=
  let reserved := randrange_0_255 e (rand_calls w) in
  let message_id := message_id_of e a w in
  [header a; stone a; status a; reserved; message_id;
   (header a + stone a + status a + reserved + message_id) mod 256;
   color_channel a].

(** The world behind the first half of [send_signal]. *)
Definition after_frame (a : signal_args) (w : world) : world :=
  with_self (set_next_send_id ((next_send_id (self w) + 1) mod 256) (self w))
    (with_rand_calls (if random_id a then S (S (rand_calls w)) else S (rand_calls w)) w).

Definition world_init (b : Bridge) : world :=
  {| self := b; error_events := []; rand_calls := 0; write_calls := 0;
     trace := [] |}.

End Sender.

(* ================================================================= *)
(** ** Session: [connect], [__disconnect_callback], [__reconnect] *)

Module Session.

(** What the transport answers during one [connect]: the scan (a device,
    or [None]), [client.connect], the MTU request made on Linux, and the
    read of the identity characteristic.  An [await] that is cancelled
    raises CancelledError. *)
Record connect_env : Type := {
  find_device : result (option BLEDevice);
  client_connect : result unit;
  is_linux : bool;
  acquire_mtu : result unit;
  read_gatt_char : result (list Z)
}.

(** [connect] returns True, False or, on one path, nothing. *)
Definition py_bool : Type := option bool.

Definition BRIDGE_NAME : String.string := "GravitraxConnect"%string.
Definition UUID_WRITE : String.string := "0000ff02-0000-1000-8000-00805f9b34fb"%string.
Definition UUID_NOTIF : String.string := "0000ff03-0000-1000-8000-00805f9b34fb"%string.

Definition msg_no_bridge : String.string := "No Bridge found to connect to"%string.
Definition msg_connecting : String.string := "Connecting to"%string.
Definition msg_connect_timeout : String.string := "Failed to connect"%string.
Definition msg_connected : String.string := "Connected to bridge"%string.
Definition msg_info_error : String.string := "Error Requesting Bridge Information: "%string.
Definition msg_versions : String.string := "Firmware Version"%string.
Definition msg_disconnected : String.string := "Bridge disconnected"%string.
Definition msg_dc_failed : String.string :=
  "Disconnect Callback: Failed to call Disconnect Callback"%string.
Definition msg_trying : String.string := "Trying to reconnect"%string.
Definition msg_reconnect_timeout : String.string :=
  "Could not reconnect to Bridge: Reconnect timed out"%string.
Definition msg_reconnected : String.string := "Reconnected to Bridge"%string.
Definition msg_noti_enable_failed : String.string := "Enabling Notifications failed"%string.
Definition msg_noti_enabled : String.string := "Notifications Enabled"%string.

(** [Bridge.is_connected()]. *)
Definition is_connected (self : Bridge) : bool :=
  match client self with
  | Some c => cl_is_connected c
  | None => false                      (* except AttributeError *)
  end.

(** [Bridge.__read_chraceristic]: the bytes read, or [None] after an
    AttributeError or a BleakError; anything else propagates. *)
Definition __read_chraceristic (self : Bridge) (uuid : String.string)
    (read : result (list Z)) : result (option (list Z)) * list event :=
  match client self with
  | None => (Ok None, [EvLog ERROR msg_info_error])
  | Some _ =>
      match read with
      | Ok data => (Ok (Some data), [EvReadChar uuid])
      | Raise x =>
          match x with
          | AttributeError => (Ok None, [EvReadChar uuid; EvLog ERROR msg_info_error])
          | _ =>
              if is_BleakError x
              then (Ok None, [EvReadChar uuid; EvLog ERROR msg_info_error])
              else (Raise x, [EvReadChar uuid])
          end
      end
  end.

(** [Bridge.request_bridge_info()]: the pair of versions, or [None]. *)
Definition request_bridge_info (self : Bridge) (read : result (list Z))
  : result (option (Z * Z)) * Bridge * list event :=
  match __read_chraceristic self UUID_WRITE read with
  | (Raise x, evs) => (Raise x, self, evs)
  | (Ok None, evs) => (Ok None, self, evs)
  | (Ok (Some data), evs) =>
      match data with
      | [] => (Ok None, self, evs)                     (* [not data] *)
      | [_] =>                                         (* data[1]: IndexError *)
          (Ok None, self, evs ++ [EvLog ERROR msg_info_error])
      | [_; fw] =>                                     (* data[2]: IndexError *)
          (Ok None, set_versions (Some fw) (hardware self) self,
           evs ++ [EvLog ERROR msg_info_error])
      | _ :: fw :: hw :: _ =>
          (Ok (Some (fw, hw)), set_versions (Some fw) (Some hw) self,
           evs ++ [EvLog INFO msg_versions])
      end
  end.

(** [Bridge.connect(name_or_addr, by_name, timeout, dc_callback,
    try_reconnect, restart_notifications)]. *)
Definition connect (self : Bridge) (name_or_addr : String.string)
    (by_name : bool) (timeout : Q) (dc_callback : option dc_callable)
    (try_reconnect restart_notifications : bool) (env : connect_env)
  : result py_bool * Bridge * list event :=
  let self := set_reconnect_flags try_reconnect restart_notifications self in
  let self := set_dc_callback dc_callback self in
  let scan := [EvScan by_name name_or_addr timeout] in
  match find_device env with
  | Raise x => (Raise x, self, scan)
  | Ok None => (Ok (Some false), self, scan ++ [EvLog WARNING msg_no_bridge])
  | Ok (Some device) =>
      let self :=
        set_client (Some {| cl_device := device; cl_is_connected := false |}) self in
      let evs := scan ++ [EvNewClient device; EvLog DEBUG msg_connecting;
                          EvClientConnect device timeout] in
      match client_connect env with
      | Raise TimeoutError => (Ok None, self, evs ++ [EvLog WARNING msg_connect_timeout])
      | Raise BleakDeviceNotFoundError => (Ok (Some false), self, evs)
      | Raise CancelledError => (Ok (Some false), self, evs)
      | Raise x => (Raise x, self, evs)
      | Ok _ =>
          let self :=
            set_client (Some {| cl_device := device; cl_is_connected := true |}) self in
          let self := set_user_disconnected false self in
          let self := set_name (Some (dev_name device)) self in
          let self := set_address (Some (dev_address device)) self in
          let mtu := if is_linux env then acquire_mtu env else Ok tt in
          let evs := evs ++ (if is_linux env then [EvAcquireMtu] else []) in
          match mtu with
          | Raise x => (Raise x, self, evs)
          | Ok _ =>
              let evs := evs ++ [EvLog INFO msg_connected] in
              match request_bridge_info self (read_gatt_char env) with
              | (Raise x, self, evs') => (Raise x, self, evs ++ evs')
              | (Ok _, self, evs') => (Ok (Some true), self, evs ++ evs')
              end
          end
      end
  end.

(** Calling [self.dc_callback(self, user_disconnected=..., by_timeout=...)]
    under [if self.dc_callback:] inside [try: ... except TypeError:]. *)
Definition guarded_dc_call (self : Bridge) (user_disconnected by_timeout : bool)
  : result unit * list event :=
  match dc_callback self with
  | None => (Ok tt, [])
  | Some cb =>
      let call := EvDcCallback user_disconnected by_timeout in
      match cb user_disconnected by_timeout with
      | None => (Ok tt, [call])
      | Some x =>
          if is_TypeError x then (Ok tt, [call; EvLog ERROR msg_dc_failed])
          else (Raise x, [call])
      end
  end.

(** [Bridge.__disconnect_callback(client)], called by the transport when
    the link is gone; [address] is [client.address]. *)
Definition __disconnect_callback (self : Bridge) (address : String.string)
  : result unit * list event :=
  let log := [EvLog INFO msg_disconnected] in
  match guarded_dc_call self (user_disconnected self) false with
  | (Raise x, evs) => (Raise x, log ++ evs)
  | (Ok _, evs) =>
      if negb (user_disconnected self) && try_reconnect self
      then (Ok tt, log ++ evs ++ [EvLog INFO msg_trying;
                                  EvCreateTaskReconnect address])
      else (Ok tt, log ++ evs)
  end.

(** [Bridge.notification_enable(callback, uuid)]; [start_notify] is the
    transport's answer. *)
Definition notification_enable (self : Bridge) (callback : noti_callable)
    (uuid : String.string) (start_notify : result unit)
  : result bool * Bridge * list event :=
  match client self with
  | None => (Ok false, self, [EvLog ERROR msg_noti_enable_failed])
  | Some _ =>
      let evs := [EvStartNotify uuid] in
      match start_notify with
      | Ok _ =>
          (Ok true, set_noti_callback (Some callback) self,
           evs ++ [EvLog INFO msg_noti_enabled])
      | Raise x =>
          match x with
          | AttributeError => (Ok false, self, evs ++ [EvLog ERROR msg_noti_enable_failed])
          | _ =>
              if is_BleakError x
              then (Ok false, self, evs ++ [EvLog ERROR msg_noti_enable_failed])
              else (Raise x, self, evs)
          end
      end
  end.

(** [asyncio.wait_for(coroutine, timeout)] seen from its result: a
    coroutine that ends in CancelledError was cancelled at the deadline,
    and TimeoutError is raised in its place; a coroutine that returns or
    raises anything else, were it after swallowing the cancellation,
    passes its outcome on. *)
Definition wait_for {A} (r : result A) : result A :=
  match r with
  | Raise CancelledError => Raise TimeoutError
  | _ => r
  end.

(** [Bridge.__reconnect(address)], the task [__disconnect_callback]
    creates. *)
Definition __reconnect (self : Bridge) (address : String.string)
    (env : connect_env) (start_notify : result unit)
  : result unit * Bridge * list event :=
  let '(r, self, evs) :=
    connect self address false 25 None true true env in
  match wait_for r with
  | Raise TimeoutError =>
      let '(r', evs') := guarded_dc_call self false true in
      (r', self, evs ++ [EvLog WARNING msg_reconnect_timeout] ++ evs')
  | Raise x => (Raise x, self, evs)
  | Ok _ =>
      let evs := evs ++ [EvLog INFO msg_reconnected] in
      match restart_notifications self, noti_callback self with
      | true, Some cb =>
          match notification_enable self cb UUID_NOTIF start_notify with
          | (Raise x, self, evs') => (Raise x, self, evs ++ evs')
          | (Ok _, self, evs') => (Ok tt, self, evs ++ evs')
          end
      | _, _ => (Ok tt, self, evs)
      end
  end.

(** The link is lost: the transport calls [__disconnect_callback], and
    the task it may have created runs. *)
Definition connection_lost (self : Bridge) (address : String.string)
    (env : connect_env) (start_notify : result unit)
  : result unit * Bridge * list event :=
  match __disconnect_callback self address with
  | (Raise x, evs) => (Raise x, self, evs)
  | (Ok _, evs) =>
      if existsb (fun ev => match ev with EvCreateTaskReconnect _ => true | _ => false end) evs
      then
        let '(r, self', evs') := __reconnect self address env start_notify in
        (r, self', evs ++ evs')
      else (Ok tt, self, evs)
  end.

(** A Bridge with a live link, and a transport on which a scan finds a
    device and every request succeeds. *)
Definition linked_bridge : Bridge :=
  set_address (Some "AA:BB"%string)
    (set_name (Some BRIDGE_NAME)
       (set_client
          (Some {| cl_device := {| dev_name := BRIDGE_NAME;
                                   dev_address := "AA:BB" |};
                   cl_is_connected := true |})
          Bridge_init)).

Definition willing_transport : connect_env :=
  {| find_device := Ok (Some {| dev_name := BRIDGE_NAME; dev_address := "AA:BB" |});
     client_connect := Ok tt;
     is_linux := false;
     acquire_mtu := Ok tt;
     read_gatt_char := Ok [0; 3; 1] |}.

(** A transport on which the scan is still running when the deadline of
    the reconnect passes, and one on which the device is reported gone
    at once. *)
Definition scan_outlasts_deadline : connect_env :=
  {| find_device := Raise CancelledError;
     client_connect := Ok tt;
     is_linux := false;
     acquire_mtu := Ok tt;
     read_gatt_char := Ok [0; 3; 1] |}.

Definition device_gone : connect_env :=
  {| find_device := Ok (Some {| dev_name := BRIDGE_NAME; dev_address := "AA:BB" |});
     client_connect := Raise BleakDeviceNotFoundError;
     is_linux := false;
     acquire_mtu := Ok tt;
     read_gatt_char := Ok [0; 3; 1] |}.

(** A linked Bridge as [connect(dc_callback=cb, try_reconnect=True)]
    leaves it. *)
Definition watched_bridge (cb : dc_callable) : Bridge :=
  set_reconnect_flags true true (set_dc_callback (Some cb) linked_bridge).

Definition msg_no_client : String.string :=
  "BleakClient Object was not initialized. Please connect to a bridge first."%string.
Definition msg_disconnecting : String.string := "Disconnecting"%string.
Definition msg_disconnect_slow : String.string := "Disconnect is taking longer"%string.
Definition msg_noti_disable_failed : String.string := "Disabling Notifications failed"%string.
Definition msg_noti_disabled : String.string := "Notifications disabled"%string.

(** [Bridge.disconnect(timeout, dc_callback_on_timeout, _user)].
    [close] is how [wait_for(shield(client.disconnect()), timeout)] ends:
    it returns, raises TimeoutError at the deadline, or raises what
    [client.disconnect] raised.  A close that returns has taken the link
    down, so the client's [is_connected] is False from then on; a close
    that has not completed leaves the client as it was last seen.  The
    request itself leaves no event. *)
Definition disconnect (self : Bridge) (timeout : Q)
    (dc_callback_on_timeout _user : bool) (close : result unit)
  : result bool * Bridge * list event :=
  match client self with
  | None =>
      let log := [EvLog ERROR msg_no_client] in
      match guarded_dc_call self true false with
      | (Raise x, evs) => (Raise x, self, log ++ evs)
      | (Ok _, evs) => (Ok false, self, log ++ evs)
      end
  | Some c =>
      let self := if _user then set_user_disconnected true self else self in
      let log := [EvLog DEBUG msg_disconnecting] in
      match close with
      | Ok _ =>
          (Ok true,
           set_client (Some {| cl_device := cl_device c; cl_is_connected := false |})
             self,
           log)
      | Raise TimeoutError =>
          let log := log ++ [EvLog WARNING msg_disconnect_slow] in
          if dc_callback_on_timeout then
            match guarded_dc_call self true true with
            | (Raise x, evs) => (Raise x, self, log ++ evs)
            | (Ok _, evs) => (Ok false, self, log ++ evs)
            end
          else (Ok false, self, log)
      | Raise x => (Raise x, self, log)
      end
  end.

(** [Bridge.notification_disable(uuid)]; [stop_notify] is the
    transport's answer. *)
Definition notification_disable (self : Bridge) (uuid : String.string)
    (stop_notify : result unit)
  : result bool * Bridge * list event :=
  match client self with
  | None => (Ok false, self, [EvLog ERROR msg_noti_disable_failed])
  | Some _ =>
      match stop_notify with
      | Ok _ => (Ok true, self, [EvLog INFO msg_noti_disabled])
      | Raise x =>
          match x with
          | AttributeError => (Ok false, self, [EvLog ERROR msg_noti_disable_failed])
          | _ =>
              if is_BleakError x
              then (Ok false, self, [EvLog ERROR msg_noti_disable_failed])
              else (Raise x, self, [])
          end
      end
  end.

(** [Bridge.get_address()] and [Bridge.get_name()]. *)
Definition get_address (self : Bridge) : option String.string := address self.
Definition get_name (self : Bridge) : option String.string := name self.

(** Whether a trace holds the creation of the reconnect task. *)
Definition reconnect_scheduled (evs : list event) : bool :=
  existsb (fun ev => match ev with EvCreateTaskReconnect _ => true | _ => false end) evs.

(** The disconnect callbacks of a trace, as (user_disconnected,
    by_timeout), in order. *)
Definition dc_calls (evs : list event) : list (bool * bool) :=
  flat_map (fun ev => match ev with EvDcCallback u t => [(u, t)] | _ => [] end) evs.

(** The connection attempts of a trace. *)
Definition connect_attempts (evs : list event) : nat :=
  length (filter (fun ev => match ev with EvClientConnect _ _ => true | _ => false end) evs).

End Session.

(* ================================================================= *)
(** ** [scan_bridges] *)

Module Scan.

(** What the scanner reports of one advertisement: [device.name] (which
    may be [None]), [device.address] and
    [advertisement_data.local_name]. *)
Record detection : Type := {
  det_name : option String.string;
  det_address : String.string;
  det_local_name : option String.string
}.

Definition name_eqb (n : option String.string) (name : String.string) : bool :=
  match n with
  | Some s => String.eqb s name
  | None => false
  end.

Definition address_in (a : String.string) (l : list String.string) : bool :=
  if in_dec String.string_dec a l then true else false.

(** [discover_callback(device, advertisement_data)]: the address list
    after the call and what is printed.  Its return value goes to the
    scanner, which ignores it. *)
Definition discover_callback (name : String.string) (do_print : bool)
    (address_list : list String.string) (d : detection)
  : list String.string * list event :=
  if (name_eqb (det_name d) name || String.eqb name "")
     && negb (address_in (det_address d) address_list)
  then (address_list ++ [det_address d],
        if do_print
        then [EvLog INFO
                (match det_local_name d with Some n => n | None => "None" end
                 ++ ":" ++ det_address d)%string]
        else [])
  else (address_list, []).

(** The scanner calls the callback once per detection, in order. *)
Fixpoint detections_loop (name : String.string) (do_print : bool)
    (address_list : list String.string) (seen : list detection)
  : list String.string * list event :=
  match seen with
  | [] => (address_list, [])
  | d :: rest =>
      let '(l, evs) := discover_callback name do_print address_list d in
      let '(l', evs') := detections_loop name do_print l rest in
      (l', evs ++ evs')
  end.

(** [scan_bridges(name, timeout, do_print, stop_on_hit)] on a scan
    during which the detections [seen] come in: the scan runs for the
    whole timeout whatever [stop_on_hit] says. *)
Definition scan_bridges (name : String.string) (do_print stop_on_hit : bool)
    (seen : list detection) : list String.string * list event :=
  detections_loop name do_print [] seen.

End Scan.

(* ================================================================= *)
(** ** The specification's own reading of the inbound path *)

Module Spec.

(** Frame extraction in the specification's words: scanning the raw
    bytes left to right, a byte 19 with six more bytes after it starts a
    candidate frame of seven bytes, and the scan resumes behind that
    frame; any other byte is passed over.  [skip] bytes still belong to
    the last frame. *)
Fixpoint scan_frames_from (skip : nat) (rawBytes : list Z) : list (list Z) :=
  match rawBytes with
  | [] => []
  | b :: rest =>
      match skip with
      | S k => scan_frames_from k rest
      | O =>
          if (b =? 19) && (7 <=? length rawBytes)%nat
          then firstn 7 rawBytes :: scan_frames_from 6 rest
          else scan_frames_from 0 rest
      end
  end.

Definition scan_frames (rawBytes : list Z) : list (list Z) :=
  scan_frames_from 0 rawBytes.

(** The Duplicate Filter run over a sequence of frames: the answers of
    [accept], in order, and the window at the end. *)
Fixpoint feed (window : list str) (frames : list str) : list bool * list str :=
  match frames with
  | [] => ([], window)
  | f :: rest =>
      match Handler.accept window f with
      | None => let '(answers, w) := feed window rest in (false :: answers, w)
      | Some window' => let '(answers, w) := feed window' rest in (true :: answers, w)
      end
  end.

(** The frames to which the filter answered true. *)
Definition passed {A} (answers : list bool) (frames : list A) : list A :=
  map snd (filter fst (combine answers frames)).

(** A contiguous range of message ids modulo 256: [n] ids from [c] on. *)
Definition id_range (c : Z) (n : nat) : list Z :=
  map (fun i => (c + Z.of_nat i) mod 256) (seq 0 n).

End Spec.

(* ================================================================= *)
(** * Properties *)

Section ChecksumFacts.
Import Codec.

Lemma is_byteb_spec x : is_byteb x = true <-> is_byte x.
Proof. unfold is_byteb, is_byte. rewrite andb_true_iff, Z.leb_le, Z.ltb_lt. tauto. Qed.

Lemma length7_inv (data : list Z) :
  length data = 7%nat ->
  exists a b c d e f g, data = [a; b; c; d; e; f; g].
Proof.
  intros H.
  do 7 (destruct data as [|? data]; [discriminate H|]).
  destruct data; [|discriminate H].
  repeat eexists.
Qed.

(** C1. For every 7-byte frame the outbound checksum is
    (header + stoneType + status + reserved + messageId) mod 256 and the
    inbound checksum is that value plus (color - 1), again mod 256; the
    fields (19,5,0,0,0), (19,5,10,10,10), (255,255,255,255,3) and
    (255,255,255,255,4) give 24, 54, 255 and 0, whatever stands in the
    checksum byte. *)
Theorem calc_checksum_formulas (data : list Z) :
  length data = 7%nat ->
  let header := item data 0 in
  let stoneType := item data 1 in
  let status := item data 2 in
  let reserved := item data 3 in
  let messageId := item data 4 in
  let color := item data 6 in
  let outbound := (header + stoneType + status + reserved + messageId) mod 256 in
  calc_checksum data false = Some outbound
  /\ calc_checksum data true = Some ((outbound + (color - 1)) mod 256)
  /\ (forall k color,
        calc_checksum [19; 5; 0; 0; 0; k; color] false = Some 24
        /\ calc_checksum [19; 5; 10; 10; 10; k; color] false = Some 54
        /\ calc_checksum [255; 255; 255; 255; 3; k; color] false = Some 255
        /\ calc_checksum [255; 255; 255; 255; 4; k; color] false = Some 0).
Proof.
  intros Hlen.
  destruct (length7_inv data Hlen) as (a & b & c & d & e & f & g & ->).
  cbn -[Z.modulo Z.add Z.sub].
  repeat split.
  do 2 f_equal. lia.
Qed.

(** The first recorded frame of the library's checksum test, colour 1:
    outbound and inbound checksum are both 24. *)
Lemma calc_checksum_formulas_witness :
  calc_checksum [19; 5; 0; 0; 0; 0; 1] false = Some 24
  /\ calc_checksum [19; 5; 0; 0; 0; 0; 1] true = Some 24.
Proof.
  pose proof (calc_checksum_formulas [19; 5; 0; 0; 0; 0; 1] eq_refl) as H.
  cbv zeta in H.
  destruct H as (Hout & Hin & _).
  split; [exact Hout | exact Hin].
Defined.

End ChecksumFacts.

(* ----------------------------------------------------------------- *)
(** ** The hex dump and the regular expression *)

Section HexDump.
Import Codec Handler.

(** A boolean fact checked on the 256 byte values holds of every byte. *)
Lemma byte_cases (P : Z -> bool) :
  forallb P (map Z.of_nat (seq 0 256)) = true ->
  forall x, is_byte x -> P x = true.
Proof.
  intros Hall x [Hlo Hhi].
  rewrite forallb_forall in Hall. apply Hall.
  apply in_map_iff. exists (Z.to_nat x). split.
  - apply Z2Nat.id; exact Hlo.
  - apply in_seq. lia.
Qed.

Lemma format_02x_hex x :
  is_byte x ->
  is_hex (hex_digit (x / 16)) = true /\ is_hex (hex_digit (x mod 16)) = true.
Proof.
  intros Hx. apply andb_true_iff.
  revert x Hx.
  apply (byte_cases (fun x => is_hex (hex_digit (x / 16)) && is_hex (hex_digit (x mod 16)))).
  vm_compute. reflexivity.
Qed.

Lemma format_02x_header x :
  is_byte x ->
  Ascii.eqb (hex_digit (x / 16)) "1" && Ascii.eqb (hex_digit (x mod 16)) "3"
  = (x =? 19).
Proof.
  intros Hx. apply eqb_true_iff.
  revert x Hx.
  apply (byte_cases (fun x =>
    Bool.eqb (Ascii.eqb (hex_digit (x / 16)) "1" && Ascii.eqb (hex_digit (x mod 16)) "3")
             (x =? 19))).
  vm_compute. reflexivity.
Qed.

Lemma int16_format_02x x : is_byte x -> int16 (format_02x x) = Some x.
Proof.
  intros Hx.
  assert (H : match int16 (format_02x x) with Some y => y =? x | None => false end = true).
  { revert x Hx.
    apply (byte_cases (fun x =>
      match int16 (format_02x x) with Some y => y =? x | None => false end)).
    vm_compute. reflexivity. }
  destruct (int16 (format_02x x)) as [y|]; [|discriminate H].
  apply Z.eqb_eq in H. subst y. reflexivity.
Qed.

Lemma hex_message_cons b rest :
  hex_message (b :: rest) = format_02x b ++ spaced rest.
Proof.
  unfold hex_message. revert b.
  induction rest as [|c rest IH]; intros b.
  - simpl. reflexivity.
  - change (map format_02x (b :: c :: rest))
      with (format_02x b :: map format_02x (c :: rest)).
    change (join [" "%char] (format_02x b :: map format_02x (c :: rest)))
      with (format_02x b ++ [" "%char] ++ join [" "%char] (map format_02x (c :: rest))).
    rewrite IH. reflexivity.
Qed.

Lemma spaced_length data : length (spaced data) = (3 * length data)%nat.
Proof. induction data as [|b data IH]; simpl; [reflexivity | rewrite IH; lia]. Qed.

Lemma hex_message_length b rest :
  length (hex_message (b :: rest)) = (2 + 3 * length rest)%nat.
Proof. rewrite hex_message_cons. simpl. rewrite spaced_length. reflexivity. Qed.

Lemma match_groups_spaced n : forall data,
  Forall is_byte data ->
  match_groups n (spaced data)
  = if (n <=? length data)%nat
    then Some (spaced (firstn n data), spaced (skipn n data))
    else None.
Proof.
  induction n as [|n IH]; intros data Hb.
  - reflexivity.
  - destruct data as [|b data].
    + reflexivity.
    + inversion Hb as [|? ? Hx Hrest]; subst.
      destruct (format_02x_hex b Hx) as [Hh Hl].
      change (spaced (b :: data))
        with (" "%char :: hex_digit (b / 16) :: hex_digit (b mod 16) :: spaced data).
      cbn [match_groups].
      rewrite Hh, Hl.
      change (is_space " ") with true. cbn [andb].
      rewrite (IH data Hrest).
      change (S n <=? length (b :: data))%nat with (n <=? length data)%nat.
      destruct (n <=? length data)%nat; reflexivity.
Qed.

(** At a byte boundary the pattern matches exactly on a byte 19 that
    has six bytes after it, and the text matched is the dump of those
    seven bytes. *)
Lemma re_match_aligned b rest :
  Forall is_byte (b :: rest) ->
  re_match (format_02x b ++ spaced rest)
  = if (b =? 19) && (6 <=? length rest)%nat
    then Some (hex_message (b :: firstn 6 rest))
    else None.
Proof.
  intros Hb. inversion Hb as [|? ? Hx Hrest]; subst.
  unfold re_match, format_02x. cbn [app].
  rewrite (format_02x_header b Hx).
  destruct (b =? 19); [|reflexivity].
  rewrite (match_groups_spaced 6 rest Hrest).
  cbn [andb].
  destruct (6 <=? length rest)%nat; [|reflexivity].
  rewrite hex_message_cons. reflexivity.
Qed.

(** Inside a byte, and on a separator, the pattern does not match. *)
Lemma re_match_second_digit c data : re_match (c :: spaced data) = None.
Proof.
  destruct data as [|b data]; [reflexivity|].
  change (spaced (b :: data))
    with (" "%char :: hex_digit (b / 16) :: hex_digit (b mod 16) :: spaced data).
  unfold re_match.
  change (Ascii.eqb " " "3") with false.
  rewrite andb_false_r. reflexivity.
Qed.

Lemma re_match_separator s : re_match (" "%char :: s) = None.
Proof. destruct s; reflexivity. Qed.

End HexDump.

(* ----------------------------------------------------------------- *)
(** ** Frame extraction refines the byte-level scan *)

Section Extraction.
Import Codec Handler Spec.

(** One step of the scan at a byte boundary, given the scan of the
    bytes behind it. *)
Lemma finditer_aligned_step b rest :
  Forall is_byte (b :: rest) ->
  (forall k, finditer_from (3 * k) (spaced rest)
             = map hex_message (scan_frames_from k rest)) ->
  finditer_from 0 (format_02x b ++ spaced rest)
  = map hex_message (scan_frames_from 0 (b :: rest)).
Proof.
  intros Hb IH.
  pose proof (re_match_aligned b rest Hb) as Hm.
  change (format_02x b ++ spaced rest)
    with (hex_digit (b / 16) :: hex_digit (b mod 16) :: spaced rest) in *.
  cbn [finditer_from scan_frames_from].
  rewrite Hm.
  change (7 <=? length (b :: rest))%nat with (6 <=? length rest)%nat.
  destruct ((b =? 19) && (6 <=? length rest)%nat) eqn:Hhit.
  - rewrite hex_message_length.
    apply andb_true_iff in Hhit. destruct Hhit as [_ Hlen].
    apply Nat.leb_le in Hlen.
    rewrite firstn_length_le by exact Hlen.
    change (2 + 3 * 6 - 1)%nat with (S (3 * 6)).
    cbv iota beta.
    rewrite (IH 6%nat).
    reflexivity.
  - rewrite re_match_second_digit.
    apply (IH 0%nat).
Qed.

Lemma finditer_spaced data :
  Forall is_byte data ->
  forall k, finditer_from (3 * k) (spaced data)
            = map hex_message (scan_frames_from k data).
Proof.
  induction data as [|b data IH]; intros Hb k.
  - reflexivity.
  - inversion Hb as [|? ? Hx Hrest]; subst.
    specialize (IH Hrest).
    change (spaced (b :: data))
      with (" "%char :: (format_02x b ++ spaced data)).
    destruct k as [|k].
    + change (3 * 0)%nat with 0%nat.
      cbn [finditer_from].
      rewrite re_match_separator.
      apply finditer_aligned_step; assumption.
    + replace (3 * S k)%nat with (S (S (S (3 * k)))) by lia.
      change (format_02x b ++ spaced data)
        with (hex_digit (b / 16) :: hex_digit (b mod 16) :: spaced data).
      cbn [finditer_from scan_frames_from].
      apply IH.
Qed.

Lemma finditer_hex_message data :
  Forall is_byte data ->
  finditer (hex_message data) = map hex_message (scan_frames data).
Proof.
  intros Hb. unfold finditer, scan_frames.
  destruct data as [|b rest].
  - reflexivity.
  - rewrite hex_message_cons.
    apply finditer_aligned_step; [exact Hb|].
    apply finditer_spaced. inversion Hb; assumption.
Qed.

End Extraction.

(* ----------------------------------------------------------------- *)
(** ** Decoding a dumped frame, and the dump is injective *)

Section Decoding.
Import Codec Handler Spec.

Lemma decode_hex_message frame :
  length frame = 7%nat -> Forall is_byte frame ->
  decode (hex_message frame) = Some frame.
Proof.
  intros Hlen Hb.
  destruct (length7_inv frame Hlen) as (a & b & c & d & e & f & g & ->).
  repeat match goal with
         | H : Forall _ (_ :: _) |- _ => inversion H; clear H; subst
         end.
  assert (Hint : forall x, is_byte x ->
            int16 [hex_digit (x / 16); hex_digit (x mod 16)] = Some x)
    by exact int16_format_02x.
  unfold hex_message, format_02x. cbn [map join app].
  unfold decode, slice. cbn [firstn skipn Nat.sub].
  rewrite !Hint by assumption.
  reflexivity.
Qed.

Lemma format_02x_inj x y :
  is_byte x -> is_byte y -> format_02x x = format_02x y -> x = y.
Proof.
  intros Hx Hy Heq.
  pose proof (int16_format_02x x Hx) as Ex.
  rewrite Heq, (int16_format_02x y Hy) in Ex.
  congruence.
Qed.

Lemma spaced_inj a : forall b,
  Forall is_byte a -> Forall is_byte b -> spaced a = spaced b -> a = b.
Proof.
  induction a as [|x a IH]; intros [|y b] Ha Hb Heq;
    try reflexivity; try discriminate Heq.
  inversion Ha; inversion Hb; subst.
  change (spaced (x :: a)) with (" "%char :: (format_02x x ++ spaced a)) in Heq.
  change (spaced (y :: b)) with (" "%char :: (format_02x y ++ spaced b)) in Heq.
  unfold format_02x in Heq. cbn [app] in Heq.
  injection Heq as Hh Hl Hrest.
  f_equal.
  - apply format_02x_inj; [assumption..|]. unfold format_02x. congruence.
  - apply IH; assumption.
Qed.

Lemma hex_message_inj a b :
  Forall is_byte a -> Forall is_byte b -> hex_message a = hex_message b -> a = b.
Proof.
  intros Ha Hb Heq.
  destruct a as [|x a], b as [|y b]; try reflexivity.
  - rewrite hex_message_cons in Heq. discriminate Heq.
  - rewrite hex_message_cons in Heq. discriminate Heq.
  - rewrite !hex_message_cons in Heq.
    inversion Ha; inversion Hb; subst.
    unfold format_02x in Heq. cbn [app] in Heq.
    injection Heq as Hh Hl Hrest.
    f_equal.
    + apply format_02x_inj; [assumption..|]. unfold format_02x. congruence.
    + apply spaced_inj; assumption.
Qed.

Lemma In_hex_message frame window :
  Forall is_byte frame -> Forall (Forall is_byte) window ->
  In (hex_message frame) (map hex_message window) <-> In frame window.
Proof.
  intros Hf Hw. split.
  - intros Hin. apply in_map_iff in Hin. destruct Hin as (g & Heq & Hg).
    rewrite Forall_forall in Hw.
    rewrite (hex_message_inj frame g Hf (Hw g Hg) (eq_sym Heq)). exact Hg.
  - apply in_map.
Qed.

Lemma In_firstn {A} (x : A) n : forall l, In x (firstn n l) -> In x l.
Proof.
  induction n as [|n IH]; intros [|y l] Hin; try contradiction.
  destruct Hin as [-> | Hin]; [left; reflexivity | right; apply IH, Hin].
Qed.

(** Every extracted frame has seven bytes, starts with 19 and is cut
    from the payload. *)
Lemma scan_frames_from_shape data : forall k f,
  In f (scan_frames_from k data) ->
  length f = 7%nat /\ item f 0 = 19 /\ incl f data.
Proof.
  induction data as [|b data IH]; intros k f Hin.
  - contradiction.
  - assert (Hrest : forall j, In f (scan_frames_from j data) ->
                    length f = 7%nat /\ item f 0 = 19 /\ incl f (b :: data)).
    { intros j Hj. destruct (IH j f Hj) as (H1 & H2 & H3).
      repeat split; try assumption. apply incl_tl. exact H3. }
    destruct k as [|k]; cbn [scan_frames_from] in Hin.
    + destruct ((b =? 19) && (7 <=? length (b :: data))%nat) eqn:Hhit.
      * destruct Hin as [<- | Hin]; [|exact (Hrest _ Hin)].
        apply andb_true_iff in Hhit. destruct Hhit as [H19 Hlen].
        apply Z.eqb_eq in H19. apply Nat.leb_le in Hlen.
        repeat split.
        -- apply firstn_length_le. exact Hlen.
        -- subst b. reflexivity.
        -- intros x Hx. exact (In_firstn x 7 _ Hx).
      * exact (Hrest _ Hin).
    + exact (Hrest _ Hin).
Qed.

Lemma scan_frames_shape data f :
  Forall is_byte data -> In f (scan_frames data) ->
  length f = 7%nat /\ item f 0 = 19 /\ Forall is_byte f.
Proof.
  intros Hb Hin.
  destruct (scan_frames_from_shape data 0 f Hin) as (H1 & H2 & H3).
  repeat split; try assumption.
  rewrite Forall_forall in *. intros x Hx. apply Hb, H3, Hx.
Qed.

End Decoding.

(* ----------------------------------------------------------------- *)
(** ** Frame extraction and the unstructured notification *)

Section ExtractionClaim.
Import Codec Handler Spec.

(** C5. On every raw payload the handler's extraction (hex dump, regular
    expression, decoding) yields exactly the frames of the left-to-right,
    non-overlapping scan for seven bytes starting with 19; and when the
    scan finds none, the registered callback is called exactly once, all
    protocol fields None and the raw bytes in Data, the Bridge left as it
    was. *)
Theorem extraction_matches_scan (self : Bridge) (data : list Z) :
  Forall is_byte data ->
  finditer (hex_message data) = map hex_message (scan_frames data)
  /\ map decode (finditer (hex_message data)) = map Some (scan_frames data)
  /\ Forall (fun f => length f = 7%nat /\ item f 0 = 19) (scan_frames data)
  /\ (scan_frames data = [] ->
      forall cb, noti_callback self = Some cb ->
      exists r,
        __notification_handler self data
        = (r, self,
           [EvNotiCallback
              {| Header := None; Stone := None; Status := None;
                 Reserved := None; Id := None; Checksum := None;
                 Color := None; Data := data |}])).
Proof.
  intros Hb.
  pose proof (finditer_hex_message data Hb) as Hfind.
  repeat split.
  - exact Hfind.
  - rewrite Hfind, map_map. apply map_ext_in.
    intros f Hf. destruct (scan_frames_shape data f Hb Hf) as (Hlen & _ & Hbf).
    apply decode_hex_message; assumption.
  - apply Forall_forall. intros f Hf.
    destruct (scan_frames_shape data f Hb Hf) as (Hlen & Hhd & _).
    split; assumption.
  - intros Hnone cb Hcb.
    unfold __notification_handler.
    rewrite Hfind, Hnone, Hcb. cbn [map length Nat.eqb call_noti].
    unfold unstructured.
    destruct (cb _) as [e|]; eexists; reflexivity.
Qed.

(** A payload too short to hold a frame. *)
Lemma extraction_matches_scan_witness :
  exists r,
    __notification_handler
      (set_noti_callback (Some (fun _ => None)) Bridge_init) [19; 5; 0; 0]
    = (r, set_noti_callback (Some (fun _ => None)) Bridge_init,
       [EvNotiCallback (unstructured [19; 5; 0; 0])]).
Proof.
  assert (Hb : Forall is_byte [19; 5; 0; 0]).
  { repeat constructor; unfold is_byte; lia. }
  destruct (extraction_matches_scan
              (set_noti_callback (Some (fun _ => None)) Bridge_init)
              [19; 5; 0; 0] Hb) as (_ & _ & _ & H).
  exact (H eq_refl (fun _ => None) eq_refl).
Defined.

End ExtractionClaim.

(* ----------------------------------------------------------------- *)
(** ** The duplicate window *)

Section DuplicateWindow.
Import Codec Handler Spec.

(** The eviction loop keeps the last twelve entries. *)
Lemma pop_while_over_12_skipn w :
  pop_while_over_12 w = skipn (length w - 12) w.
Proof.
  induction w as [|x w IH].
  - reflexivity.
  - cbn [pop_while_over_12].
    destruct (12 <? length (x :: w))%nat eqn:Hlen.
    + apply Nat.ltb_lt in Hlen. cbn [length] in *.
      replace (S (length w) - 12)%nat with (S (length w - 12)) by lia.
      exact IH.
    + apply Nat.ltb_ge in Hlen.
      replace (length (x :: w) - 12)%nat with 0%nat by lia.
      reflexivity.
Qed.

Lemma pop_while_over_12_length w : (length (pop_while_over_12 w) <= 12)%nat.
Proof. rewrite pop_while_over_12_skipn, length_skipn. lia. Qed.

Lemma In_skipn {A} (x : A) n : forall l, In x (skipn n l) -> In x l.
Proof.
  induction n as [|n IH]; intros [|y l] Hin; try assumption.
  right. apply IH, Hin.
Qed.

Lemma accept_held window s : In s window -> accept window s = None.
Proof.
  intros Hin. unfold accept.
  destruct (in_dec str_eq_dec s window); [reflexivity | contradiction].
Qed.

Lemma accept_new window s :
  ~ In s window ->
  accept window s = Some (skipn (length (window ++ [s]) - 12) (window ++ [s])).
Proof.
  intros Hnin. unfold accept.
  destruct (in_dec str_eq_dec s window); [contradiction|].
  rewrite pop_while_over_12_skipn. reflexivity.
Qed.

(** Frames never seen before all pass, and the window ends as the last
    twelve of everything it was offered. *)
Lemma feed_distinct frames : forall window,
  (length window <= 12)%nat ->
  NoDup frames ->
  (forall f, In f frames -> ~ In f window) ->
  feed window frames
  = (repeat true (length frames),
     skipn (length (window ++ frames) - 12) (window ++ frames)).
Proof.
  induction frames as [|f frames IH]; intros window Hcap Hnd Hnew.
  - cbn [feed repeat length]. rewrite app_nil_r.
    replace (length window - 12)%nat with 0%nat by lia.
    reflexivity.
  - inversion Hnd as [|? ? Hf Hnd']; subst.
    cbn [feed].
    rewrite accept_new by (apply Hnew; left; reflexivity).
    set (d := (length (window ++ [f]) - 12)%nat).
    assert (Hd : (d <= length (window ++ [f]))%nat) by (unfold d; lia).
    rewrite IH; try assumption.
    + cbn [length repeat]. f_equal.
      replace (window ++ f :: frames) with ((window ++ [f]) ++ frames)
        by (rewrite <- app_assoc; reflexivity).
      replace (skipn d (window ++ [f]) ++ frames)
        with (skipn d ((window ++ [f]) ++ frames)).
      * rewrite skipn_skipn. f_equal.
        rewrite length_skipn, !length_app in *. cbn [length] in *.
        unfold d. rewrite length_app. cbn [length]. lia.
      * rewrite skipn_app.
        replace (d - length (window ++ [f]))%nat with 0%nat by lia.
        reflexivity.
    + rewrite length_skipn. unfold d. lia.
    + intros g Hg Hin. apply In_skipn in Hin.
      apply in_app_or in Hin. destruct Hin as [Hin | [-> | []]].
      * apply (Hnew g); [right; exact Hg | exact Hin].
      * contradiction.
Qed.

Lemma NoDup_hex_message frames :
  Forall (Forall is_byte) frames -> NoDup frames ->
  NoDup (map hex_message frames).
Proof.
  induction frames as [|f frames IH]; intros Hb Hnd.
  - constructor.
  - inversion Hb; inversion Hnd; subst.
    cbn [map]. constructor.
    + rewrite In_hex_message by assumption. assumption.
    + apply IH; assumption.
Qed.

(** Thirteen copies of one frame: the first passes, the rest are held. *)
Lemma feed_identical s :
  feed [] (repeat s 13) = (true :: repeat false 12, [s]).
Proof.
  assert (Hfirst : accept [] s = Some [s]).
  { rewrite accept_new by (intros []). reflexivity. }
  assert (Hheld : accept [s] s = None).
  { apply accept_held. left. reflexivity. }
  cbn [repeat feed]. rewrite Hfirst, !Hheld. reflexivity.
Qed.

End DuplicateWindow.

Section DuplicateFilterClaim.
Import Codec Handler Spec.

Lemma scan_frames_single frame :
  length frame = 7%nat -> item frame 0 = 19 -> scan_frames frame = [frame].
Proof.
  intros Hlen Hhd.
  destruct (length7_inv frame Hlen) as (a & b & c & d & e & f & g & ->).
  cbn in Hhd. subst a. reflexivity.
Qed.

Lemma noti_calls_app evs1 evs2 :
  noti_calls (evs1 ++ evs2) = noti_calls evs1 ++ noti_calls evs2.
Proof. unfold noti_calls. apply flat_map_app. Qed.

(** A notification that is exactly one frame: what the handler does with
    it is decided by the window alone. *)
Lemma handler_single_frame self cb frame :
  noti_callback self = Some cb ->
  Forall is_byte frame -> length frame = 7%nat -> item frame 0 = 19 ->
  exists r self' evs,
    __notification_handler self frame = (r, self', evs)
    /\ match accept (last_notifications self) (hex_message frame) with
       | None =>
           noti_calls evs = []
           /\ last_notifications self' = last_notifications self
       | Some w =>
           noti_calls evs = [structured frame frame]
           /\ last_notifications self' = w
       end.
Proof.
  intros Hcb Hb Hlen Hhd.
  unfold __notification_handler.
  rewrite (finditer_hex_message frame Hb), (scan_frames_single frame Hlen Hhd), Hcb.
  cbn [map length Nat.eqb signal_loop].
  destruct (accept (last_notifications self) (hex_message frame)) as [w|].
  - rewrite (decode_hex_message frame Hlen Hb).
    cbn [call_noti].
    assert (Hlog : forall l : list event,
      noti_calls ((if checksum_differs frame then [EvLog DEBUG msg_checksum] else []) ++ l)
      = noti_calls l).
    { intros l. destruct (checksum_differs frame); reflexivity. }
    destruct (cb (structured frame frame)) as [e|].
    + destruct (is_TypeError e); do 3 eexists; (split; [reflexivity|]);
        rewrite Hlog; split; reflexivity.
    + do 3 eexists. split; [reflexivity|].
      rewrite Hlog. split; reflexivity.
  - do 3 eexists. split; [reflexivity|]. split; reflexivity.
Qed.

(** C2. A frame passes the duplicate filter exactly when no entry of the
    window equals it byte for byte; a frame that passes is handed to the
    callback and appended, a frame that is held is neither; the window
    keeps at most twelve entries, the oldest leaving first; of thirteen
    identical frames only the first passes; thirteen distinct frames all
    pass and the last twelve remain. *)
Theorem duplicate_filter (window : list (list Z)) (frame : list Z) :
  Forall (Forall is_byte) window ->
  Forall is_byte frame ->
  let held := map hex_message window in
  let last12 (l : list (list Z)) := skipn (length l - 12) l in
  (accept held (hex_message frame) = None <-> In frame window)
  /\ (~ In frame window ->
      accept held (hex_message frame)
      = Some (map hex_message (last12 (window ++ [frame]))))
  /\ (forall w, accept held (hex_message frame) = Some w -> (length w <= 12)%nat)
  /\ (forall self cb,
      noti_callback self = Some cb ->
      last_notifications self = held ->
      length frame = 7%nat -> item frame 0 = 19 ->
      exists r self' evs,
        __notification_handler self frame = (r, self', evs)
        /\ (In frame window ->
            noti_calls evs = [] /\ last_notifications self' = held)
        /\ (~ In frame window ->
            noti_calls evs = [structured frame frame]
            /\ last_notifications self'
               = map hex_message (last12 (window ++ [frame]))))
  /\ feed [] (repeat (hex_message frame) 13)
     = (true :: repeat false 12, [hex_message frame])
  /\ (forall frames,
      Forall (Forall is_byte) frames -> NoDup frames -> length frames = 13%nat ->
      feed [] (map hex_message frames)
      = (repeat true 13, map hex_message (skipn 1 frames))).
Proof.
  intros Hw Hf held last12.
  assert (Hnew : ~ In frame window ->
    accept held (hex_message frame)
    = Some (map hex_message (last12 (window ++ [frame])))).
  { intros Hnin. unfold held, last12.
    rewrite accept_new by (rewrite In_hex_message; assumption).
    rewrite <- skipn_map, map_app, !length_app, !length_map. reflexivity. }
  assert (Hheld : In frame window -> accept held (hex_message frame) = None).
  { intros Hin. apply accept_held. apply in_map. exact Hin. }
  split; [|split; [|split; [|split; [|split]]]].
  - split; [|exact Hheld].
    intros Hnone.
    destruct (in_dec (list_eq_dec Z.eq_dec) frame window) as [Hin|Hnin];
      [exact Hin|].
    rewrite (Hnew Hnin) in Hnone. discriminate Hnone.
  - exact Hnew.
  - intros w Hacc. unfold accept in Hacc.
    destruct (in_dec str_eq_dec (hex_message frame) held); [discriminate Hacc|].
    injection Hacc as <-. apply pop_while_over_12_length.
  - intros self cb Hcb Hlast Hlen Hhd.
    destruct (handler_single_frame self cb frame Hcb Hf Hlen Hhd)
      as (r & self' & evs & Hrun & Hcase).
    exists r, self', evs. split; [exact Hrun|].
    rewrite Hlast in Hcase. split.
    + intros Hin. rewrite (Hheld Hin) in Hcase. exact Hcase.
    + intros Hnin. rewrite (Hnew Hnin) in Hcase. exact Hcase.
  - apply feed_identical.
  - intros frames Hb Hnd Hlen.
    rewrite feed_distinct.
    + rewrite length_map, Hlen. cbn [app].
      rewrite length_map, Hlen, skipn_map. reflexivity.
    + cbn. lia.
    + apply NoDup_hex_message; assumption.
    + intros f _ [].
Qed.

End DuplicateFilterClaim.

Section DuplicateFilterWitness.
Import Codec Handler Spec.

(** The first frame of the library's checksum test, on an empty window. *)
Lemma duplicate_filter_witness :
  accept [] (hex_message [19; 5; 0; 0; 0; 24; 1])
  = Some [hex_message [19; 5; 0; 0; 0; 24; 1]]
  /\ feed [] (repeat (hex_message [19; 5; 0; 0; 0; 24; 1]) 13)
     = (true :: repeat false 12, [hex_message [19; 5; 0; 0; 0; 24; 1]]).
Proof.
  assert (Hb : Forall is_byte [19; 5; 0; 0; 0; 24; 1]).
  { repeat constructor; unfold is_byte; lia. }
  destruct (duplicate_filter [] [19; 5; 0; 0; 0; 24; 1] (Forall_nil _) Hb)
    as (_ & Hnew & _ & _ & Hsame & _).
  split; [|exact Hsame].
  exact (Hnew (fun H : In _ [] => H)).
Defined.

End DuplicateFilterWitness.

(* ----------------------------------------------------------------- *)
(** ** Dispatch of the extracted frames *)

Section Dispatch.
Import Codec Handler Spec.

Lemma checksum_differs_iff frame :
  length frame = 7%nat ->
  checksum_differs frame = true <-> calc_checksum frame true <> Some (item frame 5).
Proof.
  intros Hlen. unfold checksum_differs, calc_checksum.
  rewrite Hlen. cbn [Nat.eqb negb].
  rewrite negb_true_iff, Z.eqb_neq.
  split; intros H; congruence.
Qed.

(** With a callback that raises nothing but TypeError, the loop runs to
    its end, and every frame that is new to the window reaches the
    callback, a wrong checksum logged just before the call and a
    TypeError of the callback just after it. *)
Lemma signal_loop_delivers (cb : noti_callable) (data : list Z) :
  (forall a, cb a = None \/ cb a = Some TypeError) ->
  forall recv_signals window,
  (forall s, In s recv_signals -> exists f, decode s = Some f) ->
  exists w evs,
    signal_loop (Some cb) data recv_signals window = (Ok tt, w, evs)
    /\ forall s f,
       In s recv_signals -> ~ In s window -> decode s = Some f ->
       exists before after,
         evs = before
               ++ (if checksum_differs f then [EvLog DEBUG msg_checksum] else [])
               ++ EvNotiCallback (structured f data)
               :: match cb (structured f data) with
                  | Some _ => [EvLog ERROR msg_noti_failed]
                  | None => []
                  end
               ++ after.
Proof.
  intros Hcb.
  induction recv_signals as [|s0 rest IH]; intros window Hdec.
  - exists window, []. split; [reflexivity|]. intros s f [].
  - assert (Hdec' : forall s, In s rest -> exists f, decode s = Some f).
    { intros s Hs. apply Hdec. right. exact Hs. }
    cbn [signal_loop].
    destruct (accept window s0) as [w'|] eqn:Hacc.
    + destruct (Hdec s0 (or_introl eq_refl)) as [f0 Hf0]. rewrite Hf0.
      cbn [call_noti].
      destruct (IH w' Hdec') as (w & evs & Hrun & Hdel).
      assert (Hw' : forall s, s <> s0 -> ~ In s window -> ~ In s w').
      { intros s Hne Hnin Hin. unfold accept in Hacc.
        destruct (in_dec str_eq_dec s0 window); [discriminate Hacc|].
        injection Hacc as <-.
        rewrite pop_while_over_12_skipn in Hin. apply In_skipn in Hin.
        apply in_app_or in Hin. destruct Hin as [Hin | [Heq | []]];
          [exact (Hnin Hin) | exact (Hne (eq_sym Heq))]. }
      set (log := if checksum_differs f0 then [EvLog DEBUG msg_checksum] else []).
      assert (Hgoal : forall tail,
        tail = match cb (structured f0 data) with
               | Some _ => [EvLog ERROR msg_noti_failed]
               | None => []
               end ->
        forall s f, In s (s0 :: rest) -> ~ In s window -> decode s = Some f ->
        exists before after,
          log ++ [EvNotiCallback (structured f0 data)] ++ tail ++ evs
          = before
            ++ (if checksum_differs f then [EvLog DEBUG msg_checksum] else [])
            ++ EvNotiCallback (structured f data)
            :: match cb (structured f data) with
               | Some _ => [EvLog ERROR msg_noti_failed]
               | None => []
               end
            ++ after).
      { intros tail Htail s f Hin Hnin Hs.
        destruct (str_eq_dec s s0) as [->|Hne].
        - assert (f = f0) by congruence. subst f.
          exists [], evs. rewrite Htail. reflexivity.
        - destruct Hin as [Heq | Hin]; [congruence|].
          destruct (Hdel s f Hin (Hw' s Hne Hnin) Hs) as (before & after & ->).
          exists (log ++ [EvNotiCallback (structured f0 data)] ++ tail ++ before), after.
          rewrite <- !app_assoc. reflexivity. }
      destruct (Hcb (structured f0 data)) as [Hret | Hret]; rewrite Hret in *.
      * rewrite Hrun. exists w, (log ++ [EvNotiCallback (structured f0 data)] ++ evs).
        split; [reflexivity|]. exact (Hgoal [] eq_refl).
      * cbn [is_TypeError]. rewrite Hrun.
        exists w, (log ++ [EvNotiCallback (structured f0 data)]
                       ++ EvLog ERROR msg_noti_failed :: evs).
        split; [reflexivity|]. exact (Hgoal [EvLog ERROR msg_noti_failed] eq_refl).
    + destruct (IH window Hdec') as (w & evs & Hrun & Hdel).
      exists w, evs. split; [exact Hrun|].
      intros s f Hin Hnin Hs.
      destruct Hin as [<- | Hin]; [|exact (Hdel s f Hin Hnin Hs)].
      unfold accept in Hacc.
      destruct (in_dec str_eq_dec s0 window); [contradiction | discriminate Hacc].
Qed.

(** The same at the level of the handler, on a payload of bytes that
    holds at least one frame. *)
Lemma handler_delivers self (cb : noti_callable) data :
  Forall is_byte data ->
  noti_callback self = Some cb ->
  (forall a, cb a = None \/ cb a = Some TypeError) ->
  scan_frames data <> [] ->
  exists self' evs,
    __notification_handler self data = (Ok tt, self', evs)
    /\ forall frame,
       In frame (scan_frames data) ->
       ~ In (hex_message frame) (last_notifications self) ->
       exists before after,
         evs = before
               ++ (if checksum_differs frame then [EvLog DEBUG msg_checksum] else [])
               ++ EvNotiCallback (structured frame data)
               :: match cb (structured frame data) with
                  | Some _ => [EvLog ERROR msg_noti_failed]
                  | None => []
                  end
               ++ after.
Proof.
  intros Hb Hcb Hty Hsome.
  unfold __notification_handler.
  rewrite (finditer_hex_message data Hb), Hcb.
  assert (Hdec : forall s, In s (map hex_message (scan_frames data)) ->
                 exists f, decode s = Some f).
  { intros s Hs. apply in_map_iff in Hs. destruct Hs as (f & <- & Hf).
    destruct (scan_frames_shape data f Hb Hf) as (Hlen & _ & Hbf).
    exists f. apply decode_hex_message; assumption. }
  destruct (signal_loop_delivers cb data Hty _ (last_notifications self) Hdec)
    as (w & evs & Hrun & Hdel).
  rewrite Hrun.
  destruct (scan_frames data) as [|f0 fs] eqn:Hscan; [contradiction|].
  cbn [map length Nat.eqb].
  exists (set_last_notifications w self), evs. split; [reflexivity|].
  intros frame Hin Hnew.
  destruct (scan_frames_shape data frame Hb) as (Hlen & _ & Hbf).
  { rewrite Hscan. exact Hin. }
  apply (Hdel (hex_message frame) frame).
  - apply (in_map hex_message) in Hin. exact Hin.
  - exact Hnew.
  - apply decode_hex_message; assumption.
Qed.

(** C6. A candidate frame whose checksum byte differs from the inbound
    checksum of its other fields is still handed to the registered
    callback, its fields as decoded, the wrong checksum among them; the
    mismatch only produces a log entry. *)
Theorem checksum_mismatch_delivered self (cb : noti_callable) data frame :
  Forall is_byte data ->
  noti_callback self = Some cb ->
  (forall a, cb a = None \/ cb a = Some TypeError) ->
  In frame (scan_frames data) ->
  ~ In (hex_message frame) (last_notifications self) ->
  calc_checksum frame true <> Some (item frame 5) ->
  exists self' before after,
    __notification_handler self data
    = (Ok tt, self',
       before
       ++ EvLog DEBUG msg_checksum
       :: EvNotiCallback
            {| Header := Some (item frame 0); Stone := Some (item frame 1);
               Status := Some (item frame 2); Reserved := Some (item frame 3);
               Id := Some (item frame 4); Checksum := Some (item frame 5);
               Color := Some (item frame 6); Data := data |}
       :: after).
Proof.
  intros Hb Hcb Hty Hin Hnew Hsum.
  assert (Hsome : scan_frames data <> []).
  { intros Hnil. rewrite Hnil in Hin. exact Hin. }
  destruct (handler_delivers self cb data Hb Hcb Hty Hsome)
    as (self' & evs & Hrun & Hdel).
  destruct (Hdel frame Hin Hnew) as (before & after & Hevs).
  destruct (scan_frames_shape data frame Hb Hin) as (Hlen & _ & _).
  apply (checksum_differs_iff frame Hlen) in Hsum.
  rewrite Hsum in Hevs.
  do 3 eexists.
  rewrite Hrun, Hevs. reflexivity.
Qed.

(** A frame whose checksum byte is 0 where 24 is due. *)
Lemma checksum_mismatch_delivered_witness :
  exists self' before after,
    __notification_handler
      (set_noti_callback (Some (fun _ => None)) Bridge_init)
      [19; 5; 0; 0; 0; 0; 1]
    = (Ok tt, self',
       before
       ++ EvLog DEBUG msg_checksum
       :: EvNotiCallback
            {| Header := Some 19; Stone := Some 5; Status := Some 0;
               Reserved := Some 0; Id := Some 0; Checksum := Some 0;
               Color := Some 1; Data := [19; 5; 0; 0; 0; 0; 1] |}
       :: after).
Proof.
  apply (checksum_mismatch_delivered
           (set_noti_callback (Some (fun _ => None)) Bridge_init)
           (fun _ => None) [19; 5; 0; 0; 0; 0; 1] [19; 5; 0; 0; 0; 0; 1]).
  - repeat constructor; unfold is_byte; lia.
  - reflexivity.
  - intros a. left. reflexivity.
  - left. reflexivity.
  - intros [].
  - discriminate.
Defined.

End Dispatch.

(* ----------------------------------------------------------------- *)
(** ** What a sender leaves untouched *)

Section Preservation.
Import Codec Sender.
Local Open Scope sender_scope.

Variable e : env.

Lemma preserves_ret {X A} (proj : world -> X) (a : A) : preserves proj (ret a).
Proof. intros w. reflexivity. Qed.

Lemma preserves_raise {X A} (proj : world -> X) (x : exn) :
  preserves proj (@raise A x).
Proof. intros w. reflexivity. Qed.

Lemma preserves_bind {X A B} (proj : world -> X) (m : M A) (k : A -> M B) :
  preserves proj m -> (forall a, preserves proj (k a)) ->
  preserves proj (bind m k).
Proof.
  intros Hm Hk w. unfold bind.
  specialize (Hm w). destruct (m w) as [[a|x] w']; cbn [snd] in *.
  - rewrite Hk. exact Hm.
  - exact Hm.
Qed.

Lemma preserves_try_except {X A} (proj : world -> X) (m : M A) handler :
  preserves proj m ->
  (forall x h, handler x = Some h -> preserves proj h) ->
  preserves proj (try_except m handler).
Proof.
  intros Hm Hh w. unfold try_except.
  specialize (Hm w). destruct (m w) as [[a|x] w']; cbn [snd] in *.
  - exact Hm.
  - destruct (handler x) as [h|] eqn:Hx; [|exact Hm].
    rewrite (Hh x h Hx). exact Hm.
Qed.

Lemma sent_frames_app evs1 evs2 :
  sent_frames (evs1 ++ evs2) = sent_frames evs1 ++ sent_frames evs2.
Proof. unfold sent_frames. apply flat_map_app. Qed.

Lemma emit_self ev : preserves self (emit ev).
Proof. intros w. reflexivity. Qed.

Lemma emit_rand_calls ev : preserves rand_calls (emit ev).
Proof. intros w. reflexivity. Qed.

Lemma emit_frames ev :
  sent_frames [ev] = [] -> preserves frames_of (emit ev).
Proof.
  intros Hev w. unfold frames_of, emit. cbn.
  rewrite sent_frames_app, Hev, app_nil_r. reflexivity.
Qed.

Lemma write_self u d : preserves self (client_write_gatt_char e u d).
Proof.
  intros w. unfold client_write_gatt_char.
  destruct (client (self w)); [|reflexivity].
  destruct (write_gatt_char e (write_calls w)); reflexivity.
Qed.

Lemma write_rand_calls u d : preserves rand_calls (client_write_gatt_char e u d).
Proof.
  intros w. unfold client_write_gatt_char.
  destruct (client (self w)); [|reflexivity].
  destruct (write_gatt_char e (write_calls w)); reflexivity.
Qed.

Lemma write_frames u d : preserves frames_of (client_write_gatt_char e u d).
Proof.
  intros w. unfold client_write_gatt_char, frames_of.
  destruct (client (self w)); [|reflexivity].
  destruct (write_gatt_char e (write_calls w)); cbn;
    rewrite sent_frames_app, app_nil_r; reflexivity.
Qed.

Lemma set_if_event_self ev : preserves self (set_if_event ev).
Proof. intros w. destruct ev; reflexivity. Qed.

Lemma set_if_event_rand_calls ev : preserves rand_calls (set_if_event ev).
Proof. intros w. destruct ev; reflexivity. Qed.

Lemma set_if_event_frames ev : preserves frames_of (set_if_event ev).
Proof. intros w. destruct ev; reflexivity. Qed.

Create HintDb sender_keeps discriminated.
#[local] Hint Resolve preserves_ret preserves_raise emit_self emit_rand_calls
  write_self write_rand_calls write_frames
  set_if_event_self set_if_event_rand_calls set_if_event_frames : sender_keeps.

Lemma write_loop_keeps {X} (proj : world -> X) u d gap :
  (forall u d, preserves proj (client_write_gatt_char e u d)) ->
  (forall ev, sent_frames [ev] = [] -> preserves proj (emit ev)) ->
  forall n, preserves proj (write_loop e u d gap n).
Proof.
  intros Hw He. induction n as [|n IH]; cbn [write_loop].
  - apply preserves_ret.
  - apply preserves_bind; [apply Hw|intros _].
    apply preserves_bind; [apply He; reflexivity|intros _].
    exact IH.
Qed.

(** After the call is recorded, [send_bytes] leaves [proj] alone. *)
Lemma send_bytes_body_keeps {X} (proj : world -> X) d n gap u ev :
  (forall u d, preserves proj (client_write_gatt_char e u d)) ->
  (forall ev, sent_frames [ev] = [] -> preserves proj (emit ev)) ->
  (forall ev, preserves proj (set_if_event ev)) ->
  preserves proj
    (try_except (write_loop e u d gap n) (send_bytes_except ev)).
Proof.
  intros Hw He Hs.
  assert (Hh : preserves proj (set_if_event ev ;; log_print ERROR msg_send_error)).
  { apply preserves_bind; [apply Hs|intros _]. apply He. reflexivity. }
  apply preserves_try_except.
  - apply write_loop_keeps; assumption.
  - intros x h Hx. unfold send_bytes_except in Hx.
    destruct (is_TypeError x || is_BleakError x).
    + injection Hx as <-. exact Hh.
    + destruct x; try discriminate Hx. injection Hx as <-. exact Hh.
Qed.

Lemma send_bytes_self d n gap u ev : preserves self (send_bytes e d n gap u ev).
Proof.
  unfold send_bytes. apply preserves_bind; [apply emit_self|intros _].
  apply send_bytes_body_keeps; auto with sender_keeps.
Qed.

Lemma send_bytes_rand_calls d n gap u ev :
  preserves rand_calls (send_bytes e d n gap u ev).
Proof.
  unfold send_bytes. apply preserves_bind; [apply emit_rand_calls|intros _].
  apply send_bytes_body_keeps; auto with sender_keeps.
Qed.

(** [send_bytes] adds its own frame to those handed over, and no other. *)
Lemma send_bytes_frames d n gap u ev w :
  frames_of (snd (send_bytes e d n gap u ev w)) = frames_of w ++ [d].
Proof.
  unfold send_bytes, bind. cbn [emit].
  rewrite (send_bytes_body_keeps frames_of d (Z.to_nat n) gap u ev
             write_frames emit_frames set_if_event_frames).
  unfold frames_of. cbn. apply sent_frames_app.
Qed.

End Preservation.

(* ----------------------------------------------------------------- *)
(** ** The message-id counter *)

Section Counter.
Import Codec Sender.
Local Open Scope sender_scope.

Variable e : env.

Lemma send_signal_frame_world a w :
  snd (send_signal_frame e a w) = after_frame a w.
Proof.
  unfold send_signal_frame, bind, random_randrange, get_next_send_id,
    put_next_send_id, bytes_of, after_frame.
  destruct w as [b evs rc wc tr]. cbn.
  destruct (random_id a); cbn;
    match goal with |- context [if ?c then _ else _] => destruct c end;
    reflexivity.
Qed.

Lemma send_signal_frame_ok a w :
  randrange_ok e -> valid_args a -> is_byte (next_send_id (self w)) ->
  send_signal_frame e a w = (Ok (frame_of e a w), after_frame a w).
Proof.
  intros Hr (Hh & Hst & Hs & Hc) Hid.
  pose proof (send_signal_frame_world a w) as Hw.
  assert (Hbytes : forallb is_byteb (frame_of e a w) = true).
  { pose proof (Hr (rand_calls w)) as H1.
    pose proof (Hr (S (rand_calls w))) as H2.
    apply forallb_forall. intros x Hx.
    apply is_byteb_spec. unfold is_byte in *.
    unfold frame_of, message_id_of in Hx. cbn [In] in Hx.
    repeat (destruct Hx as [<- | Hx]); try assumption; try lia;
      try contradiction.
    - destruct (random_id a); lia.
    - apply Z.mod_pos_bound. lia. }
  clear Hw.
  unfold send_signal_frame, bind, random_randrange, get_next_send_id,
    put_next_send_id, bytes_of, after_frame, frame_of, message_id_of in *.
  destruct w as [b evs rc wc tr]. cbn in *.
  destruct (random_id a); cbn in *; rewrite Hbytes; reflexivity.
Qed.

(** One call of [send_signal]: the counter, the draws, the frames. *)
Lemma send_signal_self a w :
  self (snd (send_signal e a w))
  = set_next_send_id ((next_send_id (self w) + 1) mod 256) (self w).
Proof.
  unfold send_signal, bind.
  pose proof (send_signal_frame_world a w) as Hw.
  destruct (send_signal_frame e a w) as [[d|x] w']; cbn [snd] in *; subst w'.
  - rewrite send_bytes_self. reflexivity.
  - reflexivity.
Qed.

Lemma send_signal_rand_calls a w :
  rand_calls (snd (send_signal e a w))
  = if random_id a then S (S (rand_calls w)) else S (rand_calls w).
Proof.
  unfold send_signal, bind.
  pose proof (send_signal_frame_world a w) as Hw.
  destruct (send_signal_frame e a w) as [[d|x] w']; cbn [snd] in *; subst w'.
  - rewrite send_bytes_rand_calls. reflexivity.
  - reflexivity.
Qed.

Lemma send_signal_frames a w :
  randrange_ok e -> valid_args a -> is_byte (next_send_id (self w)) ->
  frames_of (snd (send_signal e a w)) = frames_of w ++ [frame_of e a w].
Proof.
  intros Hr Ha Hid. unfold send_signal, bind.
  rewrite (send_signal_frame_ok a w Hr Ha Hid).
  rewrite send_bytes_frames. reflexivity.
Qed.

Lemma sent_ids_frames w l :
  frames_of w = l -> sent_ids (trace w) = map (fun d => item d 4) l.
Proof. intros <-. reflexivity. Qed.

End Counter.

Section CounterClaim.
Import Codec Sender.

Lemma next_send_id_set v b : next_send_id (set_next_send_id v b) = v.
Proof. reflexivity. Qed.

Lemma mod_256_byte x : is_byte (x mod 256).
Proof. unfold is_byte. apply Z.mod_pos_bound. lia. Qed.

(** C10. Every call of send_signal moves the counter on by one modulo
    256, whatever its arguments and however it ends, the calls with
    random_id=True included, whose frame carries the random draw and not
    the counter.  So a non-random, a random and a non-random call in a
    row transmit the ids c, the draw, and (c + 2) mod 256: the value
    (c + 1) mod 256 is passed over. *)
Theorem every_send_advances_counter (e : env) (w : world)
    (a1 a2 a3 : signal_args) :
  (forall a w0,
     next_send_id (self (snd (send_signal e a w0)))
     = (next_send_id (self w0) + 1) mod 256)
  /\ (randrange_ok e ->
      is_byte (next_send_id (self w)) ->
      valid_args a1 -> valid_args a2 -> valid_args a3 ->
      random_id a1 = false -> random_id a2 = true -> random_id a3 = false ->
      let c := next_send_id (self w) in
      let w1 := snd (send_signal e a1 w) in
      let w2 := snd (send_signal e a2 w1) in
      let w3 := snd (send_signal e a3 w2) in
      sent_ids (trace w3)
      = sent_ids (trace w)
        ++ [c; randrange_0_255 e (rand_calls w + 2); (c + 2) mod 256]).
Proof.
  split.
  - intros a w0. rewrite send_signal_self. apply next_send_id_set.
  - intros Hr Hc H1 H2 H3 R1 R2 R3 c w1 w2 w3.
    assert (Hc1 : next_send_id (self w1) = (c + 1) mod 256).
    { unfold w1. rewrite send_signal_self. apply next_send_id_set. }
    assert (Hc2 : next_send_id (self w2) = (c + 2) mod 256).
    { unfold w2. rewrite send_signal_self, next_send_id_set, Hc1.
      rewrite Zplus_mod_idemp_l. f_equal. lia. }
    assert (Hr1 : rand_calls w1 = S (rand_calls w)).
    { unfold w1. rewrite send_signal_rand_calls, R1. reflexivity. }
    assert (Hf1 : frames_of w1 = frames_of w ++ [frame_of e a1 w]).
    { apply send_signal_frames; assumption. }
    assert (Hf2 : frames_of w2 = frames_of w1 ++ [frame_of e a2 w1]).
    { apply send_signal_frames; try assumption.
      rewrite Hc1. apply mod_256_byte. }
    assert (Hf3 : frames_of w3 = frames_of w2 ++ [frame_of e a3 w2]).
    { apply send_signal_frames; try assumption.
      rewrite Hc2. apply mod_256_byte. }
    rewrite (sent_ids_frames w3 _ Hf3), Hf2, Hf1.
    rewrite !map_app. cbn [map].
    unfold frame_of, message_id_of, item. cbn [nth].
    rewrite R1, R2, R3, Hc2, Hr1.
    replace (rand_calls w + 2)%nat with (S (S (rand_calls w))) by lia.
    rewrite <- !app_assoc. reflexivity.
Qed.

(** Counter at 7, draws 0, 1, 2, 3: the ids sent are 7, 2 and 9. *)
Lemma every_send_advances_counter_witness :
  let e := {| randrange_0_255 := fun n => Z.of_nat n mod 200;
              write_gatt_char := fun _ => None |} in
  let w := world_init (set_next_send_id 7 Bridge_init) in
  let plain := signal_defaults 0 1 in
  let random :=
    {| status := 0; color_channel := 1; resends := 12; resend_gap := 0%Q;
       random_id := true; uuid := UUID_WRITE; header := MSG_DEFAULT_HEADER;
       stone := STONE_BRIDGE; error_event := None |} in
  sent_ids (trace (snd (send_signal e plain
              (snd (send_signal e random (snd (send_signal e plain w)))))))
  = [7; 2; 9].
Proof.
  intros e w plain random.
  assert (Hv : forall a, header a = 19 -> stone a = 6 -> status a = 0 ->
                         color_channel a = 1 -> valid_args a).
  { intros a H1 H2 H3 H4. unfold valid_args, is_byte.
    rewrite H1, H2, H3, H4. lia. }
  refine (proj2 (every_send_advances_counter e w plain random plain)
            _ _ (Hv plain eq_refl eq_refl eq_refl eq_refl)
            (Hv random eq_refl eq_refl eq_refl eq_refl)
            (Hv plain eq_refl eq_refl eq_refl eq_refl)
            eq_refl eq_refl eq_refl).
  - intros n. cbn [randrange_0_255 e].
    pose proof (Z.mod_pos_bound (Z.of_nat n) 200 eq_refl). lia.
  - cbn. unfold is_byte. lia.
Defined.

End CounterClaim.

(* ----------------------------------------------------------------- *)
(** ** [send_periodic] and the error event *)

Section Periodic.
Import Codec Sender.
Local Open Scope sender_scope.

Variable e : env.

(** [n] rounds of the write loop on a transport that answers them all. *)
Lemma write_loop_ok u d gap n : forall w,
  client (self w) <> None ->
  (forall j, (j < n)%nat -> write_gatt_char e (write_calls w + j) = None) ->
  exists ext,
    write_loop e u d gap n w
    = (Ok tt, with_write_calls (write_calls w + n) (with_trace (trace w ++ ext) w))
    /\ sent_frames ext = [].
Proof.
  induction n as [|n IH]; intros w Hcl Hok.
  - exists []. split; [|reflexivity].
    destruct w as [b evs rc wc tr].
    unfold with_write_calls, with_trace. cbn.
    rewrite app_nil_r, Nat.add_0_r. reflexivity.
  - cbn [write_loop]. unfold bind at 1. unfold client_write_gatt_char.
    destruct (client (self w)) as [c|] eqn:Hc; [|contradiction].
    pose proof (Hok 0%nat ltac:(lia)) as H0. rewrite Nat.add_0_r in H0.
    rewrite H0.
    unfold bind at 1. unfold asyncio_sleep, emit.
    set (w1 := with_trace _ _).
    destruct (IH w1) as (ext & Hrun & Hext).
    + unfold w1. cbn. rewrite Hc. discriminate.
    + intros j Hj. unfold w1. cbn.
      rewrite <- Nat.add_succ_r. apply Hok. lia.
    + rewrite Hrun.
      exists (EvWrite u d :: EvSleep gap :: ext). split; [|exact Hext].
      unfold w1. destruct w as [b evs rc wc tr].
      unfold with_write_calls, with_trace. cbn.
      rewrite <- !app_assoc. cbn [app].
      replace (wc + S n)%nat with (S (wc + n)) by lia. reflexivity.
Qed.

(** The write loop on a transport whose write number [J] is the first
    to raise. *)
Lemma write_loop_fail u d gap exc n : forall w J,
  client (self w) <> None ->
  (J < n)%nat ->
  (forall j, (j < J)%nat -> write_gatt_char e (write_calls w + j) = None) ->
  write_gatt_char e (write_calls w + J) = Some exc ->
  exists ext,
    write_loop e u d gap n w
    = (Raise exc,
       with_write_calls (write_calls w + S J) (with_trace (trace w ++ ext) w))
    /\ sent_frames ext = [].
Proof.
  induction n as [|n IH]; intros w J Hcl HJ Hok Hbad.
  - lia.
  - cbn [write_loop]. unfold bind at 1. unfold client_write_gatt_char.
    destruct (client (self w)) as [c|] eqn:Hc; [|contradiction].
    destruct J as [|J].
    + rewrite Nat.add_0_r in Hbad. rewrite Hbad.
      exists [EvWrite u d]. split; [|reflexivity].
      destruct w as [b evs rc wc tr].
      unfold with_write_calls, with_trace. cbn.
      replace (wc + 1)%nat with (S wc) by lia. reflexivity.
    + pose proof (Hok 0%nat ltac:(lia)) as H0. rewrite Nat.add_0_r in H0.
      rewrite H0.
      unfold bind at 1. unfold asyncio_sleep, emit.
      set (w1 := with_trace _ _).
      destruct (IH w1 J) as (ext & Hrun & Hext).
      * unfold w1. cbn. rewrite Hc. discriminate.
      * lia.
      * intros j Hj. unfold w1. cbn.
        rewrite <- Nat.add_succ_r. apply Hok. lia.
      * unfold w1. cbn. rewrite <- Nat.add_succ_r. exact Hbad.
      * rewrite Hrun.
        exists (EvWrite u d :: EvSleep gap :: ext). split; [|exact Hext].
        unfold w1. destruct w as [b evs rc wc tr].
        unfold with_write_calls, with_trace. cbn.
        rewrite <- !app_assoc. cbn [app].
        replace (wc + S (S J))%nat with (S (wc + S J)) by lia. reflexivity.
Qed.

Lemma nth_set_flag l : forall ev,
  (ev < length l)%nat -> nth ev (set_flag l ev) false = true.
Proof.
  induction l as [|b l IH]; intros [|ev] Hlt; cbn in *; try lia;
    try reflexivity.
  apply IH. lia.
Qed.

(** The exceptions the two [except] clauses of [send_bytes] take. *)
Lemma send_bytes_except_caught ev (exc : exn) :
  is_TypeError exc || is_BleakError exc = true \/ exc = AttributeError ->
  send_bytes_except ev exc
  = Some (set_if_event ev ;; log_print ERROR msg_send_error).
Proof.
  unfold send_bytes_except. intros [-> | ->]; reflexivity.
Qed.

(** A send whose writes all succeed. *)
Lemma send_signal_sent_ok a w :
  randrange_ok e -> valid_args a -> is_byte (next_send_id (self w)) ->
  client (self w) <> None ->
  (forall j, (j < Z.to_nat (resends a))%nat ->
             write_gatt_char e (write_calls w + j) = None) ->
  exists w2 ext,
    send_signal e a w = (Ok tt, w2)
    /\ client (self w2) = client (self w)
    /\ is_byte (next_send_id (self w2))
    /\ error_events w2 = error_events w
    /\ write_calls w2 = (write_calls w + Z.to_nat (resends a))%nat
    /\ trace w2 = trace w ++ EvSendBytes (frame_of e a w) :: ext
    /\ sent_frames ext = [].
Proof.
  intros Hr Ha Hid Hcl Hok.
  unfold send_signal, bind.
  rewrite (send_signal_frame_ok e a w Hr Ha Hid).
  unfold send_bytes, bind, emit, try_except.
  set (w1 := with_trace _ _).
  destruct (write_loop_ok (uuid a) (frame_of e a w) (resend_gap a)
              (Z.to_nat (resends a)) w1) as (ext & Hrun & Hext).
  - unfold w1. destruct w as [b evs rc wc tr]. exact Hcl.
  - intros j Hj. unfold w1. destruct w as [b evs rc wc tr]. cbn.
    apply (Hok j Hj).
  - rewrite Hrun. do 2 eexists. split; [reflexivity|].
    unfold w1. destruct w as [b evs rc wc tr]. cbn.
    repeat split; try reflexivity.
    + apply Z.mod_pos_bound. lia.
    + apply Z.mod_pos_bound. lia.
    + rewrite <- app_assoc. reflexivity.
    + exact Hext.
Qed.

(** A send in which write number [J] of the transport raises an
    exception that [send_bytes] takes: the error event is set. *)
Lemma send_signal_sent_fail a w ev J exc :
  randrange_ok e -> valid_args a -> is_byte (next_send_id (self w)) ->
  client (self w) <> None ->
  error_event a = Some ev -> (ev < length (error_events w))%nat ->
  (J < Z.to_nat (resends a))%nat ->
  (forall j, (j < J)%nat -> write_gatt_char e (write_calls w + j) = None) ->
  write_gatt_char e (write_calls w + J) = Some exc ->
  is_TypeError exc || is_BleakError exc = true \/ exc = AttributeError ->
  exists w2 ext,
    send_signal e a w = (Ok tt, w2)
    /\ nth ev (error_events w2) false = true
    /\ trace w2 = trace w ++ EvSendBytes (frame_of e a w) :: ext
    /\ sent_frames ext = [].
Proof.
  intros Hr Ha Hid Hcl Hev Hlen HJ Hok Hbad Hcaught.
  unfold send_signal, bind.
  rewrite (send_signal_frame_ok e a w Hr Ha Hid).
  unfold send_bytes, bind, emit, try_except.
  set (w1 := with_trace _ _).
  destruct (write_loop_fail (uuid a) (frame_of e a w) (resend_gap a) exc
              (Z.to_nat (resends a)) w1 J) as (ext & Hrun & Hext).
  - unfold w1. destruct w as [b evs rc wc tr]. exact Hcl.
  - exact HJ.
  - intros j Hj. unfold w1. destruct w as [b evs rc wc tr]. cbn.
    apply (Hok j Hj).
  - unfold w1. destruct w as [b evs rc wc tr]. exact Hbad.
  - rewrite Hrun, (send_bytes_except_caught _ exc Hcaught), Hev.
    do 2 eexists. split; [reflexivity|].
    unfold w1. destruct w as [b evs rc wc tr]. cbn in *.
    split; [apply nth_set_flag; exact Hlen|].
    split.
    + rewrite <- !app_assoc. cbn [app]. reflexivity.
    + rewrite sent_frames_app, Hext. reflexivity.
Qed.

Section Batch.

Variables (status color_channel : Z) (gap : Q) (resends : Z) (resend_gap : Q)
  (stone : Z) (error_event : nat) (exc : exn).

Hypothesis Hrand : randrange_ok e.
Hypothesis Hstatus : is_byte status.
Hypothesis Hcolor : is_byte color_channel.
Hypothesis Hstone : is_byte stone.
Hypothesis Hresends : (0 < Z.to_nat resends)%nat.
Hypothesis Hcaught :
  is_TypeError exc || is_BleakError exc = true \/ exc = AttributeError.

(** With the error event set, the loop issues nothing more. *)
Lemma periodic_loop_after_failure i n w :
  nth error_event (error_events w) false = true ->
  periodic_loop e status color_channel gap resends resend_gap stone
      true error_event i n w = (Ok tt, w).
Proof.
  intros Hset. destruct n as [|n]; [reflexivity|].
  cbn [periodic_loop]. unfold bind, Event_is_set.
  rewrite Hset. reflexivity.
Qed.

(** The delay in front of a send: none in the first iteration. *)
Lemma gap_sleep_spec (i : nat) w :
  exists pre,
    (if Qlt_le_dec 0 gap then
       if (0 <? i)%nat then asyncio_sleep gap else ret tt
     else ret tt) w
    = (Ok tt, with_trace (trace w ++ pre) w)
    /\ sent_frames pre = []
    /\ (i = 0%nat -> pre = []).
Proof.
  assert (Hnone : (@ret unit tt) w = (Ok tt, with_trace (trace w ++ []) w)).
  { destruct w as [b evs rc wc tr]. unfold ret, with_trace. cbn.
    rewrite app_nil_r. reflexivity. }
  destruct (Qlt_le_dec 0 gap).
  - destruct i as [|i]; cbn [Nat.ltb Nat.leb].
    + exists []. repeat split. exact Hnone.
    + exists [EvSleep gap]. repeat split. discriminate.
  - exists []. repeat split. exact Hnone.
Qed.

(** Write number [J] (counted from the start of the loop) being the
    first to raise, the loop issues [J / resends + 1] sends, fewer only
    if its iterations run out first. *)
Lemma periodic_loop_stops n : forall i w J,
  client (self w) <> None ->
  is_byte (next_send_id (self w)) ->
  (error_event < length (error_events w))%nat ->
  nth error_event (error_events w) false = false ->
  (forall j, (j < J)%nat -> write_gatt_char e (write_calls w + j) = None) ->
  write_gatt_char e (write_calls w + J) = Some exc ->
  exists w' ext,
    periodic_loop e status color_channel gap resends resend_gap stone
      true error_event i n w = (Ok tt, w')
    /\ trace w' = trace w ++ ext
    /\ length (sent_frames ext) = Nat.min n (J / Z.to_nat resends + 1)
    /\ (i = 0%nat -> (0 < n)%nat -> exists f rest, ext = EvSendBytes f :: rest).
Proof.
  induction n as [|n IH]; intros i w J Hcl Hid Hev Hunset Hok Hbad.
  - exists w, []. repeat split.
    + rewrite app_nil_r. reflexivity.
    + intros _ Hn. lia.
  - cbn [periodic_loop].
    unfold bind at 1. unfold Event_is_set. rewrite Hunset. cbn [andb].
    unfold bind at 1.
    destruct (gap_sleep_spec i w) as (pre & -> & Hpre & Hfirst).
    set (w0 := with_trace (trace w ++ pre) w).
    set (a := {| Sender.status := status; Sender.color_channel := color_channel;
                 Sender.resends := resends; Sender.resend_gap := resend_gap;
                 random_id := false; uuid := UUID_WRITE;
                 header := MSG_DEFAULT_HEADER; Sender.stone := stone;
                 Sender.error_event := Some error_event |}).
    assert (Ha : valid_args a).
    { unfold valid_args, a, is_byte, MSG_DEFAULT_HEADER in *. cbn. lia. }
    assert (Hw0 : client (self w0) = client (self w)
                  /\ next_send_id (self w0) = next_send_id (self w)
                  /\ error_events w0 = error_events w
                  /\ write_calls w0 = write_calls w
                  /\ trace w0 = trace w ++ pre).
    { unfold w0. destruct w as [b evs rc wc tr]. repeat split. }
    destruct Hw0 as (Hcl0 & Hid0 & Hev0 & Hwc0 & Htr0).
    assert (Hcl' : client (self w0) <> None) by (rewrite Hcl0; exact Hcl).
    assert (Hid' : is_byte (next_send_id (self w0))) by (rewrite Hid0; exact Hid).
    assert (Hev' : (error_event < length (error_events w0))%nat)
      by (rewrite Hev0; exact Hev).
    assert (Hok' : forall j, (j < J)%nat ->
                   write_gatt_char e (write_calls w0 + j) = None)
      by (rewrite Hwc0; exact Hok).
    assert (Hbad' : write_gatt_char e (write_calls w0 + J) = Some exc)
      by (rewrite Hwc0; exact Hbad).
    unfold bind at 1.
    destruct (Nat.lt_ge_cases J (Z.to_nat resends)) as [Hin | Hout].
    + (* the failing write falls into this send *)
      destruct (send_signal_sent_fail a w0 error_event J exc
                  Hrand Ha Hid' Hcl' eq_refl Hev' Hin Hok' Hbad' Hcaught)
        as (w2 & ext2 & Hrun & Hset & Htr2 & Hext2).
      rewrite Hrun.
      rewrite (periodic_loop_after_failure (S i) n w2 Hset).
      exists w2, (pre ++ EvSendBytes (frame_of e a w0) :: ext2).
      split; [reflexivity|]. split; [|split].
      * rewrite Htr2, Htr0, <- app_assoc. reflexivity.
      * rewrite sent_frames_app, Hpre. cbn [app sent_frames flat_map].
        fold (sent_frames ext2). rewrite Hext2.
        rewrite Nat.div_small by exact Hin. cbn. lia.
      * intros Hi _. rewrite (Hfirst Hi). do 2 eexists. reflexivity.
    + (* this send goes through *)
      assert (Hok2 : forall j, (j < Z.to_nat (Sender.resends a))%nat ->
                     write_gatt_char e (write_calls w0 + j) = None).
      { intros j Hj. apply Hok'. cbn in Hj. lia. }
      destruct (send_signal_sent_ok a w0 Hrand Ha Hid' Hcl' Hok2)
        as (w2 & ext2 & Hrun & Hcl2 & Hid2 & Hev2 & Hwc2 & Htr2 & Hext2).
      rewrite Hrun.
      cbn [Sender.resends a] in Hwc2.
      destruct (IH (S i) w2 (J - Z.to_nat resends)%nat)
        as (w' & ext' & Hrun' & Htr' & Hcount & _).
      * rewrite Hcl2. exact Hcl'.
      * exact Hid2.
      * rewrite Hev2. exact Hev'.
      * rewrite Hev2, Hev0. exact Hunset.
      * intros j Hj. rewrite Hwc2, <- Nat.add_assoc. apply Hok'. lia.
      * rewrite Hwc2, <- Nat.add_assoc.
        replace (Z.to_nat resends + (J - Z.to_nat resends))%nat with J by lia.
        exact Hbad'.
      * rewrite Hrun'.
        exists w', (pre ++ EvSendBytes (frame_of e a w0) :: ext2 ++ ext').
        split; [reflexivity|]. split; [|split].
        -- rewrite Htr', Htr2, Htr0, <- !app_assoc. reflexivity.
        -- rewrite sent_frames_app, Hpre. cbn [app sent_frames flat_map].
           fold (sent_frames (ext2 ++ ext')).
           rewrite sent_frames_app, Hext2. cbn [app length].
           rewrite Hcount.
           assert (Hdiv : (J / Z.to_nat resends
                           = (J - Z.to_nat resends) / Z.to_nat resends + 1)%nat).
           { replace J with ((J - Z.to_nat resends) + 1 * Z.to_nat resends)%nat
               at 1 by lia.
             apply Nat.div_add. lia. }
           rewrite Hdiv. lia.
        -- intros Hi _. rewrite (Hfirst Hi). do 2 eexists. reflexivity.
Qed.

End Batch.

End Periodic.

Section PeriodicClaim.
Import Codec Sender.

(** C7. send_periodic with stop_on_failure=True: when a write of the
    transport raises an exception that send_bytes takes (so that the
    shared error event is set), the send in which that write falls is
    the last one issued and every later send of the batch is skipped;
    and the first send is issued with no delay in front of it.  With a
    failure during the 2nd of 5 sends, 2 sends are issued. *)
Theorem send_periodic_stops_on_failure (e : env) (w : world)
    (status color_channel count : Z) (gap : Q) (resends : Z) (resend_gap : Q)
    (stone : Z) (J : nat) (exc : exn) :
  randrange_ok e ->
  is_byte status -> is_byte color_channel -> is_byte stone ->
  is_byte (next_send_id (self w)) ->
  client (self w) <> None ->
  0 < resends ->
  (forall j, (j < J)%nat -> write_gatt_char e (write_calls w + j) = None) ->
  write_gatt_char e (write_calls w + J) = Some exc ->
  is_TypeError exc || is_BleakError exc = true \/ exc = AttributeError ->
  let failing_send := (J / Z.to_nat resends)%nat in
  Z.of_nat failing_send < count ->
  exists w' f rest,
    send_periodic e status color_channel count gap resends resend_gap stone
      true w
    = (Ok tt, w')
    /\ trace w' = trace w ++ EvSendBytes f :: rest
    /\ length (sent_frames (EvSendBytes f :: rest)) = (failing_send + 1)%nat.
Proof.
  intros Hrand Hst Hcol Hstone Hid Hcl Hres Hok Hbad Hcaught failing_send Hin.
  unfold send_periodic, bind, Event_new.
  set (w1 := with_error_events _ w).
  destruct (periodic_loop_stops e status color_channel gap resends resend_gap
              stone (length (error_events w)) exc
              Hrand Hst Hcol Hstone ltac:(lia) Hcaught
              (Z.to_nat count) 0%nat w1 J)
    as (w' & ext & Hrun & Htr & Hcount & Hfirst).
  - unfold w1. destruct w as [b evs rc wc tr]. exact Hcl.
  - unfold w1. destruct w as [b evs rc wc tr]. exact Hid.
  - unfold w1. destruct w as [b evs rc wc tr]. cbn.
    rewrite length_app. cbn. lia.
  - unfold w1. destruct w as [b evs rc wc tr]. cbn.
    rewrite app_nth2 by lia. rewrite Nat.sub_diag. reflexivity.
  - unfold w1. destruct w as [b evs rc wc tr]. exact Hok.
  - unfold w1. destruct w as [b evs rc wc tr]. exact Hbad.
  - destruct (Hfirst eq_refl ltac:(lia)) as (f & rest & ->).
    exists w', f, rest. split; [exact Hrun|]. split.
    + rewrite Htr. unfold w1. destruct w as [b evs rc wc tr]. reflexivity.
    + rewrite Hcount. fold failing_send. lia.
Qed.

(** Five signals, twelve writes each; write 13 of the transport, the
    second write of the second signal, raises BleakError. *)
Lemma send_periodic_stops_on_failure_witness :
  let e := {| randrange_0_255 := fun _ => 7;
              write_gatt_char :=
                fun n => if (n =? 13)%nat then Some BleakError else None |} in
  let connected :=
    set_client (Some {| cl_device := {| dev_name := "GravitraxConnect";
                                        dev_address := "00:00" |};
                        cl_is_connected := true |})
      Bridge_init in
  exists w' f rest,
    send_periodic e 0 1 5 (1 # 2) 12 0 5 true (world_init connected)
    = (Ok tt, w')
    /\ trace w' = EvSendBytes f :: rest
    /\ length (sent_frames (EvSendBytes f :: rest)) = 2%nat.
Proof.
  intros e connected.
  apply (send_periodic_stops_on_failure e (world_init connected)
           0 1 5 (1 # 2) 12 0 5 13 BleakError).
  - intros n. cbn. lia.
  - unfold is_byte. lia.
  - unfold is_byte. lia.
  - unfold is_byte. lia.
  - cbn. unfold is_byte. lia.
  - discriminate.
  - lia.
  - intros j Hj. cbn.
    destruct (Nat.eqb_spec j 13); [lia | reflexivity].
  - reflexivity.
  - left. reflexivity.
  - vm_compute. reflexivity.
Defined.

End PeriodicClaim.

(* ----------------------------------------------------------------- *)
(** ** Concurrent senders *)

Section Coroutines.
Import Codec Sender Spec.
Local Open Scope sender_scope.

Variable e : env.

Lemma run_alone_finished fuel r w :
  run_alone e fuel (Finished r) w = (Finished r, w).
Proof. induction fuel as [|fuel IH]; [reflexivity | exact IH]. Qed.

(** Resumed often enough, the rounds of a coroutine are the write loop
    of [send_bytes] under its [except] clauses. *)
Lemma run_alone_rounds a data n : forall fuel w,
  (2 * n <= fuel)%nat ->
  run_alone e fuel (rounds a data n) w
  = (Finished (fst (try_except (write_loop e (uuid a) data (resend_gap a) n)
                      (send_bytes_except (error_event a)) w)),
     snd (try_except (write_loop e (uuid a) data (resend_gap a) n)
            (send_bytes_except (error_event a)) w)).
Proof.
  induction n as [|n IH]; intros fuel w Hfuel.
  - cbn [rounds]. apply run_alone_finished.
  - destruct fuel as [|[|fuel]]; try lia.
    cbn [rounds run_alone resume write_loop].
    unfold try_except, bind at 1 3.
    destruct (client_write_gatt_char e (uuid a) data w) as [[[]|x] w1].
    + cbn [Nat.pred asyncio_sleep emit].
      unfold bind at 1 2. unfold asyncio_sleep, emit.
      cbn [resume asyncio_sleep emit].
      rewrite (IH fuel _ ltac:(lia)). unfold try_except. reflexivity.
    + destruct (send_bytes_except (error_event a) x) as [h|].
      * destruct (h w1) as [r w2]. apply run_alone_finished.
      * apply run_alone_finished.
Qed.

(** A coroutine that runs alone is [send_signal]. *)
Lemma run_alone_send_signal a w fuel :
  (2 * Z.to_nat (resends a) + 1 <= fuel)%nat ->
  run_alone e fuel (Start a) w
  = (Finished (fst (send_signal e a w)), snd (send_signal e a w)).
Proof.
  intros Hfuel. destruct fuel as [|fuel]; [lia|].
  cbn [run_alone resume]. unfold send_signal, send_bytes, bind.
  destruct (send_signal_frame e a w) as [[data|x] w1].
  - cbn [emit ret]. apply run_alone_rounds. lia.
  - apply run_alone_finished.
Qed.

(** Whatever is resumed, it has started afterwards. *)
Lemma resume_is_started c w : started (fst (resume e c w)) = true.
Proof.
  destruct c as [a|a data n|a data n|r]; cbn [resume].
  - destruct ((data <- send_signal_frame e a ;; emit (EvSendBytes data) ;; ret data) w)
      as [[data|x] w']; [|reflexivity].
    cbn [fst]. destruct (Z.to_nat (resends a)); reflexivity.
  - destruct (client_write_gatt_char e (uuid a) data w) as [[[]|x] w']; [reflexivity|].
    destruct (send_bytes_except (error_event a) x) as [h|]; [|reflexivity].
    destruct (h w'). reflexivity.
  - cbn. destruct n; reflexivity.
  - reflexivity.
Qed.

(** Past its first stretch a coroutine neither touches the Bridge nor
    hands over a frame. *)
Lemma resume_started_keeps c w :
  started c = true ->
  self (snd (resume e c w)) = self w
  /\ frames_of (snd (resume e c w)) = frames_of w.
Proof.
  destruct c as [a|a data n|a data n|r]; cbn [started resume]; intros Hs.
  - discriminate Hs.
  - pose proof (write_self e (uuid a) data w) as H1.
    pose proof (write_frames e (uuid a) data w) as H2.
    destruct (client_write_gatt_char e (uuid a) data w) as [[[]|x] w'];
      cbn [snd] in *; [split; assumption|].
    unfold send_bytes_except.
    assert (Hh : forall w0,
      self (snd ((set_if_event (error_event a) ;; log_print ERROR msg_send_error) w0))
      = self w0
      /\ frames_of (snd ((set_if_event (error_event a) ;; log_print ERROR msg_send_error) w0))
         = frames_of w0).
    { intros w0. split.
      - apply (preserves_bind self); [apply set_if_event_self|intros _; apply emit_self].
      - apply (preserves_bind frames_of);
          [apply set_if_event_frames|intros _; apply emit_frames; reflexivity]. }
    assert (Hcase : forall h : M unit,
      (forall w0, self (snd (h w0)) = self w0 /\ frames_of (snd (h w0)) = frames_of w0) ->
      self (snd (let '(r, w'') := h w' in (Finished r, w''))) = self w
      /\ frames_of (snd (let '(r, w'') := h w' in (Finished r, w''))) = frames_of w).
    { intros h Hk. destruct (Hk w') as [K1 K2].
      destruct (h w') as [r w'']. cbn [snd] in *. split; congruence. }
    destruct (is_TypeError x || is_BleakError x); [apply Hcase, Hh|].
    destruct x; try (split; assumption); apply Hcase, Hh.
  - cbn. split; [reflexivity|].
    unfold frames_of. cbn. rewrite sent_frames_app, app_nil_r. reflexivity.
  - split; reflexivity.
Qed.

(** The first stretch of a non-random call with proper arguments takes
    the counter's value as message id, hands the frame over and moves
    the counter on, all in one piece. *)
Lemma resume_start_plain a w :
  randrange_ok e -> plain_call (Start a) -> is_byte (next_send_id (self w)) ->
  next_send_id (self (snd (resume e (Start a) w)))
  = (next_send_id (self w) + 1) mod 256
  /\ sent_ids (trace (snd (resume e (Start a) w)))
     = sent_ids (trace w) ++ [next_send_id (self w)].
Proof.
  intros Hr [Ha Hplain] Hid. cbn [resume]. unfold bind.
  rewrite (send_signal_frame_ok e a w Hr Ha Hid).
  cbn [emit ret snd].
  destruct w as [b evs rc wc tr]. cbn. split; [reflexivity|].
  unfold sent_ids. rewrite sent_frames_app, map_app. cbn.
  unfold message_id_of. rewrite Hplain. reflexivity.
Qed.

Lemma update_length pool : forall t c, length (update pool t c) = length pool.
Proof.
  induction pool as [|c0 pool IH]; intros [|t] c; cbn; try reflexivity.
  rewrite IH. reflexivity.
Qed.

Lemma update_same pool : forall t c c0,
  nth_error pool t = Some c0 -> nth_error (update pool t c) t = Some c.
Proof.
  induction pool as [|c1 pool IH]; intros [|t] c c0 H; cbn in *;
    try discriminate H; [reflexivity | exact (IH t c c0 H)].
Qed.

Lemma update_other pool : forall t t' c,
  t <> t' -> nth_error (update pool t c) t' = nth_error pool t'.
Proof.
  induction pool as [|c1 pool IH]; intros [|t] [|t'] c Hne; cbn;
    try reflexivity; try contradiction.
  apply IH. congruence.
Qed.

Lemma update_count pool : forall t c c0,
  nth_error pool t = Some c0 ->
  (count_started (update pool t c) + (if started c0 then 1 else 0)
   = count_started pool + (if started c then 1 else 0))%nat.
Proof.
  unfold count_started.
  induction pool as [|c1 pool IH]; intros [|t] c c0 H; cbn in *;
    try discriminate H.
  - injection H as ->. destruct (started c0), (started c); cbn; lia.
  - specialize (IH t c c0 H). destruct (started c1); cbn; lia.
Qed.

Lemma update_plain pool : forall t c,
  Forall plain_call pool -> plain_call c -> Forall plain_call (update pool t c).
Proof.
  induction pool as [|c1 pool IH]; intros [|t] c Hp Hc; cbn;
    try exact Hp; inversion Hp; subst; constructor; auto.
Qed.

Lemma started_plain c : started c = true -> plain_call c.
Proof. destruct c; cbn; [discriminate | trivial..]. Qed.

Lemma id_range_S c n :
  id_range c (S n) = id_range c n ++ [(c + Z.of_nat n) mod 256].
Proof. unfold id_range. rewrite seq_S, map_app. reflexivity. Qed.

Lemma id_range_length c n : length (id_range c n) = n.
Proof. unfold id_range. rewrite length_map, length_seq. reflexivity. Qed.

Lemma NoDup_map_inj_on {A B} (f : A -> B) l :
  (forall x y, In x l -> In y l -> f x = f y -> x = y) ->
  NoDup l -> NoDup (map f l).
Proof.
  induction l as [|a l IH]; intros Hinj Hnd; cbn.
  - constructor.
  - inversion Hnd as [|? ? Ha Hl]; subst. constructor.
    + intros Hin. apply in_map_iff in Hin. destruct Hin as (y & Hy & Hyl).
      assert (y = a) by (apply Hinj; [right; exact Hyl | left; reflexivity | exact Hy]).
      subst y. contradiction.
    + apply IH; [|exact Hl].
      intros x y Hx Hy. apply Hinj; right; assumption.
Qed.

(** Up to 256 consecutive ids modulo 256 are pairwise distinct. *)
Lemma id_range_NoDup c n : (n <= 256)%nat -> NoDup (id_range c n).
Proof.
  intros Hn. unfold id_range. apply NoDup_map_inj_on; [|apply seq_NoDup].
  intros x y Hx Hy Heq. apply in_seq in Hx, Hy.
  pose proof (Z.div_mod (c + Z.of_nat x) 256 ltac:(lia)) as Dx.
  pose proof (Z.div_mod (c + Z.of_nat y) 256 ltac:(lia)) as Dy.
  rewrite Heq in Dx. lia.
Qed.

Section Schedule.

Variables (base : list Z) (c0 : Z).
Hypothesis Hrand : randrange_ok e.

(** The ids handed out under any schedule: as many as coroutines have
    started, counted up from [c0] without a gap. *)
Lemma run_schedule_ids sched : forall pool w k,
  Forall plain_call pool ->
  count_started pool = k ->
  next_send_id (self w) = (c0 + Z.of_nat k) mod 256 ->
  sent_ids (trace w) = base ++ id_range c0 k ->
  exists k',
    count_started (fst (run_schedule e sched pool w)) = k'
    /\ length (fst (run_schedule e sched pool w)) = length pool
    /\ next_send_id (self (snd (run_schedule e sched pool w)))
       = (c0 + Z.of_nat k') mod 256
    /\ sent_ids (trace (snd (run_schedule e sched pool w)))
       = base ++ id_range c0 k'.
Proof.
  induction sched as [|t sched IH]; intros pool w k Hplain Hcount Hid Hids.
  - exists k. cbn. repeat split; assumption.
  - cbn [run_schedule].
    destruct (nth_error pool t) as [c|] eqn:Hc.
    2:{ apply (IH pool w k); assumption. }
    pose proof (resume_is_started c w) as Hst.
    pose proof (update_count pool t (fst (resume e c w)) c Hc) as Hupd.
    rewrite Hst in Hupd.
    assert (Hplain' : Forall plain_call (update pool t (fst (resume e c w)))).
    { apply update_plain; [exact Hplain | apply started_plain, Hst]. }
    destruct (started c) eqn:Hsc.
    + destruct (resume_started_keeps c w Hsc) as [Hself Hframes].
      destruct (resume e c w) as [c' w']. cbn [fst snd] in *.
      destruct (IH (update pool t c') w' k) as (k' & H1 & H2 & H3 & H4);
        try assumption.
      * lia.
      * rewrite Hself. exact Hid.
      * unfold sent_ids. unfold frames_of in Hframes. rewrite Hframes. exact Hids.
      * exists k'. rewrite update_length in H2. repeat split; assumption.
    + destruct c as [a| | |]; try discriminate Hsc.
      assert (Hpa : plain_call (Start a)).
      { rewrite Forall_forall in Hplain. apply Hplain.
        apply (nth_error_In _ _ Hc). }
      assert (Hbyte : is_byte (next_send_id (self w))).
      { rewrite Hid. apply mod_256_byte. }
      destruct (resume_start_plain a w Hrand Hpa Hbyte) as [Hnext Hsent].
      destruct (resume e (Start a) w) as [c' w']. cbn [fst snd] in *.
      destruct (IH (update pool t c') w' (S k)) as (k' & H1 & H2 & H3 & H4);
        try assumption.
      * lia.
      * rewrite Hnext, Hid, Zplus_mod_idemp_l. f_equal. lia.
      * rewrite Hsent, Hids, Hid, id_range_S, app_assoc. reflexivity.
      * exists k'. rewrite update_length in H2. repeat split; assumption.
Qed.

End Schedule.

(** A coroutine the schedule names has started by the end. *)
Lemma run_schedule_started sched : forall pool w t,
  (In t sched /\ (t < length pool)%nat)
  \/ (exists c, nth_error pool t = Some c /\ started c = true) ->
  exists c,
    nth_error (fst (run_schedule e sched pool w)) t = Some c
    /\ started c = true.
Proof.
  induction sched as [|s sched IH]; intros pool w t Hcase.
  - destruct Hcase as [[[] _] | Hst]. exact Hst.
  - cbn [run_schedule].
    destruct (nth_error pool s) as [c|] eqn:Hc.
    + pose proof (resume_is_started c w) as Hst.
      destruct (resume e c w) as [c' w']. cbn [fst] in Hst.
      apply IH.
      destruct (Nat.eq_dec s t) as [->|Hne].
      * right. exists c'. split; [exact (update_same pool t c' c Hc) | exact Hst].
      * destruct Hcase as [[[Heq | Hin] Hlt] | (c1 & Hc1 & Hs1)].
        -- contradiction.
        -- left. split; [exact Hin | rewrite update_length; exact Hlt].
        -- right. exists c1. rewrite (update_other pool s t c' Hne).
           split; assumption.
    + apply IH.
      destruct Hcase as [[[Heq | Hin] Hlt] | Hst].
      * subst s. apply nth_error_None in Hc. lia.
      * left. split; assumption.
      * right. exact Hst.
Qed.

Lemma all_started_count pool :
  (forall t, (t < length pool)%nat ->
             exists c, nth_error pool t = Some c /\ started c = true) ->
  count_started pool = length pool.
Proof.
  unfold count_started.
  induction pool as [|c pool IH]; intros Hall.
  - reflexivity.
  - destruct (Hall 0%nat ltac:(cbn; lia)) as (c1 & Hc1 & Hs1).
    cbn in Hc1. injection Hc1 as <-.
    cbn [filter]. rewrite Hs1. cbn [length]. f_equal.
    apply IH. intros t Ht. apply (Hall (S t)). cbn. lia.
Qed.

Lemma count_started_le pool : (count_started pool <= length pool)%nat.
Proof. unfold count_started. apply filter_length_le. Qed.

End Coroutines.

Section MessageIdClaim.
Import Codec Sender Spec.

(** C3. Up to 256 non-random send_signal calls on one Bridge, run as
    coroutines under any schedule of the event loop: the message ids of
    the frames they hand over are, in the order of assignment, the
    counter's value and its successors modulo 256, so pairwise distinct
    and without a gap; each coroutine takes its id and advances the
    counter within one uninterrupted stretch; and once every call has
    been scheduled there are as many ids as calls. *)
Theorem message_ids_contiguous (e : env) (w : world)
    (calls : list signal_args) (sched : list nat) :
  randrange_ok e ->
  is_byte (next_send_id (self w)) ->
  (length calls <= 256)%nat ->
  Forall (fun a => valid_args a /\ random_id a = false) calls ->
  let c := next_send_id (self w) in
  let final := run_schedule e sched (map Start calls) w in
  exists ids,
    sent_ids (trace (snd final)) = sent_ids (trace w) ++ ids
    /\ ids = id_range c (length ids)
    /\ NoDup ids
    /\ length ids = count_started (fst final)
    /\ next_send_id (self (snd final)) = (c + Z.of_nat (length ids)) mod 256
    /\ ((forall t, (t < length calls)%nat -> In t sched) ->
        length ids = length calls).
Proof.
  intros Hrand Hbyte Hlen Hcalls c final.
  assert (Hplain : Forall plain_call (map Start calls)).
  { apply Forall_map. exact Hcalls. }
  assert (Hzero : count_started (map Start calls) = 0%nat).
  { unfold count_started. clear.
    induction calls as [|a l IH]; [reflexivity | exact IH]. }
  destruct (run_schedule_ids e (sent_ids (trace w)) c Hrand sched
              (map Start calls) w 0%nat Hplain Hzero)
    as (k & Hk & Hpool & Hnext & Hids).
  { cbn. rewrite Z.add_0_r. symmetry. apply Z.mod_small. exact Hbyte. }
  { cbn. rewrite app_nil_r. reflexivity. }
  fold final in Hk, Hpool, Hnext, Hids.
  rewrite length_map in Hpool.
  assert (Hle : (k <= length calls)%nat).
  { rewrite <- Hk, <- Hpool. apply count_started_le. }
  exists (id_range c k). rewrite id_range_length.
  repeat split.
  - exact Hids.
  - apply id_range_NoDup. lia.
  - symmetry. exact Hk.
  - exact Hnext.
  - intros Hall. rewrite <- Hk, <- Hpool.
    apply all_started_count. intros t Ht.
    apply run_schedule_started. left. split.
    + apply Hall. rewrite <- Hpool. exact Ht.
    + rewrite length_map, <- Hpool. exact Ht.
Qed.

(** Three calls on a counter at 255, their writes interleaved: the ids
    are 255, 0 and 1. *)
Lemma message_ids_contiguous_witness :
  let e := {| randrange_0_255 := fun _ => 9; write_gatt_char := fun _ => None |} in
  let connected :=
    set_client (Some {| cl_device := {| dev_name := "GravitraxConnect";
                                        dev_address := "00:00" |};
                        cl_is_connected := true |})
      (set_next_send_id 255 Bridge_init) in
  let calls := [signal_defaults 0 1; signal_defaults 0 2; signal_defaults 3 3] in
  exists ids,
    sent_ids (trace (snd (run_schedule e [2; 0; 2; 1; 0; 1]%nat (map Start calls)
                            (world_init connected))))
    = ids
    /\ ids = [255; 0; 1]
    /\ NoDup ids.
Proof.
  intros e connected calls.
  destruct (message_ids_contiguous e (world_init connected) calls
              [2; 0; 2; 1; 0; 1]%nat)
    as (ids & Hids & Hrange & Hnd & _ & _ & Hall).
  - intros n. cbn. lia.
  - cbn. unfold is_byte. lia.
  - cbn. lia.
  - assert (Hv : forall s col, is_byte s -> is_byte col ->
               valid_args (signal_defaults s col)
               /\ random_id (signal_defaults s col) = false).
    { intros s col Hs Hcol. split; [|reflexivity].
      unfold valid_args, signal_defaults, is_byte in *. cbn.
      unfold MSG_DEFAULT_HEADER, STONE_BRIDGE. lia. }
    repeat (apply Forall_cons; [apply Hv; unfold is_byte; lia|]).
    apply Forall_nil.
  - exists ids. split; [exact Hids|]. split; [|exact Hnd].
    rewrite Hrange, Hall; [reflexivity|].
    intros t Ht. cbn in Ht.
    destruct t as [|[|[|t]]]; cbn; try lia; tauto.
Defined.

End MessageIdClaim.

(* ----------------------------------------------------------------- *)
(** ** [connect] and the connection state *)

Section ConnectClaim.
Import Session.

(** connect on a Bridge whose link is up: it scans, makes a new client,
    starts a second connection attempt, and returns True. *)
Lemma connect_while_connected :
  is_connected linked_bridge = true
  /\ fst (fst (connect linked_bridge BRIDGE_NAME true 25 None false true
                 willing_transport))
     = Ok (Some true)
  /\ connect_attempts
       (snd (connect linked_bridge BRIDGE_NAME true 25 None false true
               willing_transport))
     = 1%nat.
Proof. repeat split. Qed.

(** C4, amended. connect does not look at the connection state: its
    result and everything it asks of the transport are the same from
    every state of the Bridge; whenever the scan finds a device it makes
    a new client and starts one connection attempt; it returns False
    without an attempt only when the scan finds no device. *)
Theorem connect_ignores_state (self1 self2 : Bridge)
    (name_or_addr : String.string) (by_name : bool) (timeout : Q)
    (dc_callback : option dc_callable) (try_reconnect restart_notifications : bool)
    (env : connect_env) :
  let run self :=
    connect self name_or_addr by_name timeout dc_callback try_reconnect
      restart_notifications env in
  fst (fst (run self1)) = fst (fst (run self2))
  /\ snd (run self1) = snd (run self2)
  /\ (forall device, find_device env = Ok (Some device) ->
      connect_attempts (snd (run self1)) = 1%nat
      /\ In (EvNewClient device) (snd (run self1)))
  /\ (find_device env = Ok None ->
      fst (fst (run self1)) = Ok (Some false)
      /\ connect_attempts (snd (run self1)) = 0%nat).
Proof.
  intros run. unfold run, connect, request_bridge_info, __read_chraceristic.
  destruct env as [fd cc lin mtu rd]. cbn [find_device client_connect is_linux
    acquire_mtu read_gatt_char].
  destruct fd as [[device|]|x].
  - destruct cc as [[]|[]]; destruct lin; destruct mtu as [[]|xm];
      destruct rd as [[|? [|? [|? ?]]]|[]];
      (split; [reflexivity|]); (split; [reflexivity|]);
      (split; [|intros [=]]);
      intros device' [= <-]; (split; [reflexivity|]);
      cbn; tauto.
  - split; [reflexivity|]. split; [reflexivity|]. split.
    + intros device H. discriminate H.
    + intros _. split; reflexivity.
  - split; [reflexivity|]. split; [reflexivity|]. split.
    + intros device H. discriminate H.
    + intros H. discriminate H.
Qed.

End ConnectClaim.

Section ConnectWitness.
Import Session.

(** From a fresh Bridge and from a linked one alike. *)
Lemma connect_ignores_state_witness :
  fst (fst (connect Bridge_init BRIDGE_NAME true 25 None false true willing_transport))
  = fst (fst (connect linked_bridge BRIDGE_NAME true 25 None false true willing_transport))
  /\ connect_attempts
       (snd (connect Bridge_init BRIDGE_NAME true 25 None false true willing_transport))
     = 1%nat.
Proof.
  destruct (connect_ignores_state Bridge_init linked_bridge BRIDGE_NAME true 25
              None false true willing_transport) as (Hres & _ & Hfound & _).
  split; [exact Hres|].
  exact (proj1 (Hfound _ eq_refl)).
Defined.

End ConnectWitness.

(* ----------------------------------------------------------------- *)
(** ** Reconnecting after a lost link *)

Section ReconnectClaim.
Import Session.

(** [connect] leaves the Bridge with the disconnect callback it was
    given. *)
Lemma connect_dc_callback self name_or_addr by_name timeout cb tr rn env :
  dc_callback (snd (fst (connect self name_or_addr by_name timeout cb tr rn env)))
  = cb.
Proof.
  unfold connect, request_bridge_info, __read_chraceristic.
  destruct env as [fd cc lin mtu rd]. cbn [find_device client_connect is_linux
    acquire_mtu read_gatt_char].
  destruct fd as [[device|]|x]; try reflexivity.
  destruct cc as [[]|[]]; try reflexivity;
    destruct lin; destruct mtu as [[]|xm]; try reflexivity;
    destruct rd as [[|? [|? [|? ?]]]|[]]; reflexivity.
Qed.

Lemma dc_calls_app evs1 evs2 :
  dc_calls (evs1 ++ evs2) = dc_calls evs1 ++ dc_calls evs2.
Proof. unfold dc_calls. apply flat_map_app. Qed.

(** [connect] itself calls no disconnect callback. *)
Lemma connect_no_dc_calls self name_or_addr by_name timeout cb tr rn env :
  dc_calls (snd (connect self name_or_addr by_name timeout cb tr rn env)) = [].
Proof.
  unfold connect, request_bridge_info, __read_chraceristic.
  destruct env as [fd cc lin mtu rd]. cbn [find_device client_connect is_linux
    acquire_mtu read_gatt_char].
  destruct fd as [[device|]|x]; try reflexivity.
  destruct cc as [[]|[]]; try reflexivity;
    destruct lin; destruct mtu as [[]|xm]; try reflexivity;
    destruct rd as [[|? [|? [|? ?]]]|[]]; reflexivity.
Qed.

Lemma notification_enable_dc self cb uuid start :
  dc_calls (snd (notification_enable self cb uuid start)) = []
  /\ dc_callback (snd (fst (notification_enable self cb uuid start)))
     = dc_callback self.
Proof.
  unfold notification_enable.
  destruct (client self); [|split; reflexivity].
  destruct start as [[]|[]]; split; reflexivity.
Qed.

(** C9. What the code does when a reconnect fails.  [__reconnect] hands
    [connect] no disconnect callback, so [connect] clears the registered
    one before its first await: from every state and against every
    transport [__reconnect] calls no disconnect callback and leaves none
    registered (the callback being a field only the library assigns
    while the reconnect runs).  After a lost link with a callback registered and
    try_reconnect set, the callback is called once, with by_timeout
    False, by [__disconnect_callback]; a reconnect that runs into its
    deadline only logs the timeout, and one in which [client.connect]
    reports the device gone is logged as a reconnect. *)
Theorem reconnect_failure_unreported (self : Bridge) (address : String.string)
    (env : connect_env) (start_notify : result unit) (cb : dc_callable) :
  dc_calls (snd (__reconnect self address env start_notify)) = []
  /\ dc_callback (snd (fst (__reconnect self address env start_notify))) = None
  /\ dc_calls (snd (connection_lost (watched_bridge cb) "AA:BB"
                      scan_outlasts_deadline (Ok tt)))
     = [(false, false)]
  /\ snd (__reconnect (watched_bridge cb) "AA:BB" scan_outlasts_deadline (Ok tt))
     = [EvScan false "AA:BB" 25; EvLog WARNING msg_reconnect_timeout]
  /\ dc_calls (snd (connection_lost (watched_bridge cb) "AA:BB"
                      device_gone (Ok tt)))
     = [(false, false)]
  /\ fst (fst (__reconnect (watched_bridge cb) "AA:BB" device_gone (Ok tt)))
     = Ok tt
  /\ In (EvLog INFO msg_reconnected)
        (snd (__reconnect (watched_bridge cb) "AA:BB" device_gone (Ok tt))).
Proof.
  split; [|split].
  - unfold __reconnect.
    pose proof (connect_no_dc_calls self address false 25 None true true env) as Hev.
    pose proof (connect_dc_callback self address false 25 None true true env) as Hcb.
    destruct (connect self address false 25 None true true env) as [[r self'] evs].
    cbn [fst snd] in *.
    assert (Hguard : guarded_dc_call self' false true = (Ok tt, [])).
    { unfold guarded_dc_call. rewrite Hcb. reflexivity. }
    destruct r as [v|[]]; cbn [wait_for]; try exact Hev;
      try (rewrite Hguard; cbn [snd]; rewrite !dc_calls_app, Hev; reflexivity).
    destruct (restart_notifications self');
      [|cbn [snd]; rewrite dc_calls_app, Hev; reflexivity].
    destruct (noti_callback self') as [ncb|];
      [|cbn [snd]; rewrite dc_calls_app, Hev; reflexivity].
    destruct (notification_enable_dc self' ncb UUID_NOTIF start_notify) as [Hn _].
    destruct (notification_enable self' ncb UUID_NOTIF start_notify) as [[[b|x] s2] evs2];
      cbn [snd] in *; rewrite !dc_calls_app, Hev, Hn; reflexivity.
  - unfold __reconnect.
    pose proof (connect_dc_callback self address false 25 None true true env) as Hcb.
    destruct (connect self address false 25 None true true env) as [[r self'] evs].
    cbn [fst snd] in *.
    assert (Hguard : guarded_dc_call self' false true = (Ok tt, [])).
    { unfold guarded_dc_call. rewrite Hcb. reflexivity. }
    destruct r as [v|[]]; cbn [wait_for]; try exact Hcb;
      try (rewrite Hguard; exact Hcb).
    destruct (restart_notifications self'); [|exact Hcb].
    destruct (noti_callback self') as [ncb|]; [|exact Hcb].
    destruct (notification_enable_dc self' ncb UUID_NOTIF start_notify) as [_ Hn].
    destruct (notification_enable self' ncb UUID_NOTIF start_notify) as [[[b|x] s2] evs2];
      cbn [fst snd] in *; congruence.
  - unfold connection_lost, __disconnect_callback, guarded_dc_call,
      watched_bridge.
    cbn.
    destruct (cb false false) as [x|]; [destruct x|]; cbn;
      repeat split; tauto.
Qed.

End ReconnectClaim.

(* ----------------------------------------------------------------- *)
(** ** Exceptions of user callbacks *)

Section CallbackExceptions.
Import Codec Handler Spec Session.

(** A callback that raises ValueError: out of the handler on a
    structured signal, and out of [__disconnect_callback]. *)
Lemma callback_exception_propagates :
  fst (fst (__notification_handler
              (set_noti_callback (Some (fun _ => Some ValueError)) Bridge_init)
              [19; 5; 0; 0; 0; 24; 1]))
  = Raise ValueError
  /\ fst (__disconnect_callback
            (set_dc_callback (Some (fun _ _ => Some ValueError)) Bridge_init)
            "AA:BB")
     = Raise ValueError.
Proof. split; reflexivity. Qed.

Lemma not_TypeError e : e <> TypeError -> is_TypeError e = false.
Proof. intros He. destruct e; try reflexivity. contradiction. Qed.

(** In the loop over the frames, a call that raises anything but
    TypeError is the last thing that happens, and what it raised leaves
    the loop. *)
Lemma signal_loop_propagates (cb : noti_callable) data recv_signals :
  forall window r w evs,
    signal_loop (Some cb) data recv_signals window = (r, w, evs) ->
    forall a e,
      In a (noti_calls evs) -> cb a = Some e -> e <> TypeError ->
      r = Raise e /\ exists before, evs = before ++ [EvNotiCallback a].
Proof.
  induction recv_signals as [|s rest IH]; intros window r w evs Hrun a e Hin Hraise He;
    cbn [signal_loop] in Hrun.
  - injection Hrun as <- <- <-. destruct Hin.
  - destruct (accept window s) as [window'|]; [|exact (IH _ _ _ _ Hrun a e Hin Hraise He)].
    destruct (decode s) as [signal|];
      [|injection Hrun as <- <- <-; destruct Hin].
    assert (Hlog : forall l : list event,
              noti_calls ((if checksum_differs signal
                           then [EvLog DEBUG msg_checksum] else []) ++ l)
              = noti_calls l).
    { intros l. destruct (checksum_differs signal); reflexivity. }
    cbn [call_noti] in Hrun.
    destruct (cb (structured signal data)) as [e'|] eqn:Hcall.
    + destruct (is_TypeError e') eqn:Hty.
      * destruct (signal_loop (Some cb) data rest window') as [[r' w'] evs'] eqn:Hrest.
        injection Hrun as <- <- <-.
        rewrite Hlog in Hin. cbn in Hin.
        destruct Hin as [<- | Hin].
        -- rewrite Hcall in Hraise. injection Hraise as <-.
           rewrite (not_TypeError _ He) in Hty. discriminate Hty.
        -- destruct (IH _ _ _ _ Hrest a e Hin Hraise He) as (Hr & before & ->).
           split; [exact Hr|].
           exists ((if checksum_differs signal then [EvLog DEBUG msg_checksum] else [])
                   ++ [EvNotiCallback (structured signal data)]
                   ++ EvLog ERROR msg_noti_failed :: before).
           repeat rewrite <- app_assoc. reflexivity.
      * injection Hrun as <- <- <-.
        rewrite Hlog in Hin. cbn in Hin.
        destruct Hin as [<- | []].
        rewrite Hcall in Hraise. injection Hraise as <-.
        split; [reflexivity|].
        exists (if checksum_differs signal then [EvLog DEBUG msg_checksum] else []).
        reflexivity.
    + destruct (signal_loop (Some cb) data rest window') as [[r' w'] evs'] eqn:Hrest.
      injection Hrun as <- <- <-.
      rewrite Hlog in Hin. cbn in Hin.
      destruct Hin as [<- | Hin].
      * rewrite Hcall in Hraise. discriminate Hraise.
      * destruct (IH _ _ _ _ Hrest a e Hin Hraise He) as (Hr & before & ->).
        split; [exact Hr|].
        exists ((if checksum_differs signal then [EvLog DEBUG msg_checksum] else [])
                ++ [EvNotiCallback (structured signal data)] ++ before).
        repeat rewrite <- app_assoc. reflexivity.
Qed.

(** C8, amended. The dispatch catches TypeError and nothing else.  While
    structured signals are delivered, a TypeError raised by the
    notification callback is caught and logged and the handler goes on
    and returns; in [__disconnect_callback] a TypeError raised by the
    disconnect callback is caught and logged and the callback returns.
    An exception of any other type propagates: a call of the
    notification callback that raises it is the last thing the handler
    does, and the handler raises it; raised by the disconnect callback
    it leaves [__disconnect_callback] before a reconnect is started. *)
Theorem callback_type_errors_caught :
  (forall self (cb : noti_callable) data,
     Forall is_byte data ->
     noti_callback self = Some cb ->
     (forall a, cb a = None \/ cb a = Some TypeError) ->
     scan_frames data <> [] ->
     exists self' evs,
       __notification_handler self data = (Ok tt, self', evs)
       /\ forall frame,
          In frame (scan_frames data) ->
          ~ In (hex_message frame) (last_notifications self) ->
          cb (structured frame data) = Some TypeError ->
          exists before after,
            evs = before
                  ++ EvNotiCallback (structured frame data)
                  :: EvLog ERROR msg_noti_failed :: after)
  /\ (forall self address (cb : dc_callable),
        dc_callback self = Some cb ->
        cb (user_disconnected self) false = Some TypeError ->
        exists after,
          __disconnect_callback self address
          = (Ok tt,
             EvLog INFO msg_disconnected
             :: EvDcCallback (user_disconnected self) false
             :: EvLog ERROR msg_dc_failed :: after))
  /\ (forall self (cb : noti_callable) data a e,
        noti_callback self = Some cb ->
        In a (noti_calls (snd (__notification_handler self data))) ->
        cb a = Some e ->
        e <> TypeError ->
        fst (fst (__notification_handler self data)) = Raise e
        /\ exists before,
             snd (__notification_handler self data) = before ++ [EvNotiCallback a])
  /\ (forall self address (cb : dc_callable) e,
        dc_callback self = Some cb ->
        cb (user_disconnected self) false = Some e ->
        e <> TypeError ->
        __disconnect_callback self address
        = (Raise e,
           [EvLog INFO msg_disconnected;
            EvDcCallback (user_disconnected self) false])).
Proof.
  split; [|split; [|split]].
  - intros self cb data Hb Hcb Hty Hsome.
    destruct (handler_delivers self cb data Hb Hcb Hty Hsome)
      as (self' & evs & Hrun & Hdel).
    exists self', evs. split; [exact Hrun|].
    intros frame Hin Hnew Hraise.
    destruct (Hdel frame Hin Hnew) as (before & after & ->).
    rewrite Hraise.
    exists (before ++ (if checksum_differs frame
                       then [EvLog DEBUG msg_checksum] else [])), after.
    rewrite <- app_assoc. reflexivity.
  - intros self address cb Hcb Hraise.
    unfold __disconnect_callback, guarded_dc_call.
    rewrite Hcb, Hraise. cbn [is_TypeError].
    destruct (negb (user_disconnected self) && try_reconnect self);
      eexists; reflexivity.
  - intros self cb data a e Hcb Hin Hraise He.
    unfold __notification_handler in *. rewrite Hcb in *.
    destruct (length (finditer (hex_message data)) =? 0)%nat.
    + cbn [call_noti] in *.
      destruct (cb (unstructured data)) as [e'|] eqn:Hcall; cbn [fst snd] in *;
        cbn in Hin; destruct Hin as [<- | []];
        rewrite Hcall in Hraise; [|discriminate Hraise].
      injection Hraise as <-.
      split; [reflexivity | exists []; reflexivity].
    + destruct (signal_loop (Some cb) data (finditer (hex_message data))
                  (last_notifications self)) as [[r w] evs] eqn:Hrun.
      cbn [fst snd] in *.
      exact (signal_loop_propagates cb data _ _ _ _ _ Hrun a e Hin Hraise He).
  - intros self address cb e Hcb Hraise He.
    unfold __disconnect_callback, guarded_dc_call.
    rewrite Hcb, Hraise, (not_TypeError _ He). reflexivity.
Qed.

(** A callback with the wrong signature, on one frame and on a lost
    link. *)
Lemma callback_type_errors_caught_witness :
  (exists self' evs,
     __notification_handler
       (set_noti_callback (Some (fun _ => Some TypeError)) Bridge_init)
       [19; 5; 0; 0; 0; 24; 1]
     = (Ok tt, self', evs))
  /\ (exists after,
        __disconnect_callback
          (set_dc_callback (Some (fun _ _ => Some TypeError)) Bridge_init) "AA:BB"
        = (Ok tt,
           EvLog INFO msg_disconnected :: EvDcCallback false false
           :: EvLog ERROR msg_dc_failed :: after))
  /\ fst (fst (__notification_handler
                 (set_noti_callback (Some (fun _ => Some ValueError)) Bridge_init)
                 [19; 5; 0; 0; 0; 24; 1]))
     = Raise ValueError
  /\ __disconnect_callback
       (set_reconnect_flags true true
          (set_dc_callback (Some (fun _ _ => Some ValueError)) Bridge_init))
       "AA:BB"
     = (Raise ValueError, [EvLog INFO msg_disconnected; EvDcCallback false false]).
Proof.
  destruct callback_type_errors_caught as (Hnoti & Hdc & Hprop & Hdcprop).
  split; [|split; [|split]].
  - destruct (Hnoti (set_noti_callback (Some (fun _ => Some TypeError)) Bridge_init)
                (fun _ => Some TypeError) [19; 5; 0; 0; 0; 24; 1])
      as (self' & evs & Hrun & _).
    + repeat constructor; unfold is_byte; lia.
    + reflexivity.
    + intros a. right. reflexivity.
    + discriminate.
    + exists self', evs. exact Hrun.
  - apply (Hdc (set_dc_callback (Some (fun _ _ => Some TypeError)) Bridge_init)
             "AA:BB"%string (fun _ _ => Some TypeError)); reflexivity.
  - apply (Hprop (set_noti_callback (Some (fun _ => Some ValueError)) Bridge_init)
             (fun _ => Some ValueError) [19; 5; 0; 0; 0; 24; 1]
             (structured [19; 5; 0; 0; 0; 24; 1] [19; 5; 0; 0; 0; 24; 1])
             ValueError).
    + reflexivity.
    + left. reflexivity.
    + reflexivity.
    + discriminate.
  - apply (Hdcprop
             (set_reconnect_flags true true
                (set_dc_callback (Some (fun _ _ => Some ValueError)) Bridge_init))
             "AA:BB"%string (fun _ _ => Some ValueError) ValueError);
      [reflexivity | reflexivity | discriminate].
Defined.

End CallbackExceptions.

(* ================================================================= *)
(** * Further properties of the library *)

(* ----------------------------------------------------------------- *)
(** ** [add_checksum] *)

Section AddChecksum.
Import Codec.

(** X1. [calc_checksum] and [add_checksum] answer None exactly on input
    that is not seven long.  On seven elements [add_checksum] raises
    ValueError exactly when an element other than the one at index 5 is
    outside range(256), and raises nothing else; otherwise it returns
    seven bytes, the same as the input but for the checksum at index 5,
    which then is the checksum [calc_checksum] computes of the result;
    stamping a stamped frame again changes nothing. *)
Theorem add_checksum_stamps (data : list Z) (for_received : bool) :
  (calc_checksum data for_received = None <-> length data <> 7%nat)
  /\ (add_checksum data for_received = Ok None <-> length data <> 7%nat)
  /\ (add_checksum data for_received = Raise ValueError <->
      length data = 7%nat
      /\ exists i, (i < 7)%nat /\ i <> 5%nat /\ ~ is_byte (item data i))
  /\ (forall x, add_checksum data for_received = Raise x -> x = ValueError)
  /\ (forall out, add_checksum data for_received = Ok (Some out) ->
      length out = 7%nat
      /\ Forall is_byte out
      /\ (forall i, i <> 5%nat -> item out i = item data i)
      /\ calc_checksum out for_received = Some (item out 5)
      /\ add_checksum out for_received = Ok (Some out)).
Proof.
  unfold add_checksum, calc_checksum.
  destruct (Nat.eqb_spec (length data) 7) as [Hlen | Hlen]; cbn [negb].
  - destruct (length7_inv data Hlen) as (a & b & c & d & e & f & g & ->).
    cbn [item nth].
    set (cs := if for_received
               then ((a + b + c + d + e) mod 256 + g - 1) mod 256
               else (a + b + c + d + e) mod 256).
    assert (Hcs : is_byteb cs = true).
    { apply is_byteb_spec. unfold is_byte, cs.
      destruct for_received; apply Z.mod_pos_bound; lia. }
    assert (Hall : forallb is_byteb [a; b; c; d; e; cs; g] = true <->
                   is_byte a /\ is_byte b /\ is_byte c /\ is_byte d
                   /\ is_byte e /\ is_byte g).
    { cbn [forallb]. rewrite Hcs. rewrite !andb_true_iff, !is_byteb_spec. tauto. }
    destruct (forallb is_byteb [a; b; c; d; e; cs; g]) eqn:Hf.
    + destruct (proj1 Hall eq_refl) as (Ha & Hb & Hc & Hd & He & Hg).
      split; [split; [discriminate | contradiction]|].
      split; [split; [discriminate | contradiction]|].
      split; [split; [discriminate|]|].
      { intros (_ & i & Hi & Hi5 & Hbad). exfalso. apply Hbad.
        do 5 (destruct i as [|i]; [assumption|]).
        destruct i as [|i]; [contradiction|].
        destruct i as [|i]; [assumption | lia]. }
      split; [discriminate|].
      intros out [= <-].
      cbn [length Nat.eqb negb item nth]. fold cs. rewrite Hf.
      split; [reflexivity|].
      split.
      { repeat (apply Forall_cons;
                [first [assumption | apply is_byteb_spec; exact Hcs]|]).
        apply Forall_nil. }
      split; [|split; reflexivity].
      intros i Hi.
      do 7 (destruct i as [|i]; [reflexivity || contradiction|]).
      destruct i; reflexivity.
    + split; [split; [discriminate | contradiction]|].
      split; [split; [discriminate | contradiction]|].
      split.
      { split; [|reflexivity]. intros _. split; [reflexivity|].
        destruct (is_byteb a) eqn:Ea;
          [|exists 0%nat; repeat split; try lia;
            rewrite <- is_byteb_spec; cbn [item nth]; congruence].
        destruct (is_byteb b) eqn:Eb;
          [|exists 1%nat; repeat split; try lia;
            rewrite <- is_byteb_spec; cbn [item nth]; congruence].
        destruct (is_byteb c) eqn:Ec;
          [|exists 2%nat; repeat split; try lia;
            rewrite <- is_byteb_spec; cbn [item nth]; congruence].
        destruct (is_byteb d) eqn:Ed;
          [|exists 3%nat; repeat split; try lia;
            rewrite <- is_byteb_spec; cbn [item nth]; congruence].
        destruct (is_byteb e) eqn:Ee;
          [|exists 4%nat; repeat split; try lia;
            rewrite <- is_byteb_spec; cbn [item nth]; congruence].
        destruct (is_byteb g) eqn:Eg;
          [|exists 6%nat; repeat split; try lia;
            rewrite <- is_byteb_spec; cbn [item nth]; congruence].
        exfalso. cbn [forallb] in Hf.
        rewrite Ea, Eb, Ec, Ed, Ee, Eg, Hcs in Hf. discriminate Hf. }
      split; [intros x [= <-]; reflexivity | discriminate].
  - split; [split; [intros _; exact Hlen | reflexivity]|].
    split; [split; [intros _; exact Hlen | reflexivity]|].
    split; [split; [discriminate | intros [H _]; contradiction]|].
    split; discriminate.
Qed.

(** The first frame of the library's checksum test, a short input, and
    a frame whose header is 300. *)
Lemma add_checksum_stamps_witness :
  calc_checksum [19; 5; 0; 0; 0; 24; 1] false = Some 24
  /\ add_checksum [1; 2; 3] false = Ok None
  /\ add_checksum [300; 0; 0; 0; 0; 0; 1] false = Raise ValueError.
Proof.
  destruct (add_checksum_stamps [19; 5; 0; 0; 0; 0; 1] false) as (_ & _ & _ & _ & Hout).
  destruct (Hout [19; 5; 0; 0; 0; 24; 1] eq_refl) as (_ & _ & _ & Hsum & _).
  split; [exact Hsum|].
  destruct (add_checksum_stamps [1; 2; 3] false) as (_ & Hnone & _).
  split; [apply Hnone; discriminate|].
  destruct (add_checksum_stamps [300; 0; 0; 0; 0; 0; 1] false) as (_ & _ & Hbad & _).
  apply Hbad. split; [reflexivity|].
  exists 0%nat. split; [lia|]. split; [discriminate|].
  cbn. unfold is_byte. lia.
Defined.

(** X2. On a frame of seven bytes the inbound checksum equals the
    outbound one exactly when the colour byte is 1.  So a frame stamped
    for sending passes the handler's checksum test when it comes back
    unchanged only if its colour is 1. *)
Theorem inbound_is_outbound_iff_red (data : list Z) :
  length data = 7%nat ->
  is_byte (item data 6) ->
  (calc_checksum data true = calc_checksum data false <-> item data 6 = 1)
  /\ (forall out, add_checksum data false = Ok (Some out) ->
      Handler.checksum_differs out = negb (item data 6 =? 1)).
Proof.
  intros Hlen Hcol.
  destruct (length7_inv data Hlen) as (a & b & c & d & e & f & g & ->).
  unfold is_byte in Hcol. cbn [item nth] in Hcol.
  assert (Hiff : ((a + b + c + d + e) mod 256 + g - 1) mod 256
                 = (a + b + c + d + e) mod 256 <-> g = 1).
  { pose proof (Z.mod_pos_bound (a + b + c + d + e) 256 ltac:(lia)) as Hm.
    set (m := (a + b + c + d + e) mod 256) in *.
    split.
    - intros Heq.
      pose proof (Z.div_mod (m + g - 1) 256 ltac:(lia)) as Hdm.
      rewrite Heq in Hdm. lia.
    - intros ->. replace (m + 1 - 1) with m by lia.
      apply Z.mod_small. exact Hm. }
  split.
  - unfold calc_checksum. cbn [length Nat.eqb negb item nth].
    split.
    + intros [= H]. apply Hiff. exact H.
    + intros H. f_equal. apply Hiff. exact H.
  - unfold add_checksum, calc_checksum.
    cbn [length Nat.eqb negb item nth].
    destruct (forallb is_byteb [a; b; c; d; e; (a + b + c + d + e) mod 256; g]);
      [|discriminate].
    intros out [= <-].
    unfold Handler.checksum_differs, calc_checksum.
    cbn [length Nat.eqb negb item nth].
    f_equal.
    destruct (Z.eqb_spec g 1) as [Hg | Hg].
    + apply Z.eqb_eq. symmetry. apply Hiff. exact Hg.
    + apply Z.eqb_neq. intros Heq. apply Hg. apply Hiff. symmetry. exact Heq.
Qed.

(** Colour 2: the checksums are 24 and 25. *)
Lemma inbound_is_outbound_iff_red_witness :
  Handler.checksum_differs [19; 5; 0; 0; 0; 24; 2] = true.
Proof.
  destruct (inbound_is_outbound_iff_red [19; 5; 0; 0; 0; 0; 2] eq_refl) as [_ H].
  - cbn. unfold is_byte. lia.
  - exact (H _ eq_refl).
Defined.

End AddChecksum.

(* ----------------------------------------------------------------- *)
(** ** The handler's window and its callbacks *)

Section HandlerWindow.
Import Codec Handler Spec.

Lemma NoDup_skipn {A} n : forall l : list A, NoDup l -> NoDup (skipn n l).
Proof.
  induction n as [|n IH]; intros [|x l] Hnd; cbn; try assumption.
  inversion Hnd; subst. apply IH. assumption.
Qed.

Lemma NoDup_snoc {A} (l : list A) x : NoDup l -> ~ In x l -> NoDup (l ++ [x]).
Proof.
  intros Hnd Hx. induction l as [|y l IH]; cbn.
  - constructor; [intros [] | constructor].
  - inversion Hnd; subst. constructor.
    + intros Hin. apply in_app_or in Hin. destruct Hin as [Hin | [-> | []]].
      * contradiction.
      * apply Hx. left. reflexivity.
    + apply IH; [assumption|]. intros Hin. apply Hx. right. exact Hin.
Qed.

(** What [accept] keeps: the window stays free of repetitions and within
    twelve entries, and holds nothing but old entries and the new one. *)
Lemma accept_keeps window s w :
  accept window s = Some w ->
  (NoDup window -> NoDup w)
  /\ (length w <= 12)%nat
  /\ incl w (window ++ [s]).
Proof.
  unfold accept. destruct (in_dec str_eq_dec s window) as [Hin|Hnin];
    [discriminate|].
  intros [= <-]. rewrite pop_while_over_12_skipn. repeat split.
  - intros Hnd. apply NoDup_skipn, NoDup_snoc; assumption.
  - rewrite length_skipn. lia.
  - intros x Hx. exact (In_skipn x _ _ Hx).
Qed.

Lemma signal_loop_keeps cb data recv_signals : forall window,
  let w := snd (fst (signal_loop cb data recv_signals window)) in
  (NoDup window -> NoDup w)
  /\ ((length window <= 12)%nat -> (length w <= 12)%nat)
  /\ incl w (window ++ recv_signals).
Proof.
  induction recv_signals as [|s rest IH]; intros window.
  - cbn. repeat split; auto. rewrite app_nil_r. apply incl_refl.
  - cbn [signal_loop].
    assert (Hold : incl (window ++ rest) (window ++ s :: rest)).
    { intros x Hx. apply in_app_or in Hx. apply in_or_app.
      destruct Hx; [left | right; right]; assumption. }
    destruct (accept window s) as [w'|] eqn:Hacc.
    + destruct (accept_keeps window s w' Hacc) as (Hnd & Hlen & Hincl).
      assert (Hnew : incl (w' ++ rest) (window ++ s :: rest)).
      { intros x Hx. apply in_app_or in Hx. destruct Hx as [Hx | Hx].
        - apply Hincl in Hx. apply in_app_or in Hx. apply in_or_app.
          destruct Hx as [Hx | [-> | []]]; [left | right; left]; auto.
        - apply in_or_app. right. right. exact Hx. }
      assert (Hstop : (NoDup window -> NoDup w')
                      /\ ((length window <= 12)%nat -> (length w' <= 12)%nat)
                      /\ incl w' (window ++ s :: rest)).
      { repeat split; auto.
        intros x Hx. apply Hnew. apply in_or_app. left. exact Hx. }
      assert (Hgo : forall r w evs,
                signal_loop cb data rest w' = (r, w, evs) ->
                (NoDup window -> NoDup w)
                /\ ((length window <= 12)%nat -> (length w <= 12)%nat)
                /\ incl w (window ++ s :: rest)).
      { intros r w evs Hrun. specialize (IH w'). rewrite Hrun in IH.
        cbn [fst snd] in IH. destruct IH as (I1 & I2 & I3).
        repeat split; auto.
        intros x Hx. apply Hnew, I3, Hx. }
      destruct (decode s) as [signal|]; [|exact Hstop].
      destruct (call_noti cb (structured signal data)) as [[x|] call].
      * destruct (is_TypeError x); [|exact Hstop].
        destruct (signal_loop cb data rest w') as [[r w] evs] eqn:Hrun.
        exact (Hgo r w evs eq_refl).
      * destruct (signal_loop cb data rest w') as [[r w] evs] eqn:Hrun.
        exact (Hgo r w evs eq_refl).
    + destruct (IH window) as (I1 & I2 & I3).
      repeat split; auto.
      intros x Hx. apply Hold, I3, Hx.
Qed.

(** X3. Whatever the payload and whatever the callback does, the handler
    leaves the window free of repeated entries and within twelve
    entries; what it adds are dumps of byte runs the regular expression
    matched in this payload; and it changes no other field of the
    Bridge. *)
Theorem handler_keeps_window (self : Bridge) (data : list Z) :
  let self' := snd (fst (__notification_handler self data)) in
  (NoDup (last_notifications self) -> NoDup (last_notifications self'))
  /\ ((length (last_notifications self) <= 12)%nat ->
      (length (last_notifications self') <= 12)%nat)
  /\ incl (last_notifications self')
          (last_notifications self ++ finditer (hex_message data))
  /\ set_last_notifications (last_notifications self) self' = self.
Proof.
  unfold __notification_handler.
  destruct (length (finditer (hex_message data)) =? 0)%nat.
  - destruct (call_noti (noti_callback self) (unstructured data)) as [[x|] call];
      cbn [fst snd]; (repeat split; auto;
        [intros y Hy; apply in_or_app; left; exact Hy | destruct self; reflexivity]).
  - pose proof (signal_loop_keeps (noti_callback self) data
                  (finditer (hex_message data)) (last_notifications self)) as H.
    destruct (signal_loop (noti_callback self) data (finditer (hex_message data))
                (last_notifications self)) as [[r w] evs].
    cbn [fst snd] in *. destruct H as (H1 & H2 & H3).
    repeat split; auto. destruct self; reflexivity.
Qed.

(** A fresh Bridge and one frame. *)
Lemma handler_keeps_window_witness :
  (length (last_notifications
             (snd (fst (__notification_handler Bridge_init
                          [19; 5; 0; 0; 0; 24; 1]%Z)))) <= 12)%nat.
Proof.
  destruct (handler_keeps_window Bridge_init [19; 5; 0; 0; 0; 24; 1])
    as (_ & Hlen & _).
  apply Hlen. cbn. lia.
Defined.

End HandlerWindow.

Section HandlerCallbacks.
Import Codec Handler Spec.

Lemma noti_calls_log lv text evs :
  noti_calls (EvLog lv text :: evs) = noti_calls evs.
Proof. reflexivity. Qed.

Lemma noti_calls_checksum_log (b : bool) evs :
  noti_calls ((if b then [EvLog DEBUG msg_checksum] else []) ++ evs)
  = noti_calls evs.
Proof. destruct b; reflexivity. Qed.

Lemma noti_calls_call cb args evs :
  noti_calls (snd (call_noti cb args) ++ evs)
  = match cb with Some _ => [args] | None => [] end ++ noti_calls evs.
Proof. destruct cb; reflexivity. Qed.

(** Every callback of the loop carries a decoded frame of this
    notification. *)
Lemma signal_loop_calls cb data recv_signals : forall window a,
  In a (noti_calls (snd (signal_loop cb data recv_signals window))) ->
  exists s f, In s recv_signals /\ decode s = Some f /\ a = structured f data.
Proof.
  induction recv_signals as [|s rest IH]; intros window a Hin.
  - cbn in Hin. contradiction.
  - cbn [signal_loop] in Hin.
    assert (Hrest : forall w,
      In a (noti_calls (snd (signal_loop cb data rest w))) ->
      exists s0 f, In s0 (s :: rest) /\ decode s0 = Some f /\ a = structured f data).
    { intros w Hw. destruct (IH w a Hw) as (s0 & f & H1 & H2 & H3).
      exists s0, f. repeat split; auto. right. exact H1. }
    destruct (accept window s) as [w'|]; [|exact (Hrest window Hin)].
    destruct (decode s) as [signal|] eqn:Hdec; [|cbn in Hin; contradiction].
    assert (Hhead : forall tail,
      In a (noti_calls
              ((if checksum_differs signal then [EvLog DEBUG msg_checksum] else [])
               ++ snd (call_noti cb (structured signal data)) ++ tail)) ->
      a = structured signal data \/ In a (noti_calls tail)).
    { intros tail H. rewrite noti_calls_checksum_log, noti_calls_call in H.
      apply in_app_or in H. destruct H as [H | H]; [left | right; exact H].
      destruct cb; [destruct H as [<- | []]; reflexivity | destruct H]. }
    assert (Hthis : a = structured signal data ->
      exists s0 f, In s0 (s :: rest) /\ decode s0 = Some f /\ a = structured f data).
    { intros ->. exists s, signal. repeat split; auto. left. reflexivity. }
    destruct (call_noti cb (structured signal data)) as [[x|] call] eqn:Hcall;
      cbn [snd] in Hhead.
    + destruct (is_TypeError x).
      * pose proof (Hrest w') as Hr.
        destruct (signal_loop cb data rest w') as [[r w] evs].
        cbn [snd] in *.
        destruct (Hhead (EvLog ERROR msg_noti_failed :: evs) Hin) as [H | H];
          [exact (Hthis H) | exact (Hr H)].
      * cbn [snd] in Hin.
        destruct (Hhead [] ltac:(rewrite app_nil_r; exact Hin)) as [H | []].
        exact (Hthis H).
    + pose proof (Hrest w') as Hr.
      destruct (signal_loop cb data rest w') as [[r w] evs].
      cbn [snd] in *.
      destruct (Hhead evs Hin) as [H | H]; [exact (Hthis H) | exact (Hr H)].
Qed.

(** X4. The callbacks of one notification are of one kind: with no frame
    in the payload nothing but the unstructured call is made, and with a
    frame in it every call carries the seven fields of a frame of this
    payload, header 19; the raw payload is passed along in every call. *)
Theorem handler_calls_are_frames (self : Bridge) (data : list Z) (a : noti_args) :
  Forall is_byte data ->
  In a (noti_calls (snd (__notification_handler self data))) ->
  Data a = data
  /\ ((scan_frames data = [] /\ a = unstructured data)
      \/ (exists frame,
            In frame (scan_frames data)
            /\ a = structured frame data
            /\ Header a = Some 19)).
Proof.
  intros Hb Hin. unfold __notification_handler in Hin.
  rewrite (finditer_hex_message data Hb) in Hin.
  destruct (scan_frames data) as [|f0 fs] eqn:Hscan.
  - cbn [map length Nat.eqb] in Hin.
    assert (Ha : a = unstructured data).
    { destruct (noti_callback self) as [cb|]; cbn in Hin.
      - destruct (cb (unstructured data)); cbn in Hin;
          destruct Hin as [<- | []]; reflexivity.
      - destruct Hin. }
    subst a. split; [reflexivity|]. left. split; reflexivity.
  - cbn [map length Nat.eqb] in Hin.
    pose proof (signal_loop_calls (noti_callback self) data
                  (hex_message f0 :: map hex_message fs)
                  (last_notifications self) a) as Hcalls.
    destruct (signal_loop (noti_callback self) data
                (hex_message f0 :: map hex_message fs) (last_notifications self))
      as [[r w] evs].
    cbn [snd] in *.
    destruct (Hcalls Hin) as (s & f & Hs & Hdec & ->).
    change (hex_message f0 :: map hex_message fs)
      with (map hex_message (f0 :: fs)) in Hs.
    apply in_map_iff in Hs. destruct Hs as (frame & <- & Hframe).
    rewrite <- Hscan in Hframe.
    destruct (scan_frames_shape data frame Hb Hframe) as (Hlen & Hhd & Hbf).
    rewrite (decode_hex_message frame Hlen Hbf) in Hdec.
    injection Hdec as <-.
    split; [reflexivity|]. right. exists frame.
    split; [rewrite Hscan in Hframe; exact Hframe|]. split; [reflexivity|].
    unfold structured. cbn [Header]. rewrite Hhd. reflexivity.
Qed.

(** One frame in the payload. *)
Lemma handler_calls_are_frames_witness :
  Data (structured [19; 5; 0; 0; 0; 24; 1] [19; 5; 0; 0; 0; 24; 1])
  = [19; 5; 0; 0; 0; 24; 1].
Proof.
  refine (proj1 (handler_calls_are_frames
                   (set_noti_callback (Some (fun _ => None)) Bridge_init)
                   [19; 5; 0; 0; 0; 24; 1]
                   (structured [19; 5; 0; 0; 0; 24; 1] [19; 5; 0; 0; 0; 24; 1])
                   _ _)).
  - repeat constructor; unfold is_byte; lia.
  - vm_compute. left. reflexivity.
Defined.

(** The payloads without a frame: no byte 19 has six bytes behind it. *)
Lemma scan_frames_from_nil data :
  scan_frames_from 0 data = []
  <-> forall i, nth_error data i = Some 19 -> (length data < i + 7)%nat.
Proof.
  induction data as [|b data IH].
  - split; [|reflexivity]. intros _ [|i] H; discriminate H.
  - cbn [scan_frames_from].
    destruct ((b =? 19) && (7 <=? length (b :: data))%nat) eqn:Hhit.
    + apply andb_true_iff in Hhit. destruct Hhit as [H19 Hlen].
      apply Z.eqb_eq in H19. apply Nat.leb_le in Hlen. subst b.
      split; [discriminate|].
      intros Hall. specialize (Hall 0%nat eq_refl). lia.
    + rewrite IH. apply andb_false_iff in Hhit.
      split.
      * intros Hall [|i] Hi.
        -- cbn in Hi. injection Hi as ->.
           destruct Hhit as [Hne | Hshort].
           ++ discriminate Hne.
           ++ apply Nat.leb_gt in Hshort. lia.
        -- cbn in Hi. specialize (Hall i Hi). cbn [length]. lia.
      * intros Hall i Hi. specialize (Hall (S i) Hi). cbn [length] in Hall. lia.
Qed.

(** X7. The unstructured call is made exactly for the payloads in which
    no byte 19 has six more bytes behind it; in particular for every
    payload shorter than seven bytes. *)
Theorem unstructured_iff_no_frame (self : Bridge) (cb : noti_callable)
    (data : list Z) :
  Forall is_byte data ->
  noti_callback self = Some cb ->
  (noti_calls (snd (__notification_handler self data)) = [unstructured data]
   <-> forall i, nth_error data i = Some 19 -> (length data < i + 7)%nat)
  /\ ((length data < 7)%nat ->
      noti_calls (snd (__notification_handler self data)) = [unstructured data]).
Proof.
  intros Hb Hcb.
  assert (Hiff : noti_calls (snd (__notification_handler self data))
                 = [unstructured data]
                 <-> scan_frames data = []).
  { split.
    - intros Hcalls.
      destruct (handler_calls_are_frames self data (unstructured data) Hb)
        as (_ & [[Hnil _] | (frame & _ & Habs & _)]).
      + rewrite Hcalls. left. reflexivity.
      + exact Hnil.
      + discriminate Habs.
    - intros Hnil. unfold __notification_handler.
      rewrite (finditer_hex_message data Hb), Hnil, Hcb.
      cbn [map length Nat.eqb call_noti].
      destruct (cb (unstructured data)); reflexivity. }
  split.
  - rewrite Hiff. apply scan_frames_from_nil.
  - intros Hshort. apply Hiff. apply scan_frames_from_nil.
    intros i Hi. lia.
Qed.

(** A header byte with five bytes behind it. *)
Lemma unstructured_iff_no_frame_witness :
  noti_calls (snd (__notification_handler
                     (set_noti_callback (Some (fun _ => None)) Bridge_init)
                     [19; 5; 0; 0; 0; 24]))
  = [unstructured [19; 5; 0; 0; 0; 24]].
Proof.
  refine (proj2 (unstructured_iff_no_frame
                   (set_noti_callback (Some (fun _ => None)) Bridge_init)
                   (fun _ => None) [19; 5; 0; 0; 0; 24] _ eq_refl) _).
  - repeat constructor; unfold is_byte; lia.
  - cbn. lia.
Defined.

End HandlerCallbacks.

Section Delivery.
Import Codec Handler Spec.

Lemma passed_all {A} (frames : list A) :
  passed (repeat true (length frames)) frames = frames.
Proof.
  unfold passed. induction frames as [|f frames IH]; cbn; [reflexivity|].
  f_equal. exact IH.
Qed.

(** With a callback that raises nothing but TypeError, the loop calls
    back for the frames the duplicate filter passes, in their order, and
    leaves the window the filter leaves. *)
Lemma signal_loop_passed (cb : noti_callable) (data : list Z) :
  (forall a, cb a = None \/ cb a = Some TypeError) ->
  forall frames window,
  Forall (fun f => length f = 7%nat /\ Forall is_byte f) frames ->
  exists evs,
    signal_loop (Some cb) data (map hex_message frames) window
    = (Ok tt, snd (feed window (map hex_message frames)), evs)
    /\ noti_calls evs
       = map (fun f => structured f data)
           (passed (fst (feed window (map hex_message frames))) frames).
Proof.
  intros Hcb.
  induction frames as [|f frames IH]; intros window Hshape.
  - exists []. split; reflexivity.
  - inversion Hshape as [|? ? [Hlen Hbf] Hrest]; subst.
    cbn [map signal_loop feed].
    destruct (accept window (hex_message f)) as [w'|].
    + rewrite (decode_hex_message f Hlen Hbf). cbn [call_noti].
      destruct (IH w' Hrest) as (evs & Hrun & Hcalls).
      destruct (feed w' (map hex_message frames)) as [answers w] eqn:Hfeed.
      cbn [fst snd] in *.
      destruct (Hcb (structured f data)) as [-> | ->]; cbn [is_TypeError];
        rewrite Hrun; eexists; (split; [reflexivity|]);
        rewrite noti_calls_checksum_log; cbn [app noti_calls flat_map];
        fold (noti_calls evs); try rewrite noti_calls_log;
        unfold passed; cbn [combine filter fst map snd];
        fold (passed answers frames); rewrite <- Hcalls; reflexivity.
    + destruct (IH window Hrest) as (evs & Hrun & Hcalls).
      destruct (feed window (map hex_message frames)) as [answers w] eqn:Hfeed.
      cbn [fst snd] in *.
      exists evs. split; [exact Hrun|].
      rewrite Hcalls. reflexivity.
Qed.

(** Frames laid end to end are found again one by one. *)
Lemma scan_frames_from_skip l : forall rest,
  scan_frames_from (length l) (l ++ rest) = scan_frames_from 0 rest.
Proof.
  induction l as [|x l IH]; intros rest.
  - reflexivity.
  - cbn [length app scan_frames_from]. apply IH.
Qed.

Lemma scan_frames_concat frames :
  Forall (fun f => length f = 7%nat /\ item f 0 = 19) frames ->
  scan_frames (concat frames) = frames.
Proof.
  unfold scan_frames.
  induction frames as [|f frames IH]; intros Hshape.
  - reflexivity.
  - inversion Hshape as [|? ? [Hlen Hhd] Hrest]; subst.
    destruct (length7_inv f Hlen) as (a & b & c & d & e & g & h & ->).
    cbn in Hhd. subst a.
    cbn [concat app scan_frames_from].
    change (19 =? 19) with true. cbn [andb length].
    change (7 <=? S (S (S (S (S (S (S (length (concat frames)))))))))%nat with true.
    cbn [firstn]. f_equal.
    etransitivity;
      [exact (scan_frames_from_skip [b; c; d; e; g; h] (concat frames))|].
    apply IH. exact Hrest.
Qed.

(** X5. With a callback that raises nothing but TypeError, the handler
    returns, the window ends as the duplicate filter leaves it, and the
    callbacks are exactly the frames of the payload that the filter
    passes, in the order of the payload.  New, distinct frames laid end
    to end in one notification are each delivered once, in order. *)
Theorem handler_delivers_passed (self : Bridge) (cb : noti_callable)
    (data : list Z) :
  Forall is_byte data ->
  noti_callback self = Some cb ->
  (forall a, cb a = None \/ cb a = Some TypeError) ->
  scan_frames data <> [] ->
  let dumps := map hex_message (scan_frames data) in
  let filtered := feed (last_notifications self) dumps in
  (exists evs,
     __notification_handler self data
     = (Ok tt, set_last_notifications (snd filtered) self, evs)
     /\ noti_calls evs
        = map (fun f => structured f data) (passed (fst filtered) (scan_frames data)))
  /\ (forall frames,
        data = concat frames ->
        Forall (fun f => length f = 7%nat /\ item f 0 = 19) frames ->
        NoDup frames ->
        (forall f, In f frames -> ~ In (hex_message f) (last_notifications self)) ->
        (length (last_notifications self) <= 12)%nat ->
        noti_calls (snd (__notification_handler self data))
        = map (fun f => structured f data) frames).
Proof.
  intros Hb Hcb Hty Hsome dumps filtered.
  assert (Hshape : Forall (fun f => length f = 7%nat /\ Forall is_byte f)
                     (scan_frames data)).
  { apply Forall_forall. intros f Hf.
    destruct (scan_frames_shape data f Hb Hf) as (H1 & _ & H3). split; assumption. }
  destruct (signal_loop_passed cb data Hty (scan_frames data)
              (last_notifications self) Hshape) as (evs & Hrun & Hcalls).
  assert (Hhandler : __notification_handler self data
                     = (Ok tt, set_last_notifications (snd filtered) self, evs)).
  { unfold __notification_handler.
    rewrite (finditer_hex_message data Hb), Hcb, Hrun.
    destruct (scan_frames data); [contradiction | reflexivity]. }
  split.
  - exists evs. split; [exact Hhandler | exact Hcalls].
  - intros frames Hdata Hframes Hnd Hnew Hcap.
    rewrite Hhandler. cbn [snd]. rewrite Hcalls.
    assert (Hscan : scan_frames data = frames).
    { rewrite Hdata. apply scan_frames_concat. exact Hframes. }
    assert (Hbytes : Forall (Forall is_byte) frames).
    { apply Forall_forall. intros f Hf. rewrite <- Hscan in Hf.
      apply (scan_frames_shape data f Hb Hf). }
    unfold filtered, dumps. rewrite Hscan.
    rewrite (feed_distinct (map hex_message frames) (last_notifications self) Hcap).
    + cbn [fst]. rewrite length_map, passed_all. reflexivity.
    + apply NoDup_hex_message; assumption.
    + intros s Hs. apply in_map_iff in Hs. destruct Hs as (f & <- & Hf).
      apply Hnew. exact Hf.
Qed.

(** Two frames in one notification, on a fresh Bridge. *)
Lemma handler_delivers_passed_witness :
  let data := [19; 5; 0; 0; 0; 24; 1] ++ [19; 5; 0; 0; 1; 26; 3] in
  noti_calls (snd (__notification_handler
                     (set_noti_callback (Some (fun _ => None)) Bridge_init) data))
  = [structured [19; 5; 0; 0; 0; 24; 1] data;
     structured [19; 5; 0; 0; 1; 26; 3] data].
Proof.
  intros data.
  destruct (handler_delivers_passed
              (set_noti_callback (Some (fun _ => None)) Bridge_init)
              (fun _ => None) data) as [_ Hall].
  - repeat constructor; unfold is_byte; lia.
  - reflexivity.
  - intros a. left. reflexivity.
  - vm_compute. discriminate.
  - apply (Hall [[19; 5; 0; 0; 0; 24; 1]; [19; 5; 0; 0; 1; 26; 3]]).
    + reflexivity.
    + repeat constructor.
    + repeat constructor; cbn; intuition discriminate.
    + intros f _ [].
    + cbn. lia.
Defined.

End Delivery.

Section Forgetting.
Import Codec Handler Spec.

Lemma feed_app frames1 : forall window frames2,
  feed window (frames1 ++ frames2)
  = (fst (feed window frames1) ++ fst (feed (snd (feed window frames1)) frames2),
     snd (feed (snd (feed window frames1)) frames2)).
Proof.
  induction frames1 as [|f frames1 IH]; intros window frames2.
  - cbn. destruct (feed window frames2); reflexivity.
  - cbn [app feed].
    destruct (accept window f) as [w'|].
    + rewrite (IH w' frames2).
      destruct (feed w' frames1) as [a1 w1]. cbn [fst snd].
      destruct (feed w1 frames2) as [a2 w2]. reflexivity.
    + rewrite (IH window frames2).
      destruct (feed window frames1) as [a1 w1]. cbn [fst snd].
      destruct (feed w1 frames2) as [a2 w2]. reflexivity.
Qed.

(** X6. The window forgets: a frame that comes again after other,
    distinct frames is held while fewer than twelve of them have passed
    since, and passes again once twelve have. *)
Theorem window_forgets (frame : list Z) (others : list (list Z)) :
  Forall is_byte frame ->
  Forall (Forall is_byte) others ->
  NoDup (frame :: others) ->
  fst (feed [] (map hex_message (frame :: others ++ [frame])))
  = repeat true (S (length others)) ++ [(12 <=? length others)%nat].
Proof.
  intros Hbf Hbo Hnd.
  assert (Hnd' : NoDup (map hex_message (frame :: others))).
  { apply NoDup_hex_message; [constructor; assumption | exact Hnd]. }
  change (frame :: others ++ [frame]) with ((frame :: others) ++ [frame]).
  rewrite map_app, feed_app.
  rewrite (feed_distinct (map hex_message (frame :: others)) []);
    [| cbn; lia | exact Hnd' | intros f _ []].
  cbn [fst snd app]. rewrite length_map. cbn [length].
  f_equal.
  cbn [map feed].
  set (dumps := hex_message frame :: map hex_message others) in *.
  inversion Hnd' as [|? ? Hfresh Hrest]; subst.
  destruct (Nat.leb_spec 12 (length others)) as [Hfull | Hroom].
  - replace (S (length others) - 12)%nat with (S (length others - 12)) by lia.
    unfold dumps. cbn [skipn].
    rewrite accept_new.
    + reflexivity.
    + intros Hin. apply In_skipn in Hin. contradiction.
  - replace (S (length others) - 12)%nat with 0%nat by lia.
    unfold dumps. cbn [skipn].
    rewrite accept_held by (left; reflexivity).
    reflexivity.
Qed.

(** The frame again after one other frame: held. *)
Lemma window_forgets_witness :
  fst (feed [] (map hex_message
                  [[19; 5; 0; 0; 0; 24; 1]; [19; 5; 0; 0; 1; 25; 1];
                   [19; 5; 0; 0; 0; 24; 1]]))
  = [true; true; false].
Proof.
  apply (window_forgets [19; 5; 0; 0; 0; 24; 1] [[19; 5; 0; 0; 1; 25; 1]]).
  - repeat constructor; unfold is_byte; lia.
  - repeat constructor; unfold is_byte; lia.
  - repeat constructor; cbn; intuition discriminate.
Defined.

End Forgetting.

(* ----------------------------------------------------------------- *)
(** ** [send_bytes] and [send_signal]: every way they end *)

Section SendOutcomes.
Import Codec Sender.
Local Open Scope sender_scope.

Variable e : env.

Lemma rounds_trace_S u d gap n :
  rounds_trace u d gap (S n) = EvWrite u d :: EvSleep gap :: rounds_trace u d gap n.
Proof. reflexivity. Qed.

Lemma write_loop_all u d gap n : forall w,
  client (self w) <> None ->
  (forall j, (j < n)%nat -> write_gatt_char e (write_calls w + j) = None) ->
  write_loop e u d gap n w
  = (Ok tt, with_write_calls (write_calls w + n)
              (with_trace (trace w ++ rounds_trace u d gap n) w)).
Proof.
  induction n as [|n IH]; intros w Hcl Hok.
  - destruct w as [b evs rc wc tr].
    unfold with_write_calls, with_trace, rounds_trace. cbn.
    rewrite app_nil_r, Nat.add_0_r. reflexivity.
  - cbn [write_loop]. unfold bind at 1. unfold client_write_gatt_char.
    destruct (client (self w)) as [c|] eqn:Hc; [|contradiction].
    pose proof (Hok 0%nat ltac:(lia)) as H0. rewrite Nat.add_0_r in H0.
    rewrite H0.
    unfold bind at 1. unfold asyncio_sleep, emit.
    set (w1 := with_trace _ _).
    rewrite (IH w1).
    + unfold w1. rewrite rounds_trace_S. destruct w as [b evs rc wc tr].
      unfold with_write_calls, with_trace. cbn -[rounds_trace].
      rewrite <- !app_assoc. cbn [app].
      replace (wc + S n)%nat with (S (wc + n)) by lia. reflexivity.
    + unfold w1. cbn. rewrite Hc. discriminate.
    + intros j Hj. unfold w1. cbn.
      rewrite <- Nat.add_succ_r. apply Hok. lia.
Qed.

Lemma write_loop_first_failure u d gap exc n : forall w J,
  client (self w) <> None ->
  (J < n)%nat ->
  (forall j, (j < J)%nat -> write_gatt_char e (write_calls w + j) = None) ->
  write_gatt_char e (write_calls w + J) = Some exc ->
  write_loop e u d gap n w
  = (Raise exc,
     with_write_calls (write_calls w + S J)
       (with_trace (trace w ++ rounds_trace u d gap J ++ [EvWrite u d]) w)).
Proof.
  induction n as [|n IH]; intros w J Hcl HJ Hok Hbad.
  - lia.
  - cbn [write_loop]. unfold bind at 1. unfold client_write_gatt_char.
    destruct (client (self w)) as [c|] eqn:Hc; [|contradiction].
    destruct J as [|J].
    + rewrite Nat.add_0_r in Hbad. rewrite Hbad.
      destruct w as [b evs rc wc tr].
      unfold with_write_calls, with_trace, rounds_trace. cbn.
      replace (wc + 1)%nat with (S wc) by lia. reflexivity.
    + pose proof (Hok 0%nat ltac:(lia)) as H0. rewrite Nat.add_0_r in H0.
      rewrite H0.
      unfold bind at 1. unfold asyncio_sleep, emit.
      set (w1 := with_trace _ _).
      rewrite (IH w1 J).
      * unfold w1. rewrite rounds_trace_S. destruct w as [b evs rc wc tr].
        unfold with_write_calls, with_trace. cbn -[rounds_trace].
        rewrite <- !app_assoc. cbn [app].
        replace (wc + S (S J))%nat with (S (wc + S J)) by lia. reflexivity.
      * unfold w1. cbn. rewrite Hc. discriminate.
      * lia.
      * intros j Hj. unfold w1. cbn.
        rewrite <- Nat.add_succ_r. apply Hok. lia.
      * unfold w1. cbn. rewrite <- Nat.add_succ_r. exact Hbad.
Qed.

Lemma writes_of_app evs1 evs2 :
  writes_of (evs1 ++ evs2) = writes_of evs1 ++ writes_of evs2.
Proof. unfold writes_of. apply flat_map_app. Qed.

Lemma writes_of_rounds u d gap n : writes_of (rounds_trace u d gap n) = repeat d n.
Proof.
  induction n as [|n IH]; [reflexivity|].
  rewrite rounds_trace_S. cbn. f_equal. exact IH.
Qed.

Lemma send_bytes_except_spec ev exc :
  send_bytes_except ev exc
  = if caught_by_send_bytes exc
    then Some (set_if_event ev ;; log_print ERROR msg_send_error)
    else None.
Proof. destruct exc; reflexivity. Qed.

End SendOutcomes.

Section SendBytesClaims.
Import Codec Sender.
Local Open Scope sender_scope.

(** X9. [send_bytes] on a Bridge without a client, asked for at least
    one write: it returns without raising, writes nothing, sets the
    error event if one was given, and logs the error.  Asked for no
    write at all ([resends <= 0]) it returns at once and reports no
    error, client or not. *)
Theorem send_bytes_without_client (e : env) (w : world) (data : list Z)
    (resends : Z) (resend_gap : Q) (uuid : String.string)
    (error_event : option nat) :
  (resends <= 0 ->
   send_bytes e data resends resend_gap uuid error_event w
   = (Ok tt, with_trace (trace w ++ [EvSendBytes data]) w))
  /\ (0 < resends -> client (self w) = None ->
      send_bytes e data resends resend_gap uuid error_event w
      = (Ok tt,
         with_trace (trace w ++ [EvSendBytes data; EvLog ERROR msg_send_error])
           (with_error_events
              (match error_event with
               | Some ev => set_flag (error_events w) ev
               | None => error_events w
               end) w))).
Proof.
  split.
  - intros Hres. unfold send_bytes, bind, emit, try_except.
    replace (Z.to_nat resends) with 0%nat by lia. reflexivity.
  - intros Hres Hcl. unfold send_bytes, bind, emit, try_except.
    destruct (Z.to_nat resends) as [|n] eqn:Hn; [lia|].
    cbn [write_loop]. unfold bind at 1. unfold client_write_gatt_char.
    destruct w as [b evs rc wc tr]. cbn in Hcl. cbn. rewrite Hcl.
    destruct error_event as [ev|]; cbn;
      unfold log_print, emit, with_trace, with_error_events; cbn;
      repeat rewrite <- app_assoc; reflexivity.
Qed.

(** A fresh Bridge, twelve resends, an error event. *)
Lemma send_bytes_without_client_witness :
  let e := {| randrange_0_255 := fun _ => 0; write_gatt_char := fun _ => None |} in
  let w := {| self := Bridge_init; error_events := [false]; rand_calls := 0;
              write_calls := 0; trace := [] |} in
  send_bytes e [1; 2; 3] 12 0 UUID_WRITE (Some 0%nat) w
  = (Ok tt,
     {| self := Bridge_init; error_events := [true]; rand_calls := 0;
        write_calls := 0;
        trace := [EvSendBytes [1; 2; 3]; EvLog ERROR msg_send_error] |}).
Proof.
  intros e w.
  apply (proj2 (send_bytes_without_client e w [1; 2; 3] 12 0 UUID_WRITE (Some 0%nat)));
    [lia | reflexivity].
Defined.

(** X10. [send_bytes] on a transport that answers every write: exactly
    [resends] writes of the data, each followed by a sleep of
    [resend_gap], and nothing else; it returns and leaves the error
    event alone. *)
Theorem send_bytes_all_written (e : env) (w : world) (data : list Z)
    (resends : Z) (resend_gap : Q) (uuid : String.string)
    (error_event : option nat) :
  client (self w) <> None ->
  (forall j, (j < Z.to_nat resends)%nat ->
             write_gatt_char e (write_calls w + j) = None) ->
  send_bytes e data resends resend_gap uuid error_event w
  = (Ok tt,
     with_write_calls (write_calls w + Z.to_nat resends)
       (with_trace
          (trace w ++ EvSendBytes data
                      :: rounds_trace uuid data resend_gap (Z.to_nat resends))
          w))
  /\ writes_of (trace (snd (send_bytes e data resends resend_gap uuid error_event w)))
     = writes_of (trace w) ++ repeat data (Z.to_nat resends).
Proof.
  intros Hcl Hok.
  assert (Hrun : send_bytes e data resends resend_gap uuid error_event w
    = (Ok tt,
       with_write_calls (write_calls w + Z.to_nat resends)
         (with_trace
            (trace w ++ EvSendBytes data
                        :: rounds_trace uuid data resend_gap (Z.to_nat resends))
            w))).
  { unfold send_bytes, bind, emit, try_except.
    rewrite write_loop_all.
    - destruct w as [b evs rc wc tr]. unfold with_write_calls, with_trace.
      cbn -[rounds_trace]. repeat rewrite <- app_assoc. reflexivity.
    - destruct w. exact Hcl.
    - destruct w. exact Hok. }
  split; [exact Hrun|].
  rewrite Hrun. destruct w as [b evs rc wc tr]. cbn -[rounds_trace].
  rewrite writes_of_app. cbn -[rounds_trace].
  rewrite writes_of_rounds. reflexivity.
Qed.

(** Three resends on a willing transport. *)
Lemma send_bytes_all_written_witness :
  let e := {| randrange_0_255 := fun _ => 0; write_gatt_char := fun _ => None |} in
  let linked :=
    set_client (Some {| cl_device := {| dev_name := "GravitraxConnect";
                                        dev_address := "00:00" |};
                        cl_is_connected := true |}) Bridge_init in
  writes_of (trace (snd (send_bytes e [1; 2; 3] 3 0 UUID_WRITE None
                           (world_init linked))))
  = [[1; 2; 3]; [1; 2; 3]; [1; 2; 3]].
Proof.
  intros e linked.
  apply (proj2 (send_bytes_all_written e (world_init linked) [1; 2; 3] 3 0
                  UUID_WRITE None ltac:(discriminate) (fun _ _ => eq_refl))).
Defined.

(** X11. [send_bytes] when write number [J] of the call is the first to
    raise: the writes stop there.  An exception of class TypeError,
    BleakError or AttributeError is logged, sets the error event if one
    was given, and [send_bytes] returns; any other exception leaves
    [send_bytes] with the error event untouched. *)
Theorem send_bytes_first_failure (e : env) (w : world) (data : list Z)
    (resends : Z) (resend_gap : Q) (uuid : String.string)
    (error_event : option nat) (J : nat) (exc : exn) :
  client (self w) <> None ->
  (J < Z.to_nat resends)%nat ->
  (forall j, (j < J)%nat -> write_gatt_char e (write_calls w + j) = None) ->
  write_gatt_char e (write_calls w + J) = Some exc ->
  let written :=
    trace w ++ EvSendBytes data
               :: rounds_trace uuid data resend_gap J ++ [EvWrite uuid data] in
  send_bytes e data resends resend_gap uuid error_event w
  = if caught_by_send_bytes exc
    then (Ok tt,
          with_trace (written ++ [EvLog ERROR msg_send_error])
            (with_error_events
               (match error_event with
                | Some ev => set_flag (error_events w) ev
                | None => error_events w
                end)
               (with_write_calls (write_calls w + S J) w)))
    else (Raise exc,
          with_trace written (with_write_calls (write_calls w + S J) w)).
Proof.
  intros Hcl HJ Hok Hbad written.
  unfold send_bytes, bind, emit, try_except.
  rewrite (write_loop_first_failure e uuid data resend_gap exc
             (Z.to_nat resends) _ J);
    try (destruct w; assumption).
  rewrite send_bytes_except_spec.
  unfold written.
  destruct (caught_by_send_bytes exc).
  - destruct w as [b evs rc wc tr]. unfold bind, log_print, emit.
    destruct error_event as [ev|];
      unfold set_if_event, Event_set, ret, with_trace, with_error_events,
        with_write_calls; cbn -[rounds_trace];
      repeat rewrite <- app_assoc; cbn -[rounds_trace];
      repeat rewrite <- app_assoc; reflexivity.
  - destruct w as [b evs rc wc tr].
    unfold with_trace, with_write_calls. cbn -[rounds_trace].
    repeat rewrite <- app_assoc. reflexivity.
Qed.

(** The second of three writes raises a ValueError: it comes out. *)
Lemma send_bytes_first_failure_witness :
  let e := {| randrange_0_255 := fun _ => 0;
              write_gatt_char :=
                fun n => if (n =? 1)%nat then Some ValueError else None |} in
  let linked :=
    set_client (Some {| cl_device := {| dev_name := "GravitraxConnect";
                                        dev_address := "00:00" |};
                        cl_is_connected := true |}) Bridge_init in
  fst (send_bytes e [1; 2; 3] 3 0 UUID_WRITE None (world_init linked))
  = Raise ValueError.
Proof.
  intros e linked.
  rewrite (send_bytes_first_failure e (world_init linked) [1; 2; 3] 3 0
             UUID_WRITE None 1 ValueError).
  - reflexivity.
  - discriminate.
  - cbn. lia.
  - intros j Hj. destruct j; [reflexivity | lia].
  - reflexivity.
Defined.

End SendBytesClaims.

Section SendSignalClaims.
Import Codec Sender.
Local Open Scope sender_scope.

Lemma frame_of_bytes e a w :
  randrange_ok e -> valid_args a -> is_byte (next_send_id (self w)) ->
  Forall is_byte (frame_of e a w).
Proof.
  intros Hr (Hh & Hst & Hs & Hc) Hid.
  pose proof (Hr (rand_calls w)) as H1.
  pose proof (Hr (S (rand_calls w))) as H2.
  unfold frame_of, message_id_of, is_byte in *.
  repeat constructor; try lia;
    try (destruct (random_id a); lia);
    apply Z.mod_pos_bound; lia.
Qed.

(** X8. What [send_signal] hands to [send_bytes], arguments in range:
    one frame of seven bytes holding header, stone, status and colour as
    given, a reserved byte below 255, the message id (the counter's
    value unless random_id), and at index 5 the outbound checksum of the
    frame.  With the standard header the handler's extraction finds in
    it exactly this frame and decodes it to the same seven values. *)
Theorem send_signal_frame_wellformed (e : env) (a : signal_args) (w : world) :
  randrange_ok e -> valid_args a -> is_byte (next_send_id (self w)) ->
  exists f,
    frames_of (snd (send_signal e a w)) = frames_of w ++ [f]
    /\ length f = 7%nat
    /\ Forall is_byte f
    /\ item f 0 = header a /\ item f 1 = stone a /\ item f 2 = status a
    /\ item f 6 = color_channel a
    /\ item f 3 < 255
    /\ (random_id a = false -> item f 4 = next_send_id (self w))
    /\ calc_checksum f false = Some (item f 5)
    /\ (header a = MSG_DEFAULT_HEADER ->
        Spec.scan_frames f = [f]
        /\ Handler.decode (Handler.hex_message f) = Some f).
Proof.
  intros Hr Ha Hid.
  pose proof (frame_of_bytes e a w Hr Ha Hid) as Hbytes.
  exists (frame_of e a w).
  split; [apply send_signal_frames; assumption|].
  split; [reflexivity|]. split; [exact Hbytes|].
  split; [reflexivity|]. split; [reflexivity|]. split; [reflexivity|].
  split; [reflexivity|].
  split; [cbn; apply (Hr (rand_calls w))|].
  split; [intros Hplain; cbn; unfold message_id_of; rewrite Hplain; reflexivity|].
  split; [reflexivity|].
  intros Hhd. split.
  - apply scan_frames_single; [reflexivity | exact Hhd].
  - apply decode_hex_message; [reflexivity | exact Hbytes].
Qed.

(** The default signal on a counter at 7, every draw 9. *)
Lemma send_signal_frame_wellformed_witness :
  let e := {| randrange_0_255 := fun _ => 9; write_gatt_char := fun _ => None |} in
  frames_of (snd (send_signal e (signal_defaults 3 2)
                    (world_init (set_next_send_id 7 Bridge_init))))
  = [[19; 6; 3; 9; 7; 44; 2]].
Proof.
  intros e.
  destruct (send_signal_frame_wellformed e (signal_defaults 3 2)
              (world_init (set_next_send_id 7 Bridge_init)))
    as (f & Hf & _).
  - intros n. cbn. lia.
  - unfold valid_args, is_byte. cbn. unfold MSG_DEFAULT_HEADER, STONE_BRIDGE. lia.
  - cbn. unfold is_byte. lia.
  - reflexivity.
Defined.

(** X12. [send_signal] with a header, stone, status or colour outside
    range(256): [bytes()] raises ValueError, which leaves [send_signal];
    nothing is handed to [send_bytes] and nothing is written, yet the
    draws are used up and the counter has moved on. *)
Theorem send_signal_bad_argument (e : env) (a : signal_args) (w : world) :
  ~ valid_args a ->
  send_signal e a w = (Raise ValueError, after_frame a w)
  /\ trace (after_frame a w) = trace w
  /\ next_send_id (self (after_frame a w)) = (next_send_id (self w) + 1) mod 256.
Proof.
  intros Hbad.
  split; [|split; destruct w; reflexivity].
  unfold send_signal. unfold bind at 1.
  pose proof (send_signal_frame_world e a w) as Hw.
  assert (Hres : fst (send_signal_frame e a w) = Raise ValueError).
  { unfold send_signal_frame, bind, random_randrange, get_next_send_id,
      put_next_send_id, bytes_of.
    destruct (random_id a); cbn -[forallb Z.modulo];
      match goal with
      | |- context [forallb is_byteb ?l] => destruct (forallb is_byteb l) eqn:Hall
      end; try reflexivity;
      exfalso; apply Hbad;
      rewrite forallb_forall in Hall;
      unfold valid_args;
      repeat split; apply is_byteb_spec, Hall; cbn; tauto. }
  destruct (send_signal_frame e a w) as [r w']. cbn [fst snd] in *.
  subst r w'. reflexivity.
Qed.

(** Status 256. *)
Lemma send_signal_bad_argument_witness :
  let e := {| randrange_0_255 := fun _ => 9; write_gatt_char := fun _ => None |} in
  fst (send_signal e (signal_defaults 256 1) (world_init Bridge_init))
  = Raise ValueError.
Proof.
  intros e.
  assert (Hbad : ~ valid_args (signal_defaults 256 1)).
  { unfold valid_args, is_byte. cbn. lia. }
  rewrite (proj1 (send_signal_bad_argument e (signal_defaults 256 1)
                    (world_init Bridge_init) Hbad)).
  reflexivity.
Defined.

End SendSignalClaims.

Section PeriodicAll.
Import Codec Sender Spec.
Local Open Scope sender_scope.

Variable e : env.
Hypothesis Hcaught :
  forall n exc, write_gatt_char e n = Some exc -> caught_by_send_bytes exc = true.

(** The write loop ends well or in an exception [send_bytes] takes. *)
Lemma write_loop_result u d gap n : forall w,
  fst (write_loop e u d gap n w) = Ok tt
  \/ exists exc, fst (write_loop e u d gap n w) = Raise exc
                 /\ caught_by_send_bytes exc = true.
Proof.
  induction n as [|n IH]; intros w.
  - left. reflexivity.
  - cbn [write_loop]. unfold bind, client_write_gatt_char, asyncio_sleep, emit.
    destruct (client (self w)).
    + destruct (write_gatt_char e (write_calls w)) as [exc|] eqn:Hw.
      * right. exists exc. split; [reflexivity | exact (Hcaught _ _ Hw)].
      * apply IH.
    + right. exists AttributeError. split; reflexivity.
Qed.

Lemma send_bytes_returns d n gap u ev w :
  fst (send_bytes e d n gap u ev w) = Ok tt.
Proof.
  unfold send_bytes, bind, emit, try_except.
  match goal with
  | |- context [write_loop e u d gap ?k ?w1] =>
      destruct (write_loop_result u d gap k w1) as [Hok | (exc & Hexc & Hc)];
      destruct (write_loop e u d gap k w1) as [r w2]
  end; cbn [fst] in *; subst r.
  - reflexivity.
  - rewrite send_bytes_except_spec, Hc.
    destruct ev; reflexivity.
Qed.

Lemma send_signal_returns a w :
  randrange_ok e -> valid_args a -> is_byte (next_send_id (self w)) ->
  fst (send_signal e a w) = Ok tt.
Proof.
  intros Hr Ha Hid. unfold send_signal, bind.
  rewrite (send_signal_frame_ok e a w Hr Ha Hid).
  apply send_bytes_returns.
Qed.

Lemma id_range_cons c n :
  is_byte c ->
  id_range c (S n) = c :: id_range ((c + 1) mod 256) n.
Proof.
  intros Hc. unfold id_range. cbn [seq map].
  rewrite Z.add_0_r, (Z.mod_small c 256 Hc). f_equal.
  rewrite <- seq_shift, map_map. apply map_ext.
  intros i. rewrite Zplus_mod_idemp_l. f_equal. lia.
Qed.

Section Loop.

Variables (status color_channel : Z) (gap : Q) (resends : Z) (resend_gap : Q)
  (stone : Z) (error_event : nat).
Hypothesis Hrand : randrange_ok e.
Hypothesis Hstatus : is_byte status.
Hypothesis Hcolor : is_byte color_channel.
Hypothesis Hstone : is_byte stone.

Lemma periodic_loop_all n : forall i w,
  is_byte (next_send_id (self w)) ->
  exists w',
    periodic_loop e status color_channel gap resends resend_gap stone
      false error_event i n w = (Ok tt, w')
    /\ sent_ids (trace w')
       = sent_ids (trace w) ++ id_range (next_send_id (self w)) n.
Proof.
  induction n as [|n IH]; intros i w Hid.
  - exists w. cbn. rewrite app_nil_r. split; reflexivity.
  - cbn [periodic_loop]. unfold bind at 1. unfold Event_is_set. cbn [andb].
    unfold bind at 1.
    destruct (gap_sleep_spec gap i w) as (pre & -> & Hpre & _).
    set (w0 := with_trace (trace w ++ pre) w).
    set (a := {| Sender.status := status; Sender.color_channel := color_channel;
                 Sender.resends := resends; Sender.resend_gap := resend_gap;
                 random_id := false; uuid := UUID_WRITE;
                 header := MSG_DEFAULT_HEADER; Sender.stone := stone;
                 Sender.error_event := Some error_event |}).
    assert (Ha : valid_args a).
    { unfold valid_args, a, is_byte, MSG_DEFAULT_HEADER in *. cbn. lia. }
    assert (Hid0 : next_send_id (self w0) = next_send_id (self w))
      by (destruct w; reflexivity).
    assert (Hids0 : sent_ids (trace w0) = sent_ids (trace w)).
    { unfold w0, sent_ids. destruct w as [b evs rc wc tr]. cbn.
      rewrite sent_frames_app, Hpre, app_nil_r. reflexivity. }
    assert (Hid' : is_byte (next_send_id (self w0))) by (rewrite Hid0; exact Hid).
    pose proof (send_signal_returns a w0 Hrand Ha Hid') as Hret.
    pose proof (send_signal_frames e a w0 Hrand Ha Hid') as Hfr.
    pose proof (send_signal_self e a w0) as Hself.
    unfold bind at 1.
    destruct (send_signal e a w0) as [r w1]. cbn [fst snd] in *. subst r.
    destruct (IH (S i) w1) as (w' & Hrun & Hids).
    { rewrite Hself. cbn. apply mod_256_byte. }
    exists w'. split; [exact Hrun|].
    rewrite Hids. unfold sent_ids at 1. unfold frames_of in Hfr. rewrite Hfr.
    rewrite map_app. fold (sent_ids (trace w0)). rewrite Hids0.
    rewrite Hself. cbn [map]. unfold frame_of, message_id_of, item.
    cbn [random_id a nth next_send_id set_next_send_id].
    rewrite Hid0, (id_range_cons _ n Hid), <- app_assoc. reflexivity.
Qed.

End Loop.

End PeriodicAll.

Section PeriodicAllClaim.
Import Codec Sender Spec.

(** X13. [send_periodic] with stop_on_failure=False, on a transport
    whose writes raise nothing but TypeError, BleakError or
    AttributeError: it returns, and it has handed over [count] signals
    whatever failed, their message ids counting up from the counter
    modulo 256; none for [count <= 0]. *)
Theorem send_periodic_without_stop (e : env) (w : world)
    (status color_channel count : Z) (gap : Q) (resends : Z) (resend_gap : Q)
    (stone : Z) :
  (forall n exc, write_gatt_char e n = Some exc -> caught_by_send_bytes exc = true) ->
  randrange_ok e ->
  is_byte status -> is_byte color_channel -> is_byte stone ->
  is_byte (next_send_id (self w)) ->
  fst (send_periodic e status color_channel count gap resends resend_gap stone
         false w) = Ok tt
  /\ sent_ids (trace (snd (send_periodic e status color_channel count gap
                             resends resend_gap stone false w)))
     = sent_ids (trace w) ++ id_range (next_send_id (self w)) (Z.to_nat count).
Proof.
  intros Hcaught Hrand Hst Hcol Hstone Hid.
  unfold send_periodic, bind, Event_new.
  set (w1 := with_error_events _ w).
  destruct (periodic_loop_all e Hcaught status color_channel gap resends
              resend_gap stone (length (error_events w)) Hrand Hst Hcol Hstone
              (Z.to_nat count) 0%nat w1) as (w2 & Hrun & Hids).
  { unfold w1. destruct w. exact Hid. }
  rewrite Hrun. cbn [fst snd]. split; [reflexivity|].
  rewrite Hids. unfold w1. destruct w. reflexivity.
Qed.

(** Three signals on a Bridge without a client, counter at 255. *)
Lemma send_periodic_without_stop_witness :
  let e := {| randrange_0_255 := fun _ => 9; write_gatt_char := fun _ => None |} in
  sent_ids (trace (snd (send_periodic e 0 1 3 0 12 0 6 false
                          (world_init (set_next_send_id 255 Bridge_init)))))
  = [255; 0; 1].
Proof.
  intros e.
  apply (proj2 (send_periodic_without_stop e
                  (world_init (set_next_send_id 255 Bridge_init))
                  0 1 3 0 12 0 6
                  ltac:(intros n exc H; discriminate H)
                  ltac:(intros n; cbn; lia)
                  ltac:(unfold is_byte; lia) ltac:(unfold is_byte; lia)
                  ltac:(unfold is_byte; lia)
                  ltac:(cbn; unfold is_byte; lia))).
Defined.

End PeriodicAllClaim.

Section BridgeMode.
Import Codec Sender.
Local Open Scope sender_scope.

Lemma lock_signal_valid st :
  is_byte st -> valid_args (signal_defaults st COLOR_RED).
Proof.
  intros Hst. unfold valid_args, signal_defaults, is_byte in *. cbn.
  unfold MSG_DEFAULT_HEADER, STONE_BRIDGE, COLOR_RED. lia.
Qed.

(** The signal of [start_bridge_mode]/[stop_bridge_mode] on a Bridge
    without a client. *)
Lemma mode_signal_without_client e st w :
  randrange_ok e -> is_byte st -> is_byte (next_send_id (self w)) ->
  client (self w) = None ->
  exists w',
    send_signal e (signal_defaults st COLOR_RED) w = (Ok tt, w')
    /\ trace w'
       = trace w
         ++ [EvSendBytes (frame_of e (signal_defaults st COLOR_RED) w);
             EvLog ERROR msg_send_error].
Proof.
  intros Hr Hst Hid Hcl.
  unfold send_signal, bind.
  rewrite (send_signal_frame_ok e _ w Hr (lock_signal_valid st Hst) Hid).
  unfold send_bytes, bind, emit, try_except.
  cbn [resends signal_defaults]. change (Z.to_nat 12) with 12%nat.
  cbn [write_loop]. unfold bind at 1. unfold client_write_gatt_char.
  destruct w as [b evs rc wc tr]. cbn in Hcl.
  cbn -[frame_of]. rewrite Hcl. cbn -[frame_of].
  eexists. split; [reflexivity|].
  cbn -[frame_of]. rewrite <- app_assoc. reflexivity.
Qed.

(** X14. [start_bridge_mode] and [stop_bridge_mode] on a Bridge without
    a client: neither raises; each hands over one frame with the bridge
    as stone, status 201 (lock) or 200 (unlock) and colour 1, writes
    nothing, logs the send error, and then still logs "Bridge Mode
    enabled" or "Bridge Mode disabled". *)
Theorem bridge_mode_without_client (e : env) (w : world) :
  randrange_ok e ->
  is_byte (next_send_id (self w)) ->
  client (self w) = None ->
  let r := randrange_0_255 e (rand_calls w) in
  let c := next_send_id (self w) in
  (exists w',
     start_bridge_mode e w = (Ok tt, w')
     /\ trace w'
        = trace w
          ++ [EvSendBytes [19; 6; 201; r; c; (19 + 6 + 201 + r + c) mod 256; 1];
              EvLog ERROR msg_send_error;
              EvLog INFO msg_bridge_mode_on])
  /\ (exists w',
        stop_bridge_mode e w = (Ok tt, w')
        /\ trace w'
           = trace w
             ++ [EvSendBytes [19; 6; 200; r; c; (19 + 6 + 200 + r + c) mod 256; 1];
                 EvLog ERROR msg_send_error;
                 EvLog INFO msg_bridge_mode_off]).
Proof.
  intros Hr Hid Hcl r c.
  split.
  - destruct (mode_signal_without_client e STATUS_LOCK w Hr) as (w1 & Hrun & Htr);
      try assumption; [unfold is_byte, STATUS_LOCK; lia|].
    unfold start_bridge_mode, bind. rewrite Hrun.
    eexists. split; [reflexivity|].
    destruct w1 as [b1 evs1 rc1 wc1 tr1]. cbn in Htr. cbn. rewrite Htr.
    rewrite <- app_assoc. reflexivity.
  - destruct (mode_signal_without_client e STATUS_UNLOCK w Hr) as (w1 & Hrun & Htr);
      try assumption; [unfold is_byte, STATUS_UNLOCK; lia|].
    unfold stop_bridge_mode, bind. rewrite Hrun.
    eexists. split; [reflexivity|].
    destruct w1 as [b1 evs1 rc1 wc1 tr1]. cbn in Htr. cbn. rewrite Htr.
    rewrite <- app_assoc. reflexivity.
Qed.

(** A fresh Bridge. *)
Lemma bridge_mode_without_client_witness :
  let e := {| randrange_0_255 := fun _ => 9; write_gatt_char := fun _ => None |} in
  exists w',
    start_bridge_mode e (world_init Bridge_init) = (Ok tt, w')
    /\ trace w'
       = [EvSendBytes [19; 6; 201; 9; 0; 235; 1];
          EvLog ERROR msg_send_error; EvLog INFO msg_bridge_mode_on].
Proof.
  intros e.
  apply (proj1 (bridge_mode_without_client e (world_init Bridge_init)
                  ltac:(intros n; cbn; lia)
                  ltac:(cbn; unfold is_byte; lia) eq_refl)).
Defined.

End BridgeMode.

(* ----------------------------------------------------------------- *)
(** ** [disconnect] *)

Section DisconnectClaims.
Import Session.



(** X16. [disconnect] and the transport's callback together.  Called on
    a Bridge with a client, [disconnect] with [_user] set marks the
    Bridge however the close ends, so that [__disconnect_callback]
    afterwards reports user_disconnected=True and creates no reconnect
    task even with try_reconnect set.  With [_user] unset the mark, the
    callback and the reconnect flag stay as they were, so that on a
    Bridge not so marked the loss counts as unexpected and with
    try_reconnect the reconnect task is created.  Either way a close
    that completes leaves the Bridge not connected. *)
Theorem user_disconnect_stops_reconnect (self : Bridge) (timeout : Q)
    (dc_callback_on_timeout : bool) (close : result unit)
    (address : String.string) :
  client self <> None ->
  let marked := snd (fst (disconnect self timeout dc_callback_on_timeout true close)) in
  let unmarked := snd (fst (disconnect self timeout dc_callback_on_timeout false close)) in
  user_disconnected marked = true
  /\ reconnect_scheduled (snd (__disconnect_callback marked address)) = false
  /\ (forall u t, In (u, t) (dc_calls (snd (__disconnect_callback marked address))) ->
      u = true /\ t = false)
  /\ (close = Ok tt -> is_connected marked = false /\ is_connected unmarked = false)
  /\ __disconnect_callback unmarked address = __disconnect_callback self address
  /\ (user_disconnected self = false -> try_reconnect self = true ->
      fst (__disconnect_callback unmarked address) = Ok tt ->
      reconnect_scheduled (snd (__disconnect_callback unmarked address)) = true).
Proof.
  intros Hcl marked unmarked.
  destruct (client self) as [c|] eqn:Hc; [clear Hcl | contradiction].
  assert (Hshape : forall user,
            let b := snd (fst (disconnect self timeout dc_callback_on_timeout user close)) in
            user_disconnected b = (if user then true else user_disconnected self)
            /\ dc_callback b = dc_callback self
            /\ try_reconnect b = try_reconnect self
            /\ (close = Ok tt -> is_connected b = false)).
  { intros user. unfold disconnect, guarded_dc_call. rewrite Hc.
    destruct close as [[]|x].
    - destruct user; repeat split; reflexivity.
    - destruct x; try (destruct user; repeat split; solve [reflexivity | discriminate]).
      destruct dc_callback_on_timeout;
        [|destruct user; repeat split; solve [reflexivity | discriminate]].
      replace (dc_callback (if user then set_user_disconnected true self else self))
        with (dc_callback self) by (destruct user; reflexivity).
      destruct (dc_callback self) as [cb|] eqn:Hcb;
        [destruct (cb true true) as [x|]; [destruct (is_TypeError x)|]|];
        destruct user; cbn [snd fst user_disconnected dc_callback try_reconnect
                            set_user_disconnected];
        repeat split; solve [reflexivity | assumption | discriminate]. }
  destruct (Hshape true) as (Hm1 & Hm2 & Hm3 & Hm4).
  destruct (Hshape false) as (Hu1 & Hu2 & Hu3 & Hu4).
  fold marked in Hm1, Hm2, Hm3, Hm4. fold unmarked in Hu1, Hu2, Hu3, Hu4.
  clearbody marked unmarked.
  assert (Hsame : __disconnect_callback unmarked address
                  = __disconnect_callback self address).
  { unfold __disconnect_callback, guarded_dc_call. rewrite Hu1, Hu2, Hu3. reflexivity. }
  split; [exact Hm1|].
  split; [|split; [|split; [|split; [exact Hsame|]]]].
  - unfold __disconnect_callback, guarded_dc_call. rewrite Hm1, Hm2.
    cbn [negb andb].
    destruct (dc_callback self) as [cb|]; [|reflexivity].
    destruct (cb true false) as [x|]; [destruct (is_TypeError x)|]; reflexivity.
  - intros u t.
    unfold __disconnect_callback, guarded_dc_call. rewrite Hm1, Hm2.
    cbn [negb andb].
    destruct (dc_callback self) as [cb|]; [|intros []].
    destruct (cb true false) as [x|]; [destruct (is_TypeError x)|]; cbn;
      intros [[= <- <-] | []]; split; reflexivity.
  - intros Hok. split; [exact (Hm4 Hok) | exact (Hu4 Hok)].
  - rewrite Hsame. intros Hflag Htry.
    unfold __disconnect_callback, guarded_dc_call. rewrite Hflag, Htry.
    cbn [negb andb].
    destruct (dc_callback self) as [cb|]; [|reflexivity].
    destruct (cb false false) as [x|]; [destruct (is_TypeError x)|];
      try reflexivity.
    cbn. discriminate.
Qed.

(** A linked Bridge with try_reconnect set. *)
Lemma user_disconnect_stops_reconnect_witness :
  reconnect_scheduled
    (snd (__disconnect_callback
            (snd (fst (disconnect (watched_bridge (fun _ _ => None)) 20 false true
                         (Ok tt))))
            "AA:BB"))
  = false
  /\ is_connected
       (snd (fst (disconnect (watched_bridge (fun _ _ => None)) 20 false true
                    (Ok tt))))
     = false.
Proof.
  pose proof (user_disconnect_stops_reconnect
                (watched_bridge (fun _ _ => None)) 20 false (Ok tt)
                "AA:BB" ltac:(discriminate)) as H.
  cbv zeta in H.
  destruct H as (_ & Hre & _ & Hlink & _).
  split; [exact Hre | exact (proj1 (Hlink eq_refl))].
Defined.

End DisconnectClaims.

(* ----------------------------------------------------------------- *)
(** ** [connect] and [request_bridge_info] *)

Section ConnectClaims.
Import Session.

(** X17. A [connect] that finds the device and links to it returns True
    whatever the read of the versions gives, short of an exception that
    is neither a BleakError nor an AttributeError: the Bridge is
    connected, it reports the device's name and address, it is no longer
    marked as disconnected by the user, and the message counter, the
    window of recent notifications and the notification callback are
    those from before the call. *)
Theorem connect_success (self : Bridge) (name_or_addr : String.string)
    (by_name : bool) (timeout : Q) (cb : option dc_callable)
    (tr rn : bool) (env : connect_env) (d : BLEDevice) :
  find_device env = Ok (Some d) ->
  client_connect env = Ok tt ->
  (is_linux env = true -> acquire_mtu env = Ok tt) ->
  (forall x, read_gatt_char env = Raise x ->
             x = AttributeError \/ is_BleakError x = true) ->
  let '(r, self', evs) := connect self name_or_addr by_name timeout cb tr rn env in
  r = Ok (Some true)
  /\ is_connected self' = true
  /\ get_name self' = Some (dev_name d)
  /\ get_address self' = Some (dev_address d)
  /\ user_disconnected self' = false
  /\ next_send_id self' = next_send_id self
  /\ last_notifications self' = last_notifications self
  /\ noti_callback self' = noti_callback self.
Proof.
  intros Hfind Hconn Hmtu Hread.
  unfold connect. rewrite Hfind, Hconn.
  assert (Hm : (if is_linux env then acquire_mtu env else Ok tt) = Ok tt).
  { destruct (is_linux env); [apply Hmtu|]; reflexivity. }
  rewrite Hm.
  unfold request_bridge_info, __read_chraceristic.
  cbn [client set_client set_user_disconnected set_name set_address
       set_dc_callback set_reconnect_flags].
  destruct (read_gatt_char env) as [data|x] eqn:Hr.
  - destruct data as [|b0 [|b1 [|b2 rest]]]; repeat split; reflexivity.
  - destruct (Hread x eq_refl) as [-> | Hx]; [repeat split; reflexivity|].
    destruct x; try discriminate Hx; repeat split; reflexivity.
Qed.

(** A Bridge that was disconnected by the user connects again on a
    transport where every request succeeds. *)
Lemma connect_success_witness :
  let '(r, self', _) :=
    connect (set_user_disconnected true linked_bridge) BRIDGE_NAME true 25 None
      false true willing_transport in
  r = Ok (Some true) /\ user_disconnected self' = false.
Proof.
  pose proof (connect_success (set_user_disconnected true linked_bridge)
                BRIDGE_NAME true 25 None false true willing_transport
                {| dev_name := BRIDGE_NAME; dev_address := "AA:BB" |}
                eq_refl eq_refl (fun _ => eq_refl)
                (fun x (H : read_gatt_char willing_transport = Raise x) =>
                   match H in (_ = y)
                     return match y with Raise _ => _ | Ok _ => True end
                   with eq_refl => I end)) as H.
  destruct (connect (set_user_disconnected true linked_bridge) BRIDGE_NAME true 25
              None false true willing_transport) as [[r self'] evs].
  split; [exact (proj1 H) | exact (proj1 (proj2 (proj2 (proj2 (proj2 H)))))].
Defined.

(** X18. A [connect] that does not link.  The arguments [dc_callback],
    [try_reconnect] and [restart_notifications] are stored whatever
    happens.  When the scan finds no device the result is False and the
    client, and with it [is_connected], is the one from before.  When
    [client.connect] raises, the old client is already replaced, so the
    Bridge is not connected; the name, the address and the user's mark
    stay those of the earlier session; the result is nothing at all
    after a TimeoutError, False after BleakDeviceNotFoundError or a
    cancellation, and any other exception leaves [connect]. *)
Theorem connect_failures (self : Bridge) (name_or_addr : String.string)
    (by_name : bool) (timeout : Q) (cb : option dc_callable)
    (tr rn : bool) (env : connect_env) :
  let '(r, self', evs) := connect self name_or_addr by_name timeout cb tr rn env in
  (dc_callback self' = cb /\ try_reconnect self' = tr
   /\ restart_notifications self' = rn)
  /\ (find_device env = Ok None ->
      r = Ok (Some false) /\ client self' = client self
      /\ is_connected self' = is_connected self)
  /\ (forall d x, find_device env = Ok (Some d) -> client_connect env = Raise x ->
      is_connected self' = false
      /\ get_name self' = get_name self
      /\ get_address self' = get_address self
      /\ user_disconnected self' = user_disconnected self
      /\ r = match x with
             | TimeoutError => Ok None
             | BleakDeviceNotFoundError | CancelledError => Ok (Some false)
             | _ => Raise x
             end).
Proof.
  unfold connect, request_bridge_info, __read_chraceristic.
  destruct (find_device env) as [[d|]|x].
  - destruct (client_connect env) as [[]|x].
    + cbn [client set_client set_user_disconnected set_name set_address
           set_dc_callback set_reconnect_flags].
      destruct (if is_linux env then acquire_mtu env else Ok tt) as [[]|y].
      * destruct (read_gatt_char env) as [data|y].
        -- destruct data as [|b0 [|b1 [|b2 rest]]];
             (split; [repeat split; reflexivity|]);
             (split; [discriminate | intros d' x' _ [=]]).
        -- destruct y;
             (split; [repeat split; reflexivity|]);
             (split; [discriminate | intros d' x' _ [=]]).
      * split; [repeat split; reflexivity|].
        split; [discriminate | intros d' x' _ [=]].
    + destruct x;
        (split; [repeat split; reflexivity|]);
        (split; [discriminate|]);
        intros d' x' _ [= <-]; repeat split; reflexivity.
  - split; [repeat split; reflexivity|].
    split; [intros _; repeat split; reflexivity | intros d x [=]].
  - split; [repeat split; reflexivity|].
    split; [discriminate | intros d x' [=]].
Qed.

(** A linked Bridge, and a transport that reports the device gone. *)
Lemma connect_failures_witness :
  let '(r, self', _) :=
    connect linked_bridge BRIDGE_NAME true 25 None false true device_gone in
  r = Ok (Some false) /\ is_connected self' = false
  /\ get_name self' = Some BRIDGE_NAME.
Proof.
  pose proof (connect_failures linked_bridge BRIDGE_NAME true 25 None false true
                device_gone) as H.
  destruct (connect linked_bridge BRIDGE_NAME true 25 None false true device_gone)
    as [[r self'] evs].
  destruct H as (_ & _ & H).
  destruct (H _ _ eq_refl eq_refl) as (Hc & Hn & _ & _ & Hr).
  split; [exact Hr | split; [exact Hc | exact Hn]].
Defined.

(** X19. [request_bridge_info] by the length of the reply.  It returns
    the pair (data[1], data[2]) and stores both when the reply has three
    bytes or more.  A reply of two bytes stores data[1] as the firmware
    version before the missing data[2] ends the attempt, and the result
    is None all the same; a shorter reply, a Bridge without client and a
    read that ends in a BleakError or AttributeError change nothing and
    give None. *)
Theorem request_bridge_info_by_length (self : Bridge) (read : result (list Z)) :
  let '(r, self', evs) := request_bridge_info self read in
  (client self = None -> r = Ok None /\ self' = self)
  /\ (client self <> None ->
      match read with
      | Ok data =>
          (3 <= length data)%nat
          /\ r = Ok (Some (nth 1 data 0, nth 2 data 0))
          /\ firmware self' = Some (nth 1 data 0)
          /\ hardware self' = Some (nth 2 data 0)
          \/ length data = 2%nat
          /\ r = Ok None
          /\ firmware self' = Some (nth 1 data 0)
          /\ hardware self' = hardware self
          \/ (length data <= 1)%nat /\ r = Ok None /\ self' = self
      | Raise x =>
          self' = self
          /\ r = match x with
                 | AttributeError => Ok None
                 | _ => if is_BleakError x then Ok None else Raise x
                 end
      end).
Proof.
  unfold request_bridge_info, __read_chraceristic.
  destruct (client self) as [c|].
  - destruct read as [data|x].
    + destruct data as [|b0 [|b1 [|b2 rest]]];
        (split; [discriminate|]); intros _.
      * right; right. cbn. repeat split; lia.
      * right; right. cbn. repeat split; lia.
      * right; left. cbn. repeat split.
      * left. cbn. repeat split; lia.
    + destruct x; (split; [discriminate|]); intros _; split; reflexivity.
  - split; [intros _; split; reflexivity | intros H; contradiction].
Qed.

(** A reply of two bytes to a linked Bridge. *)
Lemma request_bridge_info_by_length_witness :
  let '(r, self', _) := request_bridge_info linked_bridge (Ok [0; 3]) in
  r = Ok None /\ firmware self' = Some 3.
Proof.
  pose proof (request_bridge_info_by_length linked_bridge (Ok [0; 3])) as H.
  destruct (request_bridge_info linked_bridge (Ok [0; 3])) as [[r self'] evs].
  destruct H as [_ H].
  destruct (H ltac:(discriminate)) as [(Hl & _) | [(_ & Hr & Hf & _) | (Hl & _)]].
  - cbn in Hl. lia.
  - split; [exact Hr | exact Hf].
  - cbn in Hl. lia.
Defined.

End ConnectClaims.

(* ----------------------------------------------------------------- *)
(** ** Notifications across a reconnect *)

Section NotificationClaims.
Import Session.

(** X20. [notification_enable] registers the callback exactly when it
    returns True, which is when the Bridge has a client and
    [start_notify] succeeds; in every other case the Bridge, and so a
    callback registered earlier, is left as it was.  A BleakError or an
    AttributeError gives False, any other exception leaves the call. *)
Theorem notification_enable_outcomes (self : Bridge) (cb : noti_callable)
    (uuid : String.string) (start_notify : result unit) :
  let '(r, self', evs) := notification_enable self cb uuid start_notify in
  (r = Ok true <-> client self <> None /\ start_notify = Ok tt)
  /\ (r = Ok true -> self' = set_noti_callback (Some cb) self)
  /\ (r <> Ok true -> self' = self)
  /\ (forall x, r = Raise x <->
        client self <> None /\ start_notify = Raise x
        /\ x <> AttributeError /\ is_BleakError x = false).
Proof.
  unfold notification_enable.
  destruct (client self) as [c|].
  - destruct start_notify as [[]|x].
    + split; [split; [intros _; split; [discriminate | reflexivity] | reflexivity]|].
      split; [reflexivity|].
      split; [intros H; contradiction|].
      intros x. split; [discriminate | intros (_ & [=] & _)].
    + destruct x; cbn [is_BleakError];
        (split; [split; [discriminate | intros [_ [=]]]|]);
        (split; [discriminate|]); (split; [reflexivity|]);
        intros y; (split;
          [ try discriminate; intros [= <-]; repeat split; discriminate
          | intros (_ & [= <-] & Hne & Hb);
            try reflexivity; try discriminate Hb; try congruence ]).
  - split; [split; [discriminate | intros [H _]; contradiction]|].
    split; [discriminate|]. split; [reflexivity|].
    intros x. split; [discriminate | intros [H _]; contradiction].
Qed.

(** A linked Bridge on which the transport refuses the subscription. *)
Lemma notification_enable_outcomes_witness :
  let '(r, self', _) :=
    notification_enable linked_bridge (fun _ => None) UUID_NOTIF (Raise BleakError) in
  self' = linked_bridge.
Proof.
  pose proof (notification_enable_outcomes linked_bridge (fun _ => None) UUID_NOTIF
                (Raise BleakError)) as H.
  destruct (notification_enable linked_bridge (fun _ => None) UUID_NOTIF
              (Raise BleakError)) as [[r self'] evs].
  destruct H as (Hiff & _ & Hkeep & _).
  apply Hkeep. intros Hr. apply Hiff in Hr. destruct Hr as [_ Hr]. discriminate Hr.
Defined.

(** X21. [notification_disable] never touches the Bridge, so the
    callback stays registered; and [__reconnect] passes neither
    [restart_notifications] nor the callback's state on to [connect].
    Hence on a Bridge that holds a notification callback, a reconnect
    that links again asks the transport for notifications once more even
    if the user had connected with restart_notifications=False and had
    disabled notifications since, and it leaves both restart_notifications
    and try_reconnect set. *)
Theorem reconnect_restarts_notifications (self : Bridge) (ncb : noti_callable)
    (uuid address : String.string) (stop_notify start_notify : result unit)
    (env : connect_env) (d : BLEDevice) :
  noti_callback self = Some ncb ->
  find_device env = Ok (Some d) ->
  client_connect env = Ok tt ->
  (is_linux env = true -> acquire_mtu env = Ok tt) ->
  (forall x, read_gatt_char env = Raise x ->
             x = AttributeError \/ is_BleakError x = true) ->
  let quiet :=
    snd (fst (notification_disable (set_reconnect_flags true false self) uuid
                stop_notify)) in
  let '(r, self', evs) := __reconnect quiet address env start_notify in
  quiet = set_reconnect_flags true false self
  /\ In (EvStartNotify UUID_NOTIF) evs
  /\ restart_notifications self' = true
  /\ try_reconnect self' = true
  /\ (start_notify = Ok tt -> r = Ok tt /\ noti_callback self' = Some ncb).
Proof.
  intros Hn Hfind Hconn Hmtu Hread quiet.
  assert (Hq : quiet = set_reconnect_flags true false self).
  { unfold quiet, notification_disable.
    destruct (client (set_reconnect_flags true false self)); [|reflexivity].
    destruct stop_notify as [[]|[]]; reflexivity. }
  rewrite Hq. clear quiet Hq.
  unfold __reconnect, connect. rewrite Hfind, Hconn.
  assert (Hm : (if is_linux env then acquire_mtu env else Ok tt) = Ok tt).
  { destruct (is_linux env); [apply Hmtu|]; reflexivity. }
  rewrite Hm.
  unfold request_bridge_info, __read_chraceristic.
  cbn [client set_client set_user_disconnected set_name set_address
       set_dc_callback set_reconnect_flags].
  assert (Hin : forall (pre post : list event),
            In (EvStartNotify UUID_NOTIF) (pre ++ EvStartNotify UUID_NOTIF :: post)).
  { intros pre post. apply in_or_app. right. left. reflexivity. }
  assert (Hgoal : forall (b : Bridge) (pre : list event),
            noti_callback b = Some ncb -> restart_notifications b = true ->
            try_reconnect b = true -> client b <> None ->
            let '(r, self', evs) :=
              match restart_notifications b, noti_callback b with
              | true, Some cb =>
                  match notification_enable b cb UUID_NOTIF start_notify with
                  | (Raise x, self, evs') => (Raise x, self, pre ++ evs')
                  | (Ok _, self, evs') => (Ok tt, self, pre ++ evs')
                  end
              | _, _ => (Ok tt, b, pre)
              end in
            set_reconnect_flags true false self = set_reconnect_flags true false self
            /\ In (EvStartNotify UUID_NOTIF) evs
            /\ restart_notifications self' = true
            /\ try_reconnect self' = true
            /\ (start_notify = Ok tt -> r = Ok tt /\ noti_callback self' = Some ncb)).
  { intros b pre Hb Hrn Htr Hcl. rewrite Hrn, Hb. unfold notification_enable.
    destruct (client b) as [c|]; [|contradiction].
    destruct start_notify as [[]|y]; [|destruct y; cbn [is_BleakError]];
      (split; [reflexivity|]);
      (split; [apply Hin|]);
      (split; [first [exact Hrn | reflexivity]|]);
      (split; [first [exact Htr | reflexivity]|]);
      first [intros _; split; reflexivity | intros [=]]. }
  destruct (read_gatt_char env) as [data|x] eqn:Hr.
  - destruct data as [|b0 [|b1 [|b2 rest]]]; cbn [wait_for];
      apply Hgoal; solve [exact Hn | reflexivity | discriminate].
  - destruct (Hread x eq_refl) as [-> | Hx];
      [|destruct x; try discriminate Hx]; cbn [wait_for is_BleakError];
      apply Hgoal; solve [exact Hn | reflexivity | discriminate].
Qed.

(** A linked Bridge that holds a notification callback. *)
Lemma reconnect_restarts_notifications_witness :
  let '(_, _, evs) :=
    __reconnect
      (snd (fst (notification_disable
                   (set_reconnect_flags true false
                      (set_noti_callback (Some (fun _ => None)) linked_bridge))
                   UUID_NOTIF (Ok tt))))
      "AA:BB" willing_transport (Ok tt) in
  In (EvStartNotify UUID_NOTIF) evs.
Proof.
  pose proof (reconnect_restarts_notifications
                (set_noti_callback (Some (fun _ => None)) linked_bridge)
                (fun _ => None) UUID_NOTIF "AA:BB" (Ok tt) (Ok tt)
                willing_transport
                {| dev_name := BRIDGE_NAME; dev_address := "AA:BB" |}
                eq_refl eq_refl eq_refl (fun _ => eq_refl)
                (fun x (H : read_gatt_char willing_transport = Raise x) =>
                   match H in (_ = y)
                     return match y with Raise _ => _ | Ok _ => True end
                   with eq_refl => I end)) as H.
  cbv zeta in H.
  destruct (__reconnect _ "AA:BB" willing_transport (Ok tt)) as [[r self'] evs].
  exact (proj1 (proj2 H)).
Defined.

End NotificationClaims.

(* ----------------------------------------------------------------- *)
(** ** [scan_bridges] *)

Section ScanClaims.
Import Scan.

Lemma name_eqb_spec n name : name_eqb n name = true <-> n = Some name.
Proof.
  destruct n as [s|]; cbn.
  - rewrite String.eqb_eq. split; [intros ->; reflexivity | intros [= ->]; reflexivity].
  - split; discriminate.
Qed.

Lemma address_in_spec a l : address_in a l = true <-> In a l.
Proof.
  unfold address_in. destruct (in_dec String.string_dec a l); split;
    intros H; try discriminate H; try contradiction; auto.
Qed.

(** What the detections add to the address list. *)
Lemma detections_loop_spec name do_print seen :
  forall address_list,
    NoDup address_list ->
    let '(l, evs) := detections_loop name do_print address_list seen in
    NoDup l
    /\ (forall a, In a l <->
          In a address_list
          \/ exists d, In d seen /\ det_address d = a
                       /\ (det_name d = Some name \/ name = ""%string))
    /\ l = fst (detections_loop name false address_list seen)
    /\ length evs = (if do_print then length l - length address_list else 0)%nat
    /\ (length address_list <= length l)%nat.
Proof.
  induction seen as [|d rest IH]; intros acc Hnd; cbn [detections_loop].
  - split; [exact Hnd|]. split.
    + intros a. split; [auto|]. intros [H | (d & [] & _)]. exact H.
    + split; [reflexivity|]. split; [destruct do_print; cbn; lia | lia].
  - unfold discover_callback.
    destruct ((name_eqb (det_name d) name || String.eqb name "")
              && negb (address_in (det_address d) acc)) eqn:Hc.
    + apply andb_true_iff in Hc. destruct Hc as [Hmatch Hnew].
      apply negb_true_iff in Hnew.
      assert (Hnd' : NoDup (acc ++ [det_address d])).
      { apply NoDup_snoc; [exact Hnd|]. intros Hin.
        apply address_in_spec in Hin. congruence. }
      specialize (IH _ Hnd').
      destruct (detections_loop name do_print (acc ++ [det_address d]) rest)
        as [l evs] eqn:Hl.
      destruct (detections_loop name false (acc ++ [det_address d]) rest)
        as [l0 evs0] eqn:Hl0.
      destruct IH as (IH1 & IH2 & IH3 & IH4 & IH5).
      rewrite length_app in IH4, IH5. cbn [length] in IH4, IH5.
      split; [exact IH1|]. split; [|split; [exact IH3|split]].
      * intros a. rewrite IH2. split.
        -- intros [H | (d' & Hin & Ha & Hm)].
           ++ apply in_app_or in H. destruct H as [H | [<- | []]]; [left; exact H|].
              right. exists d. split; [left; reflexivity|]. split; [reflexivity|].
              apply orb_true_iff in Hmatch. destruct Hmatch as [H | H].
              ** left. apply name_eqb_spec. exact H.
              ** right. apply String.eqb_eq. exact H.
           ++ right. exists d'. split; [right; exact Hin|]. split; assumption.
        -- intros [H | (d' & [<- | Hin] & Ha & Hm)].
           ++ left. apply in_or_app. left. exact H.
           ++ left. apply in_or_app. right. left. exact Ha.
           ++ right. exists d'. repeat split; assumption.
      * rewrite length_app. destruct do_print; cbn [length]; lia.
      * lia.
    + specialize (IH _ Hnd).
      destruct (detections_loop name do_print acc rest) as [l evs] eqn:Hl.
      destruct (detections_loop name false acc rest) as [l0 evs0] eqn:Hl0.
      destruct IH as (IH1 & IH2 & IH3 & IH4 & IH5).
      split; [exact IH1|]. split; [|split; [exact IH3|split; [exact IH4 | exact IH5]]].
      intros a. rewrite IH2. split.
      * intros [H | (d' & Hin & Ha & Hm)]; [left; exact H|].
        right. exists d'. split; [right; exact Hin|]. split; assumption.
      * intros [H | (d' & [<- | Hin] & Ha & Hm)]; [left; exact H| |].
        -- left. apply andb_false_iff in Hc. destruct Hc as [Hc | Hc].
           ++ apply orb_false_iff in Hc. destruct Hc as [Hc1 Hc2].
              destruct Hm as [Hm | Hm].
              ** apply name_eqb_spec in Hm. congruence.
              ** apply String.eqb_eq in Hm. congruence.
           ++ apply negb_false_iff in Hc. apply address_in_spec in Hc.
              rewrite <- Ha. exact Hc.
        -- right. exists d'. repeat split; assumption.
Qed.

(** X22. [scan_bridges] returns every address once: an address is in the
    result exactly when some detection carries it whose device name is
    the wanted name, or when the wanted name is empty.  Printing does
    not change the list, and with [do_print] there is one line per
    address returned. *)
Theorem scan_bridges_addresses (name : String.string)
    (do_print stop_on_hit : bool) (seen : list detection) :
  let '(l, evs) := scan_bridges name do_print stop_on_hit seen in
  NoDup l
  /\ (forall a, In a l <->
        exists d, In d seen /\ det_address d = a
                  /\ (det_name d = Some name \/ name = ""%string))
  /\ l = fst (scan_bridges name false stop_on_hit seen)
  /\ length evs = (if do_print then length l else 0)%nat.
Proof.
  unfold scan_bridges.
  pose proof (detections_loop_spec name do_print seen [] (NoDup_nil _)) as H.
  destruct (detections_loop name do_print [] seen) as [l evs].
  destruct H as (H1 & H2 & H3 & H4 & _).
  split; [exact H1|]. split; [|split; [exact H3|]].
  - intros a. rewrite H2. split; [intros [[] | H]; exact H | intros H; right; exact H].
  - rewrite H4. destruct do_print; cbn [length]; lia.
Qed.

End ScanClaims.

(* ----------------------------------------------------------------- *)
(** ** A delivery that fails *)

Section FailedDelivery.
Import Codec Handler.

Lemma accept_records window s w : accept window s = Some w -> In s w.
Proof.
  intros H. destruct (in_dec str_eq_dec s window) as [Hin | Hnin].
  - rewrite (accept_held _ _ Hin) in H. discriminate H.
  - rewrite (accept_new _ _ Hnin) in H. injection H as <-.
    rewrite skipn_app, length_app. cbn [length].
    replace (length window + 1 - 12 - length window)%nat with 0%nat by lia.
    apply in_or_app. right. left. reflexivity.
Qed.

(** X23. The frame is entered into the window before the callback
    runs.  So whatever the first delivery of a frame does, an exception
    of the callback that ends the handler included, the frame is in the
    window afterwards, and the same notification arriving again reaches
    no callback. *)
Theorem failed_delivery_not_retried (self : Bridge) (cb : noti_callable)
    (frame : list Z) :
  noti_callback self = Some cb ->
  Forall is_byte frame -> length frame = 7%nat -> item frame 0 = 19 ->
  let '(r, self', evs) := __notification_handler self frame in
  In (hex_message frame) (last_notifications self')
  /\ forall cb2,
       noti_calls (snd (__notification_handler
                          (set_noti_callback (Some cb2) self') frame)) = [].
Proof.
  intros Hcb Hb Hlen Hhd.
  destruct (handler_single_frame self cb frame Hcb Hb Hlen Hhd)
    as (r & self' & evs & Hrun & Hacc).
  rewrite Hrun.
  assert (Hin : In (hex_message frame) (last_notifications self')).
  { destruct (accept (last_notifications self) (hex_message frame)) as [w|] eqn:Ha.
    - destruct Hacc as [_ ->]. exact (accept_records _ _ _ Ha).
    - destruct Hacc as [_ ->]. unfold accept in Ha.
      destruct (in_dec str_eq_dec (hex_message frame) (last_notifications self));
        [assumption | discriminate Ha]. }
  split; [exact Hin|].
  intros cb2.
  destruct (handler_single_frame (set_noti_callback (Some cb2) self') cb2 frame
              eq_refl Hb Hlen Hhd) as (r2 & self2 & evs2 & Hrun2 & Hacc2).
  rewrite Hrun2. cbn [snd].
  change (last_notifications (set_noti_callback (Some cb2) self'))
    with (last_notifications self') in Hacc2.
  rewrite (accept_held _ _ Hin) in Hacc2.
  exact (proj1 Hacc2).
Qed.

(** A callback that raises ValueError on every notification. *)
Lemma failed_delivery_not_retried_witness :
  let '(r, self', _) :=
    __notification_handler
      (set_noti_callback (Some (fun _ => Some ValueError)) Bridge_init)
      [19; 5; 0; 0; 0; 24; 1] in
  r = Raise ValueError
  /\ noti_calls (snd (__notification_handler
                        (set_noti_callback (Some (fun _ => None)) self')
                        [19; 5; 0; 0; 0; 24; 1])) = [].
Proof.
  pose proof (failed_delivery_not_retried
                (set_noti_callback (Some (fun _ => Some ValueError)) Bridge_init)
                (fun _ => Some ValueError) [19; 5; 0; 0; 0; 24; 1]
                eq_refl) as H.
  assert (Hb : Forall is_byte [19; 5; 0; 0; 0; 24; 1]).
  { repeat constructor; unfold is_byte; lia. }
  specialize (H Hb eq_refl eq_refl).
  assert (Hr : fst (fst (__notification_handler
             (set_noti_callback (Some (fun _ => Some ValueError)) Bridge_init)
             [19; 5; 0; 0; 0; 24; 1])) = Raise ValueError) by reflexivity.
  destruct (__notification_handler
              (set_noti_callback (Some (fun _ => Some ValueError)) Bridge_init)
              [19; 5; 0; 0; 0; 24; 1]) as [[r self'] evs].
  split; [exact Hr | exact (proj2 H (fun _ => None))].
Defined.

End FailedDelivery.

(* ----------------------------------------------------------------- *)
(** ** A lost link that is recovered *)

Section Recovery.
Import Session.

(** X24. A link lost on a Bridge with try_reconnect set, not
    disconnected by the user, whose transport finds the device again:
    the Bridge ends connected after a single attempt, made by address
    with the default timeout of 25 seconds; try_reconnect stays set, so
    the next loss starts a reconnect again, but the disconnect callback
    is gone and that loss is reported to nobody. *)
Theorem lost_link_recovered (self : Bridge) (address : String.string)
    (env : connect_env) (start_notify : result unit) (d : BLEDevice) :
  user_disconnected self = false ->
  try_reconnect self = true ->
  (forall cb u t, dc_callback self = Some cb -> cb u t = None) ->
  find_device env = Ok (Some d) ->
  client_connect env = Ok tt ->
  (is_linux env = true -> acquire_mtu env = Ok tt) ->
  (forall x, read_gatt_char env = Raise x ->
             x = AttributeError \/ is_BleakError x = true) ->
  (forall x, start_notify = Raise x ->
             x = AttributeError \/ is_BleakError x = true) ->
  let '(r, self', evs) := connection_lost self address env start_notify in
  r = Ok tt
  /\ is_connected self' = true
  /\ connect_attempts evs = 1%nat
  /\ In (EvScan false address 25) evs
  /\ forall address',
       __disconnect_callback self' address'
       = (Ok tt, [EvLog INFO msg_disconnected; EvLog INFO msg_trying;
                  EvCreateTaskReconnect address']).
Proof.
  intros Huser Htry Hcb Hfind Hconn Hmtu Hread Hstart.
  assert (Hm : (if is_linux env then acquire_mtu env else Ok tt) = Ok tt).
  { destruct (is_linux env); [apply Hmtu|]; reflexivity. }
  assert (Hre : forall b : Bridge,
            let '(r, self', evs) := __reconnect b address env start_notify in
            r = Ok tt
            /\ is_connected self' = true
            /\ connect_attempts evs = 1%nat
            /\ In (EvScan false address 25) evs
            /\ dc_callback self' = None
            /\ user_disconnected self' = false
            /\ try_reconnect self' = true).
  { intros b. unfold __reconnect, connect. rewrite Hfind, Hconn, Hm.
    unfold request_bridge_info, __read_chraceristic.
    cbn [client set_client set_user_disconnected set_name set_address
         set_dc_callback set_reconnect_flags].
    assert (Hlinux : forall l : list event,
              connect_attempts ((if is_linux env then [EvAcquireMtu] else []) ++ l)
              = connect_attempts l).
    { intros l. destruct (is_linux env); reflexivity. }
    assert (Hfin : forall (b' : Bridge) (pre : list event),
              restart_notifications b' = true -> try_reconnect b' = true ->
              dc_callback b' = None -> user_disconnected b' = false ->
              is_connected b' = true ->
              connect_attempts pre = 1%nat -> In (EvScan false address 25) pre ->
              let '(r, self', evs) :=
                match restart_notifications b', noti_callback b' with
                | true, Some cb =>
                    match notification_enable b' cb UUID_NOTIF start_notify with
                    | (Raise x, self, evs') => (Raise x, self, pre ++ evs')
                    | (Ok _, self, evs') => (Ok tt, self, pre ++ evs')
                    end
                | _, _ => (Ok tt, b', pre)
                end in
              r = Ok tt
              /\ is_connected self' = true
              /\ connect_attempts evs = 1%nat
              /\ In (EvScan false address 25) evs
              /\ dc_callback self' = None
              /\ user_disconnected self' = false
              /\ try_reconnect self' = true).
    { intros b' pre Hrn Htr Hdc Hud Hic Hca Hsc. rewrite Hrn.
      destruct (noti_callback b') as [ncb|]; [|repeat split; assumption].
      unfold notification_enable. unfold is_connected in Hic.
      destruct (client b') as [c|] eqn:Hc; [|discriminate Hic].
      assert (Hpre : forall l, connect_attempts l = 0%nat ->
                connect_attempts (pre ++ l) = 1%nat).
      { intros l Hl. unfold connect_attempts in *.
        rewrite filter_app, length_app. lia. }
      destruct start_notify as [[]|y] eqn:Hs.
      - repeat split; try assumption.
        + unfold is_connected. cbn. rewrite Hc. exact Hic.
        + apply Hpre. reflexivity.
        + apply in_or_app. left. exact Hsc.
      - destruct (Hstart y eq_refl) as [-> | Hy];
          [|destruct y; try discriminate Hy];
          cbn [is_BleakError]; repeat split; try assumption;
          try (unfold is_connected; rewrite Hc; exact Hic);
          try (apply Hpre; reflexivity);
          apply in_or_app; left; exact Hsc. }
    assert (Hscan : forall l1 l2 : list event,
              In (EvScan false address 25)
                 (((([EvScan false address 25] ++ l1) ++ l2)))).
    { intros l1 l2. left. reflexivity. }
    destruct (read_gatt_char env) as [data|x] eqn:Hr.
    - destruct data as [|b0 [|b1 [|b2 rest]]]; cbn [wait_for];
        apply Hfin; try reflexivity;
        try (unfold connect_attempts;
             repeat rewrite filter_app; repeat rewrite length_app;
             destruct (is_linux env); reflexivity);
        repeat (apply in_or_app; left); left; reflexivity.
    - destruct (Hread x eq_refl) as [-> | Hx];
        [|destruct x; try discriminate Hx]; cbn [wait_for is_BleakError];
        apply Hfin; try reflexivity;
        try (unfold connect_attempts;
             repeat rewrite filter_app; repeat rewrite length_app;
             destruct (is_linux env); reflexivity);
        repeat (apply in_or_app; left); left; reflexivity. }
  unfold connection_lost, __disconnect_callback at 1, guarded_dc_call.
  rewrite Huser, Htry. cbn [negb andb].
  assert (Hagain : forall (b : Bridge) address',
            dc_callback b = None -> user_disconnected b = false ->
            try_reconnect b = true ->
            __disconnect_callback b address'
            = (Ok tt, [EvLog INFO msg_disconnected; EvLog INFO msg_trying;
                       EvCreateTaskReconnect address'])).
  { intros b address' Hdc Hud Htr. unfold __disconnect_callback, guarded_dc_call.
    rewrite Hdc, Hud, Htr. reflexivity. }
  specialize (Hre self).
  destruct (dc_callback self) as [cb|] eqn:Hdc.
  - rewrite (Hcb cb false false eq_refl).
    cbn [existsb app orb].
    destruct (__reconnect self address env start_notify) as [[r self'] evs].
    destruct Hre as (H1 & H2 & H3 & H4 & H5 & H6 & H7).
    split; [exact H1|]. split; [exact H2|]. split; [exact H3|].
    split; [do 4 right; exact H4|].
    intros address'. apply Hagain; assumption.
  - cbn [existsb app orb].
    destruct (__reconnect self address env start_notify) as [[r self'] evs].
    destruct Hre as (H1 & H2 & H3 & H4 & H5 & H6 & H7).
    split; [exact H1|]. split; [exact H2|]. split; [exact H3|].
    split; [do 3 right; exact H4|].
    intros address'. apply Hagain; assumption.
Qed.

(** The watched Bridge on a transport where every request succeeds. *)
Lemma lost_link_recovered_witness :
  let '(r, self', _) :=
    connection_lost (watched_bridge (fun _ _ => None)) "AA:BB" willing_transport
      (Ok tt) in
  r = Ok tt /\ is_connected self' = true.
Proof.
  pose proof (lost_link_recovered (watched_bridge (fun _ _ => None)) "AA:BB"
                willing_transport (Ok tt)
                {| dev_name := BRIDGE_NAME; dev_address := "AA:BB" |}
                eq_refl eq_refl
                (fun cb u t (H : dc_callback (watched_bridge (fun _ _ => None)) = Some cb) =>
                   match H in (_ = y)
                     return match y with Some f => f u t = None | None => True end
                   with eq_refl => eq_refl end)
                eq_refl eq_refl (fun _ => eq_refl)
                (fun x (H : read_gatt_char willing_transport = Raise x) =>
                   match H in (_ = y)
                     return match y with Raise _ => _ | Ok _ => True end
                   with eq_refl => I end)
                (fun x (H : Ok tt = Raise x) =>
                   match H in (_ = y)
                     return match y with Raise _ => _ | Ok _ => True end
                   with eq_refl => I end)) as H.
  destruct (connection_lost (watched_bridge (fun _ _ => None)) "AA:BB"
              willing_transport (Ok tt)) as [[r self'] evs].
  split; [exact (proj1 H) | exact (proj1 (proj2 H))].
Defined.

End Recovery.
